(** * YouTube downloader: the worker/controller event contract

    A shallow embedding of [main.py]: the [DownloadWorker] that bridges the
    download engine's callbacks to Qt signals, and the [MainWindow] slots that
    consume them.  Python values, strings and binary64 arithmetic are modelled
    as far as the progress hook uses them. *)

From Stdlib Require Import Reals Lra.
From Stdlib Require Import ZArith List Bool Ascii String Lia DecimalString.
From Stdlib Require Import Floats.SpecFloat.
From stdpp Require Import base option list gmap.

Local Open Scope Z_scope.

(** ** Python text

    A Python [str] is a sequence of Unicode code points. *)

Abbreviation str := (list N).

Definition lit (s : string) : str := map N_of_ascii (list_ascii_of_string s).

(** [str.isspace] for one code point: the characters [str.strip()] removes. *)
Definition isspace (c : N) : bool :=
  (((9 <=? c) && (c <=? 13)) || ((28 <=? c) && (c <=? 32))
   || (c =? 133) || (c =? 160) || (c =? 5760)
   || ((8192 <=? c) && (c <=? 8202))
   || (c =? 8232) || (c =? 8233) || (c =? 8239) || (c =? 8287)
   || (c =? 12288))%N.

Fixpoint lstrip (s : str) : str :=
  match s with
  | c :: s' => if isspace c then lstrip s' else s
  | [] => []
  end.

Definition rstrip (s : str) : str := rev (lstrip (rev s)).

Definition strip (s : str) : str := rstrip (lstrip s).

(** The decimal digits of an integer, with a leading [-] when negative. *)
Definition decimal (n : Z) : str := lit (NilZero.string_of_int (Z.to_int n)).

Fixpoint startswith (p s : str) : bool :=
  match p, s with
  | [], _ => true
  | a :: p', b :: s' => (a =? b)%N && startswith p' s'
  | _ :: _, [] => false
  end.

Definition endswith (p s : str) : bool := startswith (rev p) (rev s).

(** ** Exceptions *)

Inductive exc_class :=
| TypeError
| AttributeError
| ZeroDivisionError
| OverflowError
| ValueError
| RecursionError
| OtherException (name : str)
| KeyboardInterrupt
| SystemExit
| GeneratorExit.

(** [isinstance(e, Exception)]: what an [except Exception] clause selects.
    [KeyboardInterrupt], [SystemExit] and [GeneratorExit] derive from
    [BaseException] only. *)
Definition is_Exception (c : exc_class) : bool :=
  match c with
  | KeyboardInterrupt | SystemExit | GeneratorExit => false
  | _ => true
  end.

(** An exception object as the engine raises it; [exn_str] is [str(e)]. *)
Record exn := { exn_class : exc_class; exn_str : str }.

(** Result of an expression that may raise a built-in error. *)
Inductive result (A : Type) :=
| Ok (a : A)
| Raised (c : exc_class).
Arguments Ok {A} a.
Arguments Raised {A} c.

#[global] Instance result_ret : MRet result := fun A a => Ok a.
#[global] Instance result_bind : MBind result := fun A B f r =>
  match r with
  | Ok a => f a
  | Raised c => Raised c
  end.

(** [str(n)] for an [int], also as an f-string field renders it: the
    interpreter refuses to convert an integer of more than
    [sys.get_int_max_str_digits()] digits, 4300 unless configured. *)
Definition max_str_digits : Z := 4300.

Definition str_of_int (n : Z) : result str :=
  if Z.abs n <? 10 ^ max_str_digits then Ok (decimal n) else Raised ValueError.

(** ** Python values *)

#[warnings="-register-all"] Inductive value :=
| VNone
| VBool (b : bool)
| VInt (n : Z)
| VFloat (x : spec_float)
| VStr (s : str)
| VDict (d : gmap str value).

(** [d.get(k)] on a dict: [None] when the key is missing. *)
Definition dict_get (d : gmap str value) (k : string) : value :=
  default VNone (d !! lit k).

(** [v.get(k)] on an arbitrary object: only dicts have the method. *)
Definition value_get (v : value) (k : string) : result value :=
  match v with
  | VDict d => Ok (dict_get d k)
  | _ => Raised AttributeError
  end.

(** ** binary64 arithmetic *)

Definition prec : Z := 53.
Definition emax : Z := 1024.

Definition float_is_zero (x : spec_float) : bool :=
  match x with
  | S754_zero _ => true
  | _ => false
  end.

(** [float(n)] for an [int]: round to nearest even, [OverflowError] when the
    integer is too large. *)
Definition float_of_int (n : Z) : result spec_float :=
  match binary_normalize prec emax n 0 false with
  | S754_infinity _ => Raised OverflowError
  | x => Ok x
  end.

(** [a / b] for two [int]s: the correctly rounded quotient. *)
Definition int_truediv (a b : Z) : result spec_float :=
  if b =? 0 then Raised ZeroDivisionError
  else
    match a with
    | 0 => Ok (S754_zero (b <? 0))
    | _ =>
        match SFdiv prec emax
                (S754_finite (a <? 0) (Z.to_pos (Z.abs a)) 0)
                (S754_finite (b <? 0) (Z.to_pos (Z.abs b)) 0) with
        | S754_infinity _ => Raised OverflowError
        | x => Ok x
        end
    end.

(** [x / y] for two [float]s. *)
Definition float_truediv (x y : spec_float) : result spec_float :=
  if float_is_zero y then Raised ZeroDivisionError
  else Ok (SFdiv prec emax x y).

(** [int(x)] for a [float]: truncation toward zero. *)
Definition int_of_float (x : spec_float) : result Z :=
  match x with
  | S754_zero _ => Ok 0
  | S754_infinity _ => Raised OverflowError
  | S754_nan => Raised ValueError
  | S754_finite s m e => Ok (cond_Zopp s (Z.shiftl (Zpos m) e))
  end.

(** ** Operators on values *)

Inductive number :=
| NInt (n : Z)
| NFloat (x : spec_float).

(** [bool] is a subclass of [int]. *)
Definition as_number (v : value) : option number :=
  match v with
  | VBool b => Some (NInt (Z.b2z b))
  | VInt n => Some (NInt n)
  | VFloat x => Some (NFloat x)
  | _ => None
  end.

(** Truth value, as [if v] and [v or w] test it. *)
Definition truthy (v : value) : bool :=
  match v with
  | VNone => false
  | VBool b => b
  | VInt n => negb (n =? 0)
  | VFloat x => negb (float_is_zero x)
  | VStr s => negb (bool_decide (s = []))
  | VDict d => negb (bool_decide (d = ∅))
  end.

(** [v or w]. *)
Definition py_or (v w : value) : value := if truthy v then v else w.

(** [v == "s"] for a string literal. *)
Definition eq_lit (v : value) (s : string) : bool :=
  match v with
  | VStr t => bool_decide (t = lit s)
  | _ => false
  end.

(** [v is not None]. *)
Definition is_not_None (v : value) : bool :=
  match v with
  | VNone => false
  | _ => true
  end.

(** [isinstance(v, int)]. *)
Definition isinstance_int (v : value) : bool :=
  match v with
  | VInt _ | VBool _ => true
  | _ => false
  end.

(** [v > 0] for an instance of [int]. *)
Definition int_gt0 (v : value) : bool :=
  match v with
  | VInt n => 0 <? n
  | VBool b => b
  | _ => false
  end.

(** [x * y]. *)
Definition py_mul (x y : value) : result value :=
  match as_number x, as_number y with
  | Some (NInt a), Some (NInt b) => Ok (VInt (a * b))
  | Some (NInt a), Some (NFloat g) =>
      f ← float_of_int a; Ok (VFloat (SFmul prec emax f g))
  | Some (NFloat f), Some (NInt b) =>
      g ← float_of_int b; Ok (VFloat (SFmul prec emax f g))
  | Some (NFloat f), Some (NFloat g) => Ok (VFloat (SFmul prec emax f g))
  | _, _ =>
      match x, as_number y, as_number x, y with
      | VStr s, Some (NInt n), _, _ => Ok (VStr (mjoin (replicate (Z.to_nat n) s)))
      | _, _, Some (NInt n), VStr s => Ok (VStr (mjoin (replicate (Z.to_nat n) s)))
      | _, _, _, _ => Raised TypeError
      end
  end.

(** [x / y]. *)
Definition py_truediv (x y : value) : result spec_float :=
  match as_number x, as_number y with
  | Some (NInt a), Some (NInt b) => int_truediv a b
  | Some (NInt a), Some (NFloat g) => f ← float_of_int a; float_truediv f g
  | Some (NFloat f), Some (NInt b) => g ← float_of_int b; float_truediv f g
  | Some (NFloat f), Some (NFloat g) => float_truediv f g
  | _, _ => Raised TypeError
  end.

(** ** Text forms that are left open

    [repr] of a float and of a dict, and [bytes.decode(errors="ignore")], are
    supplied by the interpreter; the worker only splices their result into a
    message.  [repr] of a dict may raise: [RecursionError] when the dict is
    nested too deeply, [ValueError] when it holds an integer of too many
    digits. *)

Record runtime := {
  float_repr : spec_float -> str;
  dict_repr : gmap str value -> result str;
  decode_ignore : list N -> str
}.

(** [str(v)], as an f-string field [{v}] renders it. *)
Definition py_str (rt : runtime) (v : value) : result str :=
  match v with
  | VNone => Ok (lit "None")
  | VBool true => Ok (lit "True")
  | VBool false => Ok (lit "False")
  | VInt n => str_of_int n
  | VFloat x => Ok (float_repr rt x)
  | VStr s => Ok s
  | VDict d => dict_repr rt d
  end.

(** ** Korean string literals of the source, as code points *)

Definition s_merging : str := [48337; 54633; 32; 51473]%N.        (* "병합 중" *)
Definition s_warning_tag : str := [44221; 44256; 58; 32]%N.       (* "경고: " *)
Definition s_error_tag : str := [50724; 47448; 58; 32]%N.         (* "오류: " *)
Definition s_collecting : str :=
  [51221; 48372; 32; 49688; 51665; 32; 51473]%N.                  (* "정보 수집 중" *)
Definition s_done : str := [50756; 47308]%N.                      (* "완료" *)
Definition s_error : str := [50724; 47448]%N.                     (* "오류" *)
Definition s_starting : str := [49884; 51089; 32; 51473]%N.       (* "시작 중" *)
Definition s_progress_tag : str := [51652; 54665; 47456; 32]%N.   (* "진행률 " *)
Definition s_input_error : str := [51077; 47141; 32; 50724; 47448]%N. (* "입력 오류" *)
Definition s_enter_url : str :=
  [85; 82; 76; 51012; 32; 51077; 47141; 54616; 49464; 50836; 46]%N. (* "URL을 입력하세요." *)
Definition s_choose_folder : str :=
  [45796; 50868; 47196; 46300; 32; 54260; 45908; 47484; 32;
   49440; 53469; 54616; 49464; 50836; 46]%N.            (* "다운로드 폴더를 선택하세요." *)
Definition s_invalid_folder : str :=
  [50976; 54952; 54620; 32; 54260; 45908; 44032; 32;
   50500; 45785; 45768; 45796; 46]%N.                   (* "유효한 폴더가 아닙니다." *)

(** ** Signals and the worker-side effect monad *)

(** The first argument of [progress] is declared [int]: a C [int] of 32
    bits.  [emit] converts the Python [int] it is handed without a range
    check, which keeps the low 32 bits, read as a signed number. *)
Definition c_int (n : Z) : Z := (n + 2 ^ 31) mod 2 ^ 32 - 2 ^ 31.

(** The four [pyqtSignal]s of [DownloadWorker]; [progress] carries the C
    [int] and the text. *)
Inductive signal :=
| progress (percent : Z) (desc : str)
| log (text : str)
| finished
| error (message : str).

(** A computation on the worker thread: the signals it emits, in order, and
    its result or the built-in error that stopped it. *)
Definition M (A : Type) : Type := list signal * result A.

#[global] Instance M_ret : MRet M := fun A a => ([], Ok a).
#[global] Instance M_bind : MBind M := fun A B f m =>
  match m with
  | (tr, Ok a) => let '(tr', r) := f a in (tr ++ tr', r)
  | (tr, Raised c) => (tr, Raised c)
  end.

Definition emit (s : signal) : M () := ([s], Ok ()).

(** [self.progress.emit(percent, desc)]. *)
Definition emit_progress (percent : Z) (desc : str) : M () :=
  emit (progress (c_int percent) desc).

Definition lift {A} (r : result A) : M A := ([], r).

Definition is_terminal (s : signal) : bool :=
  match s with
  | finished | error _ => true
  | _ => false
  end.

(** ** The download engine, seen from the worker

    What one [download] call does towards its caller: it invokes the progress
    hooks and the logger any number of times and then returns or raises.  A
    hook's own failure is handed back to the engine, which decides how to go
    on. *)

Inductive logger_msg :=
| MsgStr (s : str)
| MsgBytes (b : list N).

Inductive behaviour :=
| Returns
| Raises (e : exn)
| CallHooks (d : gmap str value) (k : option exc_class -> behaviour)
| CallDebug (msg : logger_msg) (k : behaviour)
| CallWarning (msg : logger_msg) (k : behaviour)
| CallError (msg : logger_msg) (k : behaviour).

Record Logger := {
  debug : logger_msg -> M ();
  warning : logger_msg -> M ();
  error_ : logger_msg -> M ()
}.

(** The option dictionary handed to [yt_dlp.YoutubeDL]; [merge_output_format]
    is a key that is present only in one of the two dictionaries. *)
Record ydl_opts := {
  outtmpl : str;
  ignoreerrors : bool;
  merge_output_format : option str;
  format : str;
  progress_hooks : list (gmap str value -> M ());
  logger : Logger
}.

(** A constructed [YoutubeDL] object: its [download] method and whether
    leaving the [with] block raises. *)
Record YoutubeDL := {
  download : list str -> behaviour;
  exit_raises : option exn
}.

(** [yt_dlp.YoutubeDL(opts)]: the constructor may itself raise. *)
Definition engine : Type := ydl_opts -> exn + YoutubeDL.

(** Calling every hook of the list on one payload, stopping at the first that
    raises. *)
Fixpoint call_hooks (hooks : list (gmap str value -> M ())) (d : gmap str value) : M () :=
  match hooks with
  | [] => mret ()
  | h :: hooks' => h d ≫= fun _ => call_hooks hooks' d
  end.

Definition raised_class {A} (r : result A) : option exc_class :=
  match r with
  | Ok _ => None
  | Raised c => Some c
  end.

(** Running a behaviour against the callbacks of [opts]: the signals emitted
    and the exception the call ends with, if any. *)
Fixpoint drive (opts : ydl_opts) (b : behaviour) : list signal * option exn :=
  match b with
  | Returns => ([], None)
  | Raises e => ([], Some e)
  | CallHooks d k =>
      let '(tr, r) := call_hooks (progress_hooks opts) d in
      let '(tr', o) := drive opts (k (raised_class r)) in
      (tr ++ tr', o)
  | CallDebug msg k =>
      let '(tr, _) := debug (logger opts) msg in
      let '(tr', o) := drive opts k in
      (tr ++ tr', o)
  | CallWarning msg k =>
      let '(tr, _) := warning (logger opts) msg in
      let '(tr', o) := drive opts k in
      (tr ++ tr', o)
  | CallError msg k =>
      let '(tr, _) := error_ (logger opts) msg in
      let '(tr', o) := drive opts k in
      (tr ++ tr', o)
  end.

(** ** [class DownloadWorker] *)

Module DownloadWorker.

Record t := {
  url : str;
  output_dir : str;
  ffmpeg_available : bool
}.

(** [_build_logger]: the three methods forward to the [log] signal. *)
Definition msg_text (rt : runtime) (msg : logger_msg) : str :=
  match msg with
  | MsgStr s => s
  | MsgBytes b => decode_ignore rt b
  end.

Definition _build_logger (rt : runtime) : Logger := {|
  debug msg := emit (log (msg_text rt msg));
  warning msg := emit (log (s_warning_tag ++ msg_text rt msg));
  error_ msg := emit (log (s_error_tag ++ msg_text rt msg))
|}.

(** Lines 63-65: the percentage of a "downloading" payload. *)
Definition percent_of (d : gmap str value) : result Z :=
  let total :=
    py_or (py_or (dict_get d "total_bytes") (dict_get d "total_bytes_estimate"))
          (VInt 0) in
  let downloaded := py_or (dict_get d "downloaded_bytes") (VInt 0) in
  if truthy total then
    x ← py_mul downloaded (VInt 100);
    q ← py_truediv x total;
    int_of_float q
  else Ok 0.

(** Lines 68-73 and 81-86: the [[index/count] ] marker. *)
Definition prefix_of (rt : runtime) (d : gmap str value) : result str :=
  let info := py_or (dict_get d "info_dict") (VDict ∅) in
  p_index ← value_get info "playlist_index";
  p_count ← value_get info "playlist_count";
  if isinstance_int p_index && isinstance_int p_count && int_gt0 p_count then
    s_index ← py_str rt p_index;
    s_count ← py_str rt p_count;
    Ok (lit "[" ++ s_index ++ lit "/" ++ s_count ++ lit "] ")
  else Ok [].

(** Lines 75-76: the speed field. *)
Definition speed_of (d : gmap str value) : result str :=
  let speed := dict_get d "speed" in
  if truthy speed then
    q ← py_truediv speed (VInt 1024);
    n ← int_of_float q;
    s_n ← str_of_int n;
    Ok (s_n ++ lit " KB/s ")
  else Ok [].

(** Lines 77-78: the ETA field. *)
Definition eta_of (rt : runtime) (d : gmap str value) : result str :=
  let eta := dict_get d "eta" in
  if is_not_None eta then
    s_eta ← py_str rt eta;
    Ok (lit "ETA " ++ s_eta ++ lit "s")
  else Ok [].

(** Lines 66-78: the annotation of a "downloading" payload, before
    [strip]. *)
Definition desc_of (rt : runtime) (d : gmap str value) : result str :=
  prefix ← prefix_of rt d;
  sp ← speed_of d;
  e ← eta_of rt d;
  Ok (prefix ++ sp ++ e).

Definition _progress_hook (rt : runtime) (d : gmap str value) : M () :=
  if eq_lit (dict_get d "status") "downloading" then
    percent ← lift (percent_of d);
    desc ← lift (desc_of rt d);
    emit_progress percent (strip desc)
  else if eq_lit (dict_get d "status") "finished" then
    prefix ← lift (prefix_of rt d);
    emit_progress 100 (strip (prefix ++ s_merging))
  else mret ().

(** [os.path.join(self.output_dir, "%(title)s.%(ext)s")] on a POSIX path. *)
Definition path_join (dir name : str) : str :=
  match last dir with
  | None => name
  | Some c => if (c =? 47)%N then dir ++ name else dir ++ lit "/" ++ name
  end.

(** Lines 91-108: the option dictionary. *)
Definition build_opts (rt : runtime) (self : t) : ydl_opts :=
  let outtmpl := path_join (output_dir self) (lit "%(title)s.%(ext)s") in
  if ffmpeg_available self then
    {| outtmpl := outtmpl;
       ignoreerrors := true;
       merge_output_format := Some (lit "mp4");
       format := lit "bestvideo[ext=mp4]+bestaudio[ext=m4a]/best[ext=mp4]/best";
       progress_hooks := [_progress_hook rt];
       logger := _build_logger rt |}
  else
    {| outtmpl := outtmpl;
       ignoreerrors := true;
       merge_output_format := None;
       format := lit "best[ext=mp4]/best";
       progress_hooks := [_progress_hook rt];
       logger := _build_logger rt |}.

(** Lines 109-111: the [with] block.  The signals emitted in it and the
    exception that leaves it, if any. *)
Definition with_block (yt_dlp : engine) (opts : ydl_opts) (self : t)
  : list signal * option exn :=
  match yt_dlp opts with
  | inl e => ([], Some e)
  | inr ydl =>
      let '(tr, o) := drive opts (download ydl [url self]) in
      (log s_collecting :: tr,
       match exit_raises ydl with
       | Some e' => Some e'
       | None => o
       end)
  end.

(** What one call of [run] does: the signals it emits and the exception
    that escapes it, if any. *)
Record outcome := {
  emitted : list signal;
  escaped : option exn
}.

Definition run (rt : runtime) (yt_dlp : engine) (self : t) : outcome :=
  match with_block yt_dlp (build_opts rt self) self with
  | (tr, None) => {| emitted := tr ++ [finished]; escaped := None |}
  | (tr, Some e) =>
      if is_Exception (exn_class e)
      then {| emitted := tr ++ [error (exn_str e)]; escaped := None |}
      else {| emitted := tr; escaped := Some e |}
  end.

End DownloadWorker.

(** ** [class MainWindow] *)

Module MainWindow.

(** A [QThread] the window holds; [running] after [start()]. *)
Record QThread := { running : bool }.

(** The fields and widgets the slots read and write.  [dialogs] collects
    the [QMessageBox.warning] boxes shown, as (title, text). *)
Record t := {
  url_edit : str;
  path_edit : str;
  start_btn_enabled : bool;
  progress_value : Z;
  status_label : str;
  log_view : list str;
  thread : option QThread;
  worker : option DownloadWorker.t;
  ffmpeg_available : bool;
  dialogs : list (str * str)
}.

Definition warn (title text : str) (w : t) : t :=
  {| url_edit := url_edit w; path_edit := path_edit w;
     start_btn_enabled := start_btn_enabled w;
     progress_value := progress_value w;
     status_label := status_label w;
     log_view := log_view w;
     thread := thread w; worker := worker w;
     ffmpeg_available := ffmpeg_available w;
     dialogs := dialogs w ++ [(title, text)] |}.

(** [on_start]; [isdir] is [os.path.isdir] on the current file system. *)
Definition on_start (isdir : str -> bool) (w : t) : t :=
  let url := strip (url_edit w) in
  let output_dir := strip (path_edit w) in
  if bool_decide (url = []) then warn s_input_error s_enter_url w
  else if bool_decide (output_dir = []) then warn s_input_error s_choose_folder w
  else if negb (isdir output_dir) then warn s_input_error s_invalid_folder w
  else
    {| url_edit := url_edit w; path_edit := path_edit w;
       start_btn_enabled := false;
       progress_value := 0;
       status_label := s_starting;
       log_view := [];
       thread := Some {| running := true |};
       worker := Some {| DownloadWorker.url := url;
                         DownloadWorker.output_dir := output_dir;
                         DownloadWorker.ffmpeg_available := ffmpeg_available w |};
       ffmpeg_available := ffmpeg_available w;
       dialogs := dialogs w |}.

(** [on_progress].  The bar was given the range 0..100 in [_build_ui] (line
    220), and [QProgressBar.setValue] leaves the bar as it is for a value
    outside its range; [value] arrives as a C [int], so its text has at most
    eleven characters. *)
Definition on_progress (value : Z) (desc : str) (w : t) : t :=
  {| url_edit := url_edit w; path_edit := path_edit w;
     start_btn_enabled := start_btn_enabled w;
     progress_value :=
       if (0 <=? value) && (value <=? 100) then value else progress_value w;
     status_label :=
       s_progress_tag ++ decimal value ++ lit "%"
         ++ (if bool_decide (desc = []) then [] else lit " - " ++ desc);
     log_view := log_view w;
     thread := thread w; worker := worker w;
     ffmpeg_available := ffmpeg_available w;
     dialogs := dialogs w |}.

Definition append_log (text : str) (w : t) : t :=
  {| url_edit := url_edit w; path_edit := path_edit w;
     start_btn_enabled := start_btn_enabled w;
     progress_value := progress_value w;
     status_label := status_label w;
     log_view := log_view w ++ [text];
     thread := thread w; worker := worker w;
     ffmpeg_available := ffmpeg_available w;
     dialogs := dialogs w |}.

(** The tail shared by [on_finished] and [on_error]: status text, start
    button, and release of the thread and worker when a thread is held. *)
Definition finish_with (status : str) (w : t) : t :=
  {| url_edit := url_edit w; path_edit := path_edit w;
     start_btn_enabled := true;
     progress_value := progress_value w;
     status_label := status;
     log_view := log_view w;
     thread := None;
     worker := match thread w with
               | Some _ => None
               | None => worker w
               end;
     ffmpeg_available := ffmpeg_available w;
     dialogs := dialogs w |}.

Definition on_finished (w : t) : t :=
  finish_with s_done (append_log s_done w).

Definition on_error (message : str) (w : t) : t :=
  finish_with s_error (append_log (s_error_tag ++ message) w).

(** The connections made in [on_start]: which slot each signal runs.  The
    slot of [progress] receives the signal's C [int]. *)
Definition deliver (w : t) (s : signal) : t :=
  match s with
  | progress value desc => on_progress (c_int value) desc w
  | log text => append_log text w
  | finished => on_finished w
  | error message => on_error message w
  end.

(** Delivering a sequence of signals in emission order; the list of
    windows after each delivery. *)
Fixpoint deliver_all (w : t) (tr : list signal) : list t :=
  match tr with
  | [] => []
  | s :: tr' => let w' := deliver w s in w' :: deliver_all w' tr'
  end.

(** Number of times the start button goes from disabled to enabled along a
    sequence of windows that starts from [w]. *)
Fixpoint reenabled (w : t) (ws : list t) : nat :=
  match ws with
  | [] => 0
  | w' :: ws' =>
      ((if negb (start_btn_enabled w) && start_btn_enabled w' then 1 else 0)
       + reenabled w' ws')%nat
  end.

(** [on_browse]; [chosen] is what [QFileDialog.getExistingDirectory]
    returned, the empty string when the dialog was cancelled. *)
Definition on_browse (chosen : str) (w : t) : t :=
  if bool_decide (chosen = []) then w
  else
    {| url_edit := url_edit w; path_edit := chosen;
       start_btn_enabled := start_btn_enabled w;
       progress_value := progress_value w;
       status_label := status_label w;
       log_view := log_view w;
       thread := thread w; worker := worker w;
       ffmpeg_available := ffmpeg_available w;
       dialogs := dialogs w |}.

End MainWindow.

(** ** Vocabulary of the statements *)

(** Number of terminal signals in a trace. *)
Fixpoint count_terminal (tr : list signal) : nat :=
  match tr with
  | [] => 0
  | s :: tr' => ((if is_terminal s then 1 else 0) + count_terminal tr')%nat
  end.

(** The second half of [binary_round_aux]: renormalising a rounded
    mantissa. *)
Definition renorm (sx : bool) (m2 e1 : Z) : spec_float :=
  let '(mrs, e2) := shr_fexp prec emax m2 e1 loc_Exact in
  match shr_m mrs with
  | 0 => S754_zero sx
  | Zpos m => if e2 <=? emax - prec then S754_finite sx m e2 else S754_infinity sx
  | Zneg _ => S754_nan
  end.

(** ** The value of a binary64 number *)

(** [2^e] as a real number. *)
Definition p2 (e : Z) : R := powerRZ 2 e.

(** The magnitude of a finite number, its sign aside. *)
Definition Fmag (x : spec_float) : R :=
  match x with
  | S754_finite _ m e => (IZR (Zpos m) * p2 e)%R
  | _ => 0%R
  end.

Definition float_finite (x : spec_float) : bool :=
  match x with
  | S754_zero _ | S754_finite _ _ _ => true
  | _ => false
  end.

(** A zero or finite number of sign [sx]. *)
Definition Fsigned (sx : bool) (x : spec_float) : Prop :=
  match x with
  | S754_zero s | S754_finite s _ _ => s = sx
  | _ => False
  end.

(** The value of a binary64 number; 0 for an infinity or NaN. *)
Definition F2R (x : spec_float) : R :=
  match x with
  | S754_finite s m e => (IZR (cond_Zopp s (Zpos m)) * p2 e)%R
  | _ => 0%R
  end.

Definition num_val (n : number) : R :=
  match n with
  | NInt z => IZR z
  | NFloat x => F2R x
  end.

(** An [int], or a [float] that is a zero or a finite binary64 number. *)
Definition num_valid (n : number) : Prop :=
  match n with
  | NInt _ => True
  | NFloat (S754_zero _) => True
  | NFloat (S754_finite _ m e) => bounded prec emax m e = true
  | NFloat _ => False
  end.

(** The shift [shr_fexp] applies to a mantissa [q] of exponent [e]. *)
Definition shift_of (q e : Z) : Z :=
  Z.max 0 (Z.max (Zdigits2 q + e - 53) (-1074) - e).

(** The scaled quotient [SFdiv] rounds, and its exponent. *)
Definition div_exp (mx : positive) (ex : Z) (my : positive) (ey : Z) : Z :=
  Z.min (Z.max (Zpos (digits2_pos mx) + ex - (Zpos (digits2_pos my) + ey) - 53) (-1074))
        (ex - ey).

Definition div_quo (mx : positive) (ex : Z) (my : positive) (ey : Z) : Z :=
  Zpos mx * 2 ^ (ex - ey - div_exp mx ex my ey) / Zpos my.

(** 100 as a binary64 number. *)
Definition f100 : spec_float := S754_finite false 7036874417766400 (-46).

(** ** The byte counts of a payload *)

(** The hook's variables [total] and [downloaded] (lines 63-64). *)
Definition total_of (d : gmap str value) : value :=
  py_or (py_or (dict_get d "total_bytes") (dict_get d "total_bytes_estimate")) (VInt 0).

Definition downloaded_of (d : gmap str value) : value :=
  py_or (dict_get d "downloaded_bytes") (VInt 0).

(** Byte counts that are numbers, [int] or [float], with
    [0 <= downloaded <= total]. *)
Definition counts_in_order (d : gmap str value) : Prop :=
  exists X T,
    as_number (downloaded_of d) = Some X /\ as_number (total_of d) = Some T
    /\ num_valid X /\ num_valid T
    /\ (0 <= num_val X <= num_val T)%R.

(** A format selector of the engine is a list of alternatives separated by
    [/]; an alternative that joins two selectors with [+] asks for separate
    streams to be merged, and [bestvideo]/[bestaudio] name video-only and
    audio-only streams. *)
Fixpoint split_on (c : N) (s : str) : list str :=
  match s with
  | [] => [[]]
  | a :: s' =>
      if (a =? c)%N then [] :: split_on c s'
      else match split_on c s' with
           | w :: ws => (a :: w) :: ws
           | [] => [[a]]
           end
  end.

Definition alternatives (fmt : str) : list str := split_on 47%N fmt.

Definition asks_merge (alt : str) : bool := existsb (N.eqb 43) alt.

Definition single_stream (alt : str) : bool :=
  startswith (lit "best") alt
  && negb (startswith (lit "bestvideo") alt)
  && negb (startswith (lit "bestaudio") alt)
  && negb (asks_merge alt).

(** A field that is missing, [None] or zero: [d.get] gives [None] for a
    missing key. *)
Definition unknown (v : value) : Prop := v = VNone \/ v = VInt 0.

(** A payload's nested metadata can be read when it is a dict or is
    replaced by the empty dict of line 68: absent, [None], or another value
    that counts as false. *)
Definition info_usable (d : gmap str value) : Prop :=
  truthy (dict_get d "info_dict") = false
  \/ exists info, dict_get d "info_dict" = VDict info.

(** An [int] whose decimal text [str] produces; a [bool] prints as [True]
    or [False]. *)
Definition digits_ok (v : value) : bool :=
  match v with
  | VInt n => Z.abs n <? 10 ^ max_str_digits
  | _ => true
  end.

(** Where lines 72 and 85 find a marker to print, its two numbers can be
    printed. *)
Definition marker_renders (d : gmap str value) : Prop :=
  forall info,
    dict_get d "info_dict" = VDict info ->
    isinstance_int (dict_get info "playlist_index") = true ->
    isinstance_int (dict_get info "playlist_count") = true ->
    int_gt0 (dict_get info "playlist_count") = true ->
    digits_ok (dict_get info "playlist_index") = true
    /\ digits_ok (dict_get info "playlist_count") = true.

(** ** Sample objects *)

Definition rt0 : runtime := {|
  float_repr := fun _ => lit "<float>";
  dict_repr := fun _ => Ok (lit "<dict>");
  decode_ignore := fun b => b
|}.

Definition payload (fields : list (string * value)) : gmap str value :=
  list_to_map (map (fun kv => (lit (fst kv), snd kv)) fields).

Definition worker0 : DownloadWorker.t := {|
  DownloadWorker.url := lit "https://example.org/v";
  DownloadWorker.output_dir := lit "/tmp";
  DownloadWorker.ffmpeg_available := false
|}.

(** An engine whose [download] ends by raising [e] without calling back. *)
Definition engine_raising (e : exn) : engine :=
  fun _ => inr {| download := fun _ => Raises e; exit_raises := None |}.

(** An engine that reports two payloads and one warning, then returns. *)
Definition engine_ok (d1 d2 : gmap str value) : engine :=
  fun _ => inr {| download := fun _ =>
                    CallHooks d1 (fun _ =>
                    CallWarning (MsgStr (lit "slow"))
                   (CallHooks d2 (fun _ => Returns)));
                  exit_raises := None |}.

Definition window0 : MainWindow.t := {|
  MainWindow.url_edit := lit "  https://example.org/v ";
  MainWindow.path_edit := lit "/tmp";
  MainWindow.start_btn_enabled := true;
  MainWindow.progress_value := 37;
  MainWindow.status_label := [];
  MainWindow.log_view := [lit "old line"];
  MainWindow.thread := None;
  MainWindow.worker := None;
  MainWindow.ffmpeg_available := false;
  MainWindow.dialogs := []
|}.

Definition isdir0 (p : str) : bool := bool_decide (p = lit "/tmp").

(** A payload without playlist metadata. *)
Definition no_playlist_meta (d : gmap str value) : Prop :=
  dict_get d "info_dict" = VNone \/
  exists info, dict_get d "info_dict" = VDict info
               /\ dict_get info "playlist_index" = VNone
               /\ dict_get info "playlist_count" = VNone.

(** 1024 as a binary64 number. *)
Definition f1024 : spec_float := S754_finite false 4503599627370496 (-42).

(** ** Sample payloads, exceptions and windows *)

Definition d_half : gmap str value :=
  payload [("status", VStr (lit "downloading"));
           ("downloaded_bytes", VInt 500);
           ("total_bytes", VInt 1000)]%string.

Definition d_huge : gmap str value :=
  payload [("status", VStr (lit "downloading"));
           ("downloaded_bytes", VInt 499999999999999999);
           ("total_bytes", VInt 1000000000000000000)]%string.

Definition d_negative : gmap str value :=
  payload [("status", VStr (lit "downloading"));
           ("downloaded_bytes", VInt (-1));
           ("total_bytes", VInt 3)]%string.

(** The estimate is the binary64 number nearest to 100/3. *)
Definition d_float_estimate : gmap str value :=
  payload [("status", VStr (lit "downloading"));
           ("downloaded_bytes", VInt 1);
           ("total_bytes_estimate", VFloat (S754_finite false 4691249611844267 (-47)))]%string.

Definition d_over : gmap str value :=
  payload [("status", VStr (lit "downloading"));
           ("downloaded_bytes", VInt 2000);
           ("total_bytes_estimate", VInt 1000)]%string.

Definition d_playlist : gmap str value :=
  payload [("status", VStr (lit "downloading"));
           ("downloaded_bytes", VInt 10);
           ("total_bytes", VInt 40);
           ("speed", VInt 204800);
           ("eta", VInt 7);
           ("info_dict", VDict (payload [("playlist_index", VInt 2);
                                         ("playlist_count", VInt 5)]))]%string.

Definition d_finished : gmap str value :=
  payload [("status", VStr (lit "finished"));
           ("info_dict", VDict (payload [("playlist_index", VInt 2);
                                         ("playlist_count", VInt 5)]))]%string.

(** The speed is 2^20 bytes per second. *)
Definition d_no_total : gmap str value :=
  payload [("status", VStr (lit "downloading"));
           ("total_bytes", VNone);
           ("speed", VFloat (S754_finite false 4503599627370496 (-32)))]%string.

Definition d_nan : gmap str value :=
  payload [("status", VStr (lit "downloading"));
           ("downloaded_bytes", VInt 1);
           ("total_bytes_estimate", VFloat S754_nan)]%string.


(** A count whose percentage does not fit the signal's C [int]. *)
Definition d_wrap : gmap str value :=
  payload [("status", VStr (lit "downloading"));
           ("downloaded_bytes", VInt 21474837);
           ("total_bytes", VInt 1)]%string.

(** One byte more than the total. *)
Definition d_just_over : gmap str value :=
  payload [("status", VStr (lit "downloading"));
           ("downloaded_bytes", VInt 1001);
           ("total_bytes", VInt 1000)]%string.

(** 512 bytes of a total that is the float 1024.0. *)
Definition d_float_total : gmap str value :=
  payload [("status", VStr (lit "downloading"));
           ("downloaded_bytes", VInt 512);
           ("total_bytes", VFloat f1024)]%string.

(** A finished payload whose playlist index has 4301 digits. *)
Definition d_finished_long : gmap str value :=
  payload [("status", VStr (lit "finished"));
           ("info_dict", VDict (payload [("playlist_index", VInt (10 ^ 4300));
                                         ("playlist_count", VInt 5)]))]%string.

Definition exn_exit : exn := {| exn_class := SystemExit; exn_str := lit "1" |}.

Definition exn_interrupt : exn := {| exn_class := KeyboardInterrupt; exn_str := [] |}.

Definition exn_download : exn :=
  {| exn_class := OtherException (lit "DownloadError");
     exn_str := lit "Video unavailable" |}.

Definition window_bad_dir : MainWindow.t := {|
  MainWindow.url_edit := lit "https://example.org/v";
  MainWindow.path_edit := lit "/nonexistent";
  MainWindow.start_btn_enabled := true;
  MainWindow.progress_value := 0;
  MainWindow.status_label := [];
  MainWindow.log_view := [];
  MainWindow.thread := None;
  MainWindow.worker := None;
  MainWindow.ffmpeg_available := true;
  MainWindow.dialogs := []
|}.

(** ** Vocabulary of the further properties *)

(** Texts joined by single spaces. *)
Fixpoint join_space (parts : list str) : str :=
  match parts with
  | [] => []
  | p :: rest =>
      match rest with
      | [] => p
      | _ :: _ => p ++ 32%N :: join_space rest
      end
  end.

(** The window after the slots ran for each signal of [tr], in emission
    order. *)
Definition window_after (w : MainWindow.t) (tr : list signal) : MainWindow.t :=
  fold_left MainWindow.deliver tr w.

(** The texts of the [log] signals of a trace, in order. *)
Definition log_lines (tr : list signal) : list str :=
  flat_map (fun s => match s with log text => [text] | _ => [] end) tr.

(** The last [progress] signal of a trace. *)
Definition last_progress (tr : list signal) : option (Z * str) :=
  fold_left (fun acc s => match s with progress p a => Some (p, a) | _ => acc end)
            tr None.

(** The line the window appends to the log for a terminal signal. *)
Definition final_line (s : signal) : str :=
  match s with
  | error m => s_error_tag ++ m
  | _ => s_done
  end.

(** The status text the window shows for a terminal signal. *)
Definition final_status (s : signal) : str :=
  match s with
  | error _ => s_error
  | _ => s_done
  end.

(** The start button is enabled exactly when no thread is held, and thread
    and worker are held together. *)
Definition consistent (w : MainWindow.t) : Prop :=
  (MainWindow.start_btn_enabled w = true <-> MainWindow.thread w = None)
  /\ (MainWindow.thread w = None <-> MainWindow.worker w = None).

(** The three checks of [on_start] on the trimmed fields. *)
Definition valid_input (isdir : str -> bool) (w : MainWindow.t) : Prop :=
  strip (MainWindow.url_edit w) <> []
  /\ strip (MainWindow.path_edit w) <> []
  /\ isdir (strip (MainWindow.path_edit w)) = true.

(** The parts of an annotation as they are displayed. *)
Definition marker_text (i c : Z) : str :=
  lit "[" ++ decimal i ++ lit "/" ++ decimal c ++ lit "]".

Definition speed_text (n : Z) : str := decimal n ++ lit " KB/s".

Definition eta_text (s_eta : str) : str := lit "ETA " ++ s_eta ++ lit "s".

(** A text that begins and ends with a character that is not white space. *)
Definition solid (s : str) : bool :=
  match head s, last s with
  | Some c, Some c' => negb (isspace c) && negb (isspace c')
  | _, _ => false
  end.

(** The classes of the errors the progress hook can end with. *)
Definition hook_error (c : exc_class) : bool :=
  match c with
  | TypeError | AttributeError | OverflowError | ValueError => true
  | _ => false
  end.

(** The playlist marker of a payload: [Some (i, c)] for an integer index and
    a positive integer count, both of a length [str] accepts, [None] without
    playlist metadata. *)
Definition has_marker (d : gmap str value) (meta : option (Z * Z)) : Prop :=
  match meta with
  | Some (i, c) =>
      exists info, dict_get d "info_dict" = VDict info
                   /\ dict_get info "playlist_index" = VInt i
                   /\ dict_get info "playlist_count" = VInt c
                   /\ 0 < c
                   /\ Z.abs i < 10 ^ max_str_digits
                   /\ c < 10 ^ max_str_digits
  | None => no_playlist_meta d
  end.

(** The displayed ETA of a payload: [Some s] when [eta] is not [None] and
    [str(eta)] is [s], [None] when [eta] is missing or [None]. *)
Definition has_eta (rt : runtime) (d : gmap str value) (eta : option str) : Prop :=
  match eta with
  | Some s => is_not_None (dict_get d "eta") = true
              /\ py_str rt (dict_get d "eta") = Ok s
  | None => dict_get d "eta" = VNone
  end.

(** The displayed speed of a payload: [Some n] when [speed] is set and
    [int(speed / 1024)] is [n], [None] when [speed] is missing or zero. *)
Definition has_speed (d : gmap str value) (kb : option Z) : Prop :=
  match kb with
  | Some n => truthy (dict_get d "speed") = true
              /\ py_truediv (dict_get d "speed") (VInt 1024) ≫= int_of_float = Ok n
  | None => truthy (dict_get d "speed") = false
  end.

Definition marker_part (meta : option (Z * Z)) : list str :=
  match meta with
  | Some (i, c) => [marker_text i c]
  | None => []
  end.

Definition speed_part (kb : option Z) : list str :=
  match kb with
  | Some n => [speed_text n]
  | None => []
  end.

Definition eta_part (eta : option str) : list str :=
  match eta with
  | Some s => [eta_text s]
  | None => []
  end.

(** A [progress] signal whose annotation has no white space at either
    end; the other signals carry no annotation. *)
Definition annotation_trimmed (s : signal) : Prop :=
  match s with
  | progress _ a => strip a = a
  | _ => True
  end.

Definition worker_ffmpeg : DownloadWorker.t := {|
  DownloadWorker.url := lit "https://example.org/v";
  DownloadWorker.output_dir := lit "/tmp";
  DownloadWorker.ffmpeg_available := true
|}.

(** A payload with an integer speed of 1500 bytes per second. *)
Definition d_slow : gmap str value :=
  payload [("status", VStr (lit "downloading"));
           ("speed", VInt 1500)]%string.

(** An engine whose download succeeds but whose context raises on exit. *)
Definition engine_exit_raising (e : exn) : engine :=
  fun _ => inr {| download := fun _ => Returns; exit_raises := Some e |}.

(** An engine whose constructor refuses the options it is handed, with a
    message that reports what [obs] reads in them. *)
Definition engine_probe (obs : ydl_opts -> str) : engine :=
  fun opts => inl {| exn_class := OtherException (lit "ProbeError");
                     exn_str := obs opts |}.

(** The worker [on_start] constructs from the window's fields. *)
Definition job_of (w : MainWindow.t) : DownloadWorker.t := {|
  DownloadWorker.url := strip (MainWindow.url_edit w);
  DownloadWorker.output_dir := strip (MainWindow.path_edit w);
  DownloadWorker.ffmpeg_available := MainWindow.ffmpeg_available w
|}.

(** The value of the progress bar after the signals of [tr], from the
    value [v]: the percentage of the last [progress] signal whose C [int]
    lies in the bar's range 0..100, or [v] when there is none. *)
Definition bar_after (v : Z) (tr : list signal) : Z :=
  fold_left (fun acc s =>
               match s with
               | progress p _ =>
                   if (0 <=? c_int p) && (c_int p <=? 100) then c_int p else acc
               | _ => acc
               end) tr v.

(** The status text after the signals of [tr], none of them terminal, from
    the text [l]: that of the last [progress] signal, or [l] when there is
    none. *)
Definition status_after (l : str) (tr : list signal) : str :=
  match last_progress tr with
  | Some (p, a) =>
      s_progress_tag ++ decimal (c_int p) ++ lit "%"
        ++ (if bool_decide (a = []) then [] else lit " - " ++ a)
  | None => l
  end.


Definition window_blank : MainWindow.t := {|
  MainWindow.url_edit := lit "   ";
  MainWindow.path_edit := lit "/nonexistent";
  MainWindow.start_btn_enabled := true;
  MainWindow.progress_value := 0;
  MainWindow.status_label := [];
  MainWindow.log_view := [];
  MainWindow.thread := None;
  MainWindow.worker := None;
  MainWindow.ffmpeg_available := true;
  MainWindow.dialogs := []
|}.

(** The keys of a payload the progress hook reads. *)
Definition hook_keys : list string :=
  ["status"; "downloaded_bytes"; "total_bytes"; "total_bytes_estimate";
   "info_dict"; "speed"; "eta"]%string.

(** The two texts of the ffmpeg label, as code points:
    "ffmpeg 감지됨: mp4 병합 사용" and the "ffmpeg 미감지: 단일 스트림으로
    저장됨" text with its download link. *)
Definition s_ffmpeg_detected : str :=
  [102; 102; 109; 112; 101; 103; 32; 44048; 51648; 46120; 58; 32; 109; 112;
   52; 32; 48337; 54633; 32; 49324; 50857]%N.

Definition s_ffmpeg_missing : str :=
  [102; 102; 109; 112; 101; 103; 32; 48120; 44048; 51648; 58; 32; 45800;
   51068; 32; 49828; 53944; 47548; 51004; 47196; 32; 51200; 51109; 46120;
   32; 40; 49444; 52824; 32; 50504; 45236; 58; 32; 60; 97; 32; 104; 114;
   101; 102; 61; 34; 104; 116; 116; 112; 115; 58; 47; 47; 119; 119; 119;
   46; 103; 121; 97; 110; 46; 100; 101; 118; 47; 102; 102; 109; 112; 101;
   103; 47; 98; 117; 105; 108; 100; 115; 47; 34; 62; 87; 105; 110; 100;
   111; 119; 115; 32; 70; 70; 109; 112; 101; 103; 32; 45796; 50868; 47196;
   46300; 60; 47; 97; 62; 41]%N.

(** [_build_ui], lines 228-233: the text of the ffmpeg label for the flag
    [__init__] computed from [shutil.which]. *)
Definition ffmpeg_label (available : bool) : str :=
  if available then s_ffmpeg_detected else s_ffmpeg_missing.

(** * Proofs *)

(** ** binary64 division of integers *)

Lemma digits2_pos_bounds (p : positive) :
  2 ^ (Zpos (digits2_pos p) - 1) <= Zpos p < 2 ^ Zpos (digits2_pos p).
Proof.
  induction p as [p IH | p IH |]; simpl digits2_pos.
  - rewrite Pos2Z.inj_succ.
    replace (Z.succ (Zpos (digits2_pos p)) - 1) with (Z.succ (Zpos (digits2_pos p) - 1)) by lia.
    rewrite !Z.pow_succ_r by lia. lia.
  - rewrite Pos2Z.inj_succ.
    replace (Z.succ (Zpos (digits2_pos p)) - 1) with (Z.succ (Zpos (digits2_pos p) - 1)) by lia.
    rewrite !Z.pow_succ_r by lia. lia.
  - simpl. lia.
Qed.

Lemma Zdigits2_unique (m k : Z) :
  0 < k -> 2 ^ (k - 1) <= m < 2 ^ k -> Zdigits2 m = k.
Proof.
  intros Hk [Hlo Hhi].
  assert (0 < m) by (pose proof (Z.pow_pos_nonneg 2 (k - 1)); lia).
  destruct m as [|p|p]; try lia. simpl.
  pose proof (digits2_pos_bounds p) as [Hl Hh].
  set (d := Zpos (digits2_pos p)) in *.
  assert (0 < d) by (unfold d; lia).
  destruct (Z.lt_trichotomy d k) as [Hlt | [Heq | Hgt]]; [|exact Heq|].
  - assert (2 ^ d <= 2 ^ (k - 1)) by (apply Z.pow_le_mono_r; lia). lia.
  - assert (2 ^ k <= 2 ^ (d - 1)) by (apply Z.pow_le_mono_r; lia). lia.
Qed.

Lemma fexp_eq e : fexp prec emax e = Z.max (e - 53) (-1074).
Proof. reflexivity. Qed.

Lemma Zdigits2_le53 q : 0 <= q < 2 ^ 53 -> Zdigits2 q <= 53.
Proof.
  intros [H0 H1]. destruct q as [|p|p]; simpl; try lia.
  pose proof (digits2_pos_bounds p) as [Hl _].
  destruct (Z_le_gt_dec (Zpos (digits2_pos p)) 53) as [|Hgt]; [assumption|].
  assert (2 ^ 53 <= 2 ^ (Zpos (digits2_pos p) - 1)) by (apply Z.pow_le_mono_r; lia).
  lia.
Qed.

(** No shift is needed for a mantissa below 2^53 that is normal or sits at the
    least exponent. *)
Lemma shr_fexp_small q e l :
  0 <= q < 2 ^ 53 -> -1074 <= e -> (2 ^ 52 <= q \/ e = -1074) ->
  shr_fexp prec emax q e l = (shr_record_of_loc q l, e).
Proof.
  intros Hq He Hn. unfold shr_fexp. rewrite fexp_eq.
  assert (Hz : Z.max (Zdigits2 q + e - 53) (-1074) - e <= 0).
  { destruct Hn as [Hn | ->].
    - rewrite (Zdigits2_unique q 53); [lia | lia | simpl; lia].
    - pose proof (Zdigits2_le53 q Hq). lia. }
  unfold shr. destruct (Z.max (Zdigits2 q + e - 53) (-1074) - e); try reflexivity; lia.
Qed.

Lemma shr_fexp_big q e l :
  2 ^ 53 <= q < 2 ^ 54 -> -1074 <= e ->
  shr_fexp prec emax q e l = (shr_1 (shr_record_of_loc q l), e + 1).
Proof.
  intros Hq He. unfold shr_fexp. rewrite fexp_eq.
  rewrite (Zdigits2_unique q 54); [| lia | simpl; lia].
  replace (Z.max (54 + e - 53) (-1074) - e) with 1 by lia.
  reflexivity.
Qed.

Lemma shr_m_of_loc q l : shr_m (shr_record_of_loc q l) = q.
Proof. destruct l as [|[]]; reflexivity. Qed.

Lemma loc_of_loc q l : loc_of_shr_record (shr_record_of_loc q l) = l.
Proof. destruct l as [|[]]; reflexivity. Qed.

Lemma round_nearest_even_cases m l :
  round_nearest_even m l = m \/
  (round_nearest_even m l = m + 1 /\ (l = loc_Inexact Eq \/ l = loc_Inexact Gt)).
Proof. destruct l as [|[]]; simpl; auto. destruct (Z.even m); auto. Qed.

(** One shift of a positive mantissa halves it; the result can round up only
    when the mantissa was odd. *)
Lemma shr_1_round q l :
  0 < q ->
  let mrs := shr_1 (shr_record_of_loc q l) in
  shr_m mrs = q / 2 /\
  (round_nearest_even (shr_m mrs) (loc_of_shr_record mrs) = q / 2 \/
   (round_nearest_even (shr_m mrs) (loc_of_shr_record mrs) = q / 2 + 1 /\ q = 2 * (q / 2) + 1)).
Proof.
  intros Hq. destruct q as [|p|p]; try lia.
  destruct p as [p|p|].
  - assert (E : Zpos p~1 / 2 = Zpos p).
    { change (Zpos p~1) with (2 * Zpos p + 1). symmetry. apply Z.div_unique with 1; lia. }
    rewrite E. destruct l as [|[]]; simpl; (split; [reflexivity|]);
      try (right; split; [reflexivity | lia]);
      destruct (Z.even (Zpos p)) eqn:Ev; rewrite ?Ev; auto;
      try (right; split; [reflexivity | lia]).
    all: simpl in Ev; rewrite ?Ev; auto; right; split; (reflexivity || lia).
  - assert (E : Zpos p~0 / 2 = Zpos p).
    { change (Zpos p~0) with (2 * Zpos p). symmetry. apply Z.div_unique with 0; lia. }
    rewrite E. destruct l as [|[]]; simpl; auto.
  - destruct l as [|[]]; simpl; (split; [reflexivity|]); auto.
    all: right; split; reflexivity.
Qed.

Lemma cond_Zopp_0 s : cond_Zopp s 0 = 0.
Proof. destruct s; reflexivity. Qed.

(** Renormalising a rounded mantissa of at most 2^53 keeps its value. *)
Lemma renorm_int sx m2 e1 :
  0 <= m2 <= 2 ^ 53 -> -1074 <= e1 <= 970 -> (2 ^ 52 <= m2 \/ e1 = -1074) ->
  (forall s, renorm sx m2 e1 <> S754_infinity s) /\
  int_of_float (renorm sx m2 e1) = Ok (cond_Zopp sx (Z.shiftl m2 e1)).
Proof.
  intros Hm He Hn. unfold renorm.
  destruct (Z.eq_dec m2 (2 ^ 53)) as [-> | Hne].
  - rewrite shr_fexp_big by (simpl; lia). simpl shr_m.
    replace (e1 + 1 <=? emax - prec) with true
      by (symmetry; apply Z.leb_le; unfold emax, prec; lia).
    split; [discriminate|]. simpl int_of_float. f_equal. f_equal.
    change (2 ^ 53) with (Z.shiftl 4503599627370496 1).
    rewrite Z.shiftl_shiftl by lia. f_equal. lia.
  - rewrite shr_fexp_small by lia. simpl shr_m.
    destruct m2 as [|m|m]; try lia.
    + split; [discriminate|]. simpl. rewrite Z.shiftl_0_l, cond_Zopp_0. reflexivity.
    + replace (e1 <=? emax - prec) with true
        by (symmetry; apply Z.leb_le; unfold emax, prec; lia).
      split; [discriminate | reflexivity].
Qed.

Lemma binary_round_aux_renorm sx q e l :
  binary_round_aux prec emax sx q e l =
  let '(mrs, e1) := shr_fexp prec emax q e l in
  renorm sx (round_nearest_even (shr_m mrs) (loc_of_shr_record mrs)) e1.
Proof. unfold binary_round_aux, renorm. destruct (shr_fexp prec emax q e l). reflexivity. Qed.

(** Rounding a quotient [N / D] whose integer part [q] has at most 54 bits:
    the result is finite, and truncating it gives the rounded mantissa
    shifted by the final exponent.  The mantissa is the integer part of
    [N / (2^n * D)], or one more when at least half a unit was dropped. *)
Lemma binary_round_aux_int sx q e l N D :
  0 < D -> q * D <= N < (q + 1) * D ->
  (l = loc_Inexact Eq \/ l = loc_Inexact Gt -> (2 * q + 1) * D <= 2 * N) ->
  0 <= q < 2 ^ 54 -> -1074 <= e <= 969 ->
  (2 ^ 52 <= q \/ (q < 2 ^ 53 /\ e = -1074)) ->
  exists n m2,
    (n = 0 \/ n = 1 /\ 2 ^ 53 <= q) /\
    (m2 = N / (2 ^ n * D) \/
     (m2 = N / (2 ^ n * D) + 1 /\ (2 * (N / (2 ^ n * D)) + 1) * (2 ^ n * D) <= 2 * N)) /\
    (2 ^ 52 <= N / (2 ^ n * D) < 2 ^ 53 \/ (N / (2 ^ n * D) < 2 ^ 53 /\ e + n = -1074)) /\
    (forall s, binary_round_aux prec emax sx q e l <> S754_infinity s) /\
    int_of_float (binary_round_aux prec emax sx q e l)
    = Ok (cond_Zopp sx (Z.shiftl m2 (e + n))).
Proof.
  intros HD HN Hl Hq He Hn.
  assert (Equo : N / D = q) by (symmetry; apply Z.div_unique with (N - q * D); lia).
  rewrite binary_round_aux_renorm.
  destruct (Z_lt_ge_dec q (2 ^ 53)) as [Hlt | Hge].
  - rewrite shr_fexp_small by lia.
    rewrite shr_m_of_loc, loc_of_loc.
    exists 0, (round_nearest_even q l).
    change (2 ^ 0 * D) with (1 * D). rewrite Z.mul_1_l, Equo, Z.add_0_r.
    split; [auto|].
    split; [destruct (round_nearest_even_cases q l) as [-> | [-> Hc]]; auto|].
    split; [destruct Hn as [Hn | [Hn1 Hn2]]; [left | right]; lia|].
    pose proof (round_nearest_even_cases q l) as Hc.
    apply renorm_int; [| lia | destruct Hn as [Hn | [Hn1 Hn2]]; [left | right; lia]].
    all: destruct Hc as [-> | [-> _]]; lia.
  - rewrite shr_fexp_big by lia.
    assert (Eh : N / (2 ^ 1 * D) = q / 2).
    { change (2 ^ 1) with 2. rewrite (Z.mul_comm 2 D), <- Z.div_div by lia. now rewrite Equo. }
    pose proof (shr_1_round q l ltac:(lia)) as [Em Hr]. cbv zeta in Em, Hr.
    exists 1, (round_nearest_even (shr_m (shr_1 (shr_record_of_loc q l)))
                 (loc_of_shr_record (shr_1 (shr_record_of_loc q l)))).
    rewrite Eh.
    assert (Hh : 2 ^ 52 <= q / 2 < 2 ^ 53).
    { split; [apply Z.div_le_lower_bound | apply Z.div_lt_upper_bound]; lia. }
    split; [right; split; [reflexivity | lia]|].
    split.
    { destruct Hr as [-> | [-> Hodd]]; [left; reflexivity | right; split; [reflexivity|]].
      change (2 ^ 1) with 2. nia. }
    split; [left; exact Hh|].
    apply renorm_int; [| lia | lia].
    destruct Hr as [-> | [-> _]]; lia.
Qed.

Lemma new_location_half b r :
  0 <= r < b ->
  (new_location b r = loc_Inexact Eq \/ new_location b r = loc_Inexact Gt) ->
  b <= 2 * r.
Proof.
  intros Hr. unfold new_location, new_location_even, new_location_odd.
  destruct (Z.even b) eqn:Eb; destruct (r =? 0) eqn:Er.
  - intros [H | H]; discriminate.
  - destruct (Z.compare_spec (2 * r) b); intros [E | E]; try discriminate; lia.
  - intros [H | H]; discriminate.
  - destruct (Z.compare_spec (2 * r + 1) b); intros [E | E]; try discriminate; lia.
Qed.

Lemma shifted_mantissa m s :
  0 <= s ->
  match s with
  | Zpos _ => Z.shiftl m s
  | 0 => m
  | Zneg _ => 0
  end = m * 2 ^ s.
Proof.
  intros Hs. destruct s as [|p|p].
  - change (2 ^ 0) with 1. lia.
  - apply Z.shiftl_mul_pow2. lia.
  - lia.
Qed.

(** The binary64 quotient of two integers [a], [b] with [a < 2^53 * b], seen
    through [int]: at some scale [T] it is the integer part of [a * T / b],
    or one more when the remainder is at least half of [b]. *)
Lemma SFdiv_int (sx sy : bool) (a b : positive) :
  Zpos a < 2 ^ 53 * Zpos b ->
  exists T m2,
    0 < T /\
    (m2 = Zpos a * T / Zpos b \/
     (m2 = Zpos a * T / Zpos b + 1 /\
      (2 * (Zpos a * T / Zpos b) + 1) * Zpos b <= 2 * (Zpos a * T))) /\
    Zpos a * T / Zpos b < 2 ^ 53 /\
    (2 ^ 52 <= Zpos a * T / Zpos b \/ 2 ^ 53 < T) /\
    (forall s, SFdiv prec emax (S754_finite sx a 0) (S754_finite sy b 0) <> S754_infinity s) /\
    int_of_float (SFdiv prec emax (S754_finite sx a 0) (S754_finite sy b 0))
    = Ok (cond_Zopp (xorb sx sy) (m2 / T)).
Proof.
  intros Hab.
  pose proof (digits2_pos_bounds a) as [Ha1 Ha2].
  pose proof (digits2_pos_bounds b) as [Hb1 Hb2].
  unfold SFdiv, SFdiv_core_binary. simpl Zdigits2.
  set (d1 := Zpos (digits2_pos a)) in *. set (d2 := Zpos (digits2_pos b)) in *.
  assert (Hd1 : 0 < d1) by (unfold d1; lia).
  assert (Hd2 : 0 < d2) by (unfold d2; lia).
  assert (Hd : d1 <= d2 + 53).
  { destruct (Z_le_gt_dec d1 (d2 + 53)) as [|Hgt]; [assumption|].
    assert (2 ^ (53 + d2) <= 2 ^ (d1 - 1)) by (apply Z.pow_le_mono_r; lia).
    rewrite Z.pow_add_r in H by lia. nia. }
  rewrite fexp_eq.
  replace (d1 + 0 - (d2 + 0)) with (d1 - d2) by lia.
  set (e := Z.min (Z.max (d1 - d2 - 53) (-1074)) (0 - 0)).
  assert (He : e = Z.max (d1 - d2 - 53) (-1074)) by (unfold e; lia).
  assert (Hs : 0 <= 0 - 0 - e) by lia.
  rewrite (shifted_mantissa (Zpos a) (0 - 0 - e) Hs).
  set (s := 0 - 0 - e) in *.
  assert (HS : 0 < 2 ^ s) by (apply Z.pow_pos_nonneg; lia).
  pose proof (Z_div_mod (Zpos a * 2 ^ s) (Zpos b) ltac:(lia)) as Hdm.
  destruct (Z.div_eucl (Zpos a * 2 ^ s) (Zpos b)) as [q r] eqn:Edm.
  destruct Hdm as [Hdm Hr].
  assert (Equo : Zpos a * 2 ^ s / Zpos b = q).
  { symmetry. apply Z.div_unique with r; lia. }
  assert (Hq0 : 0 <= q) by (rewrite <- Equo; apply Z.div_pos; lia).
  assert (Hqb : q < 2 ^ 54 /\ (2 ^ 52 <= q \/ (q < 2 ^ 53 /\ e = -1074))).
  { destruct (Z_le_gt_dec (-1074) (d1 - d2 - 53)) as [Hn | Ht].
    - assert (Es : s = 53 + d2 - d1) by lia.
      assert (Ep : 2 ^ s * 2 ^ d1 = 2 ^ 53 * 2 ^ d2).
      { rewrite <- !Z.pow_add_r by lia. f_equal. lia. }
      replace (2 ^ d1) with (2 * 2 ^ (d1 - 1)) in *
        by (rewrite <- Z.pow_succ_r by lia; f_equal; lia).
      replace (2 ^ d2) with (2 * 2 ^ (d2 - 1)) in *
        by (rewrite <- Z.pow_succ_r by lia; f_equal; lia).
      rewrite <- Equo. split; [apply Z.div_lt_upper_bound; [lia | nia]|].
      left. apply Z.div_le_lower_bound; [lia | nia].
    - assert (Es : s = 1074) by lia.
      assert (Ep : 2 ^ d1 * 2 ^ s <= 2 ^ (d2 - 1) * 2 ^ 53).
      { rewrite <- !Z.pow_add_r by lia. apply Z.pow_le_mono_r; lia. }
      assert (q < 2 ^ 53) by (rewrite <- Equo; apply Z.div_lt_upper_bound; [lia | nia]).
      split; [lia | right; split; [assumption | lia]]. }
  destruct Hqb as [Hq54 Hqn].
  destruct (binary_round_aux_int (xorb sx sy) q e (new_location (Zpos b) r)
              (Zpos a * 2 ^ s) (Zpos b)) as (n & m2 & Hn & Hm2 & Hm1 & Hinf & Hint);
    [lia | nia | | lia | lia | exact Hqn |].
  { intros Hl. pose proof (new_location_half (Zpos b) r Hr Hl). nia. }
  assert (Hsn : 0 <= s - n).
  { destruct Hn as [-> | [-> Hq53]]; [lia|].
    destruct (Z.eq_dec s 0) as [Hs0 | ]; [|lia].
    rewrite Hs0 in Equo. change (2 ^ 0) with 1 in Equo. rewrite Z.mul_1_r in Equo.
    assert (Zpos a / Zpos b < 2 ^ 53) by (apply Z.div_lt_upper_bound; lia). lia. }
  assert (Hn0 : 0 <= n) by (destruct Hn as [-> | [-> _]]; lia).
  assert (ET : Zpos a * 2 ^ s / (2 ^ n * Zpos b) = Zpos a * 2 ^ (s - n) / Zpos b).
  { replace s with (n + (s - n)) at 1 by lia. rewrite Z.pow_add_r by lia.
    replace (Zpos a * (2 ^ n * 2 ^ (s - n))) with (2 ^ n * (Zpos a * 2 ^ (s - n))) by ring.
    apply Z.div_mul_cancel_l; [lia|]. apply Z.pow_nonzero; lia. }
  rewrite ET in Hm2, Hm1.
  exists (2 ^ (s - n)), m2.
  split; [apply Z.pow_pos_nonneg; lia|].
  split.
  { destruct Hm2 as [Hm2 | [Hm2 Hh]]; [left; exact Hm2 | right; split; [exact Hm2|]].
    replace s with (n + (s - n)) in Hh at 2 by lia. rewrite Z.pow_add_r in Hh by lia.
    assert (0 < 2 ^ n) by (apply Z.pow_pos_nonneg; lia). nia. }
  split; [destruct Hm1 as [Hm1 | [Hm1 _]]; lia|].
  split.
  { destruct Hm1 as [Hm1 | [_ Hm1]]; [left; lia | right].
    replace (s - n) with 1074 by lia. reflexivity. }
  split; [exact Hinf|].
  rewrite Hint. f_equal. f_equal.
  rewrite Z.shiftl_div_pow2 by lia. f_equal. f_equal. lia.
Qed.

(** Rounding to nearest cannot reach the next integer when the dividend is
    below 2^53 - 1. *)
Lemma rounded_quotient_floor a b T m2 :
  0 < a < 2 ^ 53 - 1 -> 0 < b -> 0 < T ->
  (m2 = a * T / b \/ (m2 = a * T / b + 1 /\ (2 * (a * T / b) + 1) * b <= 2 * (a * T))) ->
  a * T / b < 2 ^ 53 ->
  (2 ^ 52 <= a * T / b \/ 2 ^ 53 < T) ->
  m2 / T = a / b.
Proof.
  intros Ha Hb HT Hm2 Hlt Hn.
  set (m1 := a * T / b) in *.
  assert (E1 : m1 / T = a / b).
  { unfold m1. rewrite (Z.mul_comm a T).
    rewrite Z.div_div by lia. rewrite (Z.mul_comm b T).
    apply Z.div_mul_cancel_l; lia. }
  destruct Hm2 as [-> | [-> Hh]]; [exact E1|].
  rewrite <- E1. symmetry.
  pose proof (Z_div_mod_eq_full m1 T) as Em.
  pose proof (Z.mod_pos_bound m1 T HT) as Hr.
  apply Z.div_unique with (m1 mod T + 1); [|lia].
  left. split; [lia|].
  destruct (Z_lt_ge_dec (m1 mod T + 1) T) as [|Hge]; [assumption|exfalso].
  assert (Ek : m1 + 1 = (m1 / T + 1) * T) by lia.
  rewrite E1 in Ek.
  pose proof (Z_div_mod_eq_full a b) as Ea.
  pose proof (Z.mod_pos_bound a b Hb) as Hrb.
  set (k := a / b) in *. set (r := a mod b) in *.
  assert (H0 : 0 <= m1) by (unfold m1; apply Z.div_pos; nia).
  assert (Hk0 : 0 <= k) by (unfold k; apply Z.div_pos; lia).
  destruct Hn as [Hn | Hn]; [|nia].
  assert (Hb2 : 2 * T <= b) by nia.
  assert (2 * m1 + 1 <= a); [|lia].
  nia.
Qed.

(** The rounded quotient does not exceed an integer bound of the exact one. *)
Lemma rounded_quotient_le a b T m2 K :
  0 < a -> 0 < b -> 0 < T -> a <= K * b ->
  (m2 = a * T / b \/ (m2 = a * T / b + 1 /\ (2 * (a * T / b) + 1) * b <= 2 * (a * T))) ->
  0 <= m2 / T <= K.
Proof.
  intros Ha Hb HT HK Hm2.
  set (m1 := a * T / b) in *.
  assert (H0 : 0 <= m1) by (unfold m1; apply Z.div_pos; nia).
  assert (HK0 : 0 < K) by nia.
  assert (Hle : m1 <= K * T).
  { unfold m1. apply Z.div_le_upper_bound; [lia | nia]. }
  assert (Hm : 0 <= m2 <= K * T).
  { destruct Hm2 as [-> | [-> Hh]]; [lia|]. split; [lia|].
    destruct (Z.eq_dec m1 (K * T)) as [E | ]; [|lia]. exfalso. nia. }
  split; [apply Z.div_pos; lia|].
  apply Z.div_le_upper_bound; [lia | nia].
Qed.

Lemma int_truediv_pos (a b : positive) :
  Zpos a < 2 ^ 53 * Zpos b ->
  exists x T m2,
    int_truediv (Zpos a) (Zpos b) = Ok x /\
    int_of_float x = Ok (m2 / T) /\
    0 < T /\
    (m2 = Zpos a * T / Zpos b \/
     (m2 = Zpos a * T / Zpos b + 1 /\
      (2 * (Zpos a * T / Zpos b) + 1) * Zpos b <= 2 * (Zpos a * T))) /\
    Zpos a * T / Zpos b < 2 ^ 53 /\
    (2 ^ 52 <= Zpos a * T / Zpos b \/ 2 ^ 53 < T).
Proof.
  intros Hab.
  destruct (SFdiv_int false false a b Hab) as (T & m2 & HT & Hm2 & Hlt & Hn & Hinf & Hint).
  unfold int_truediv.
  change (Z.pos b =? 0) with false. cbv iota.
  change (Z.pos a <? 0) with false. change (Z.pos b <? 0) with false.
  change (Z.to_pos (Z.abs (Z.pos a))) with a.
  change (Z.to_pos (Z.abs (Z.pos b))) with b.
  exists (SFdiv prec emax (S754_finite false a 0) (S754_finite false b 0)), T, m2.
  split.
  { destruct (SFdiv prec emax (S754_finite false a 0) (S754_finite false b 0)) eqn:E;
      try reflexivity.
    exfalso. eapply Hinf. reflexivity. }
  split; [rewrite Hint; reflexivity|].
  auto.
Qed.

(** [int(a / b)] is the floor of the quotient for a dividend below 2^53 - 1. *)
Lemma int_truediv_floor (a b : Z) :
  0 <= a < 2 ^ 53 - 1 -> 0 < b ->
  int_truediv a b ≫= int_of_float = Ok (a / b).
Proof.
  intros Ha Hb. destruct b as [|b|b]; try lia.
  destruct a as [|a|a]; try lia.
  - reflexivity.
  - destruct (int_truediv_pos a b ltac:(lia)) as (x & T & m2 & -> & Hi & HT & Hm2 & Hlt & Hn).
    simpl. rewrite Hi. f_equal.
    apply rounded_quotient_floor; auto; lia.
Qed.

(** [int(a / b)] stays within an integer bound of the exact quotient. *)
Lemma int_truediv_le (a b K : Z) :
  0 <= a -> 0 < b -> a <= K * b -> K < 2 ^ 53 ->
  exists p, int_truediv a b ≫= int_of_float = Ok p /\ 0 <= p <= K.
Proof.
  intros Ha Hb HK HK53. destruct b as [|b|b]; try lia.
  destruct a as [|a|a]; try lia.
  - exists 0. split; [reflexivity | nia].
  - destruct (int_truediv_pos a b ltac:(nia)) as (x & T & m2 & -> & Hi & HT & Hm2 & Hlt & Hn).
    exists (m2 / T). split; [exact Hi|].
    apply (rounded_quotient_le (Zpos a) (Zpos b) T m2 K); auto; lia.
Qed.

(** [int(a / b)] is defined whenever the quotient is below 2^53 in
    magnitude. *)
Lemma int_truediv_total (a b : Z) :
  b <> 0 -> Z.abs a < 2 ^ 53 * Z.abs b ->
  exists p, int_truediv a b ≫= int_of_float = Ok p.
Proof.
  intros Hb Hab. unfold int_truediv.
  replace (b =? 0) with false by (symmetry; now apply Z.eqb_neq).
  destruct (Z.eq_dec a 0) as [-> | Ha]; [now exists 0|].
  assert (Ea : Zpos (Z.to_pos (Z.abs a)) = Z.abs a) by (apply Z2Pos.id; lia).
  assert (Eb : Zpos (Z.to_pos (Z.abs b)) = Z.abs b) by (apply Z2Pos.id; lia).
  destruct (SFdiv_int (a <? 0) (b <? 0) (Z.to_pos (Z.abs a)) (Z.to_pos (Z.abs b)))
    as (T & m2 & _ & _ & _ & _ & Hinf & Hint); [rewrite Ea, Eb; exact Hab|].
  replace (match a with 0 => Ok (S754_zero (b <? 0)) | _ =>
             match SFdiv prec emax (S754_finite (a <? 0) (Z.to_pos (Z.abs a)) 0)
                     (S754_finite (b <? 0) (Z.to_pos (Z.abs b)) 0) with
             | S754_infinity _ => Raised OverflowError
             | x => Ok x
             end end)
    with (match SFdiv prec emax (S754_finite (a <? 0) (Z.to_pos (Z.abs a)) 0)
                  (S754_finite (b <? 0) (Z.to_pos (Z.abs b)) 0) with
          | S754_infinity _ => Raised OverflowError
          | x => Ok x
          end) by (destruct a; [contradiction | reflexivity | reflexivity]).
  destruct (SFdiv prec emax _ _) eqn:E; simpl in *; eauto; discriminate.
Qed.

(** [f1024] is [float(1024)]. *)
Lemma float_of_int_1024 : float_of_int 1024 = Ok f1024.
Proof. reflexivity. Qed.

(** Dividing a finite binary64 by 2^10, held as [2^52 * 2^-42], and
    truncating never fails. *)
Lemma SFdiv_pow_int (sx : bool) (mx my : positive) (ex : Z) :
  Zpos my = 2 ^ 52 ->
  bounded prec emax mx ex = true ->
  exists p, int_of_float (SFdiv prec emax (S754_finite sx mx ex)
                                          (S754_finite false my (-42))) = Ok p.
Proof.
  intros Hmy Hb. unfold bounded, canonical_mantissa in Hb.
  apply andb_true_iff in Hb as [Hc He].
  apply Z.eqb_eq in Hc. apply Z.leb_le in He. rewrite fexp_eq in Hc.
  change (emax - prec) with 971 in He.
  pose proof (digits2_pos_bounds mx) as [Hm1 Hm2].
  unfold SFdiv, SFdiv_core_binary.
  rewrite (Zdigits2_unique (Zpos my) 53) by (rewrite ?Hmy; simpl; lia).
  change (Zdigits2 (Zpos mx)) with (Zpos (digits2_pos mx)).
  set (d := Zpos (digits2_pos mx)) in *.
  assert (Hd : 0 < d) by (unfold d; lia).
  rewrite fexp_eq.
  set (e := Z.min (Z.max (d + ex - (53 + -42) - 53) (-1074)) (ex - -42)).
  assert (Ee : e = Z.max (d + ex - 64) (-1074)) by (unfold e; lia).
  assert (Hs : 0 <= ex - -42 - e) by lia.
  rewrite (shifted_mantissa (Zpos mx) (ex - -42 - e) Hs).
  set (s := ex - -42 - e) in *.
  assert (HS : 0 < 2 ^ s) by (apply Z.pow_pos_nonneg; lia).
  pose proof (Z_div_mod (Zpos mx * 2 ^ s) (Zpos my) ltac:(lia)) as Hdm.
  destruct (Z.div_eucl (Zpos mx * 2 ^ s) (Zpos my)) as [q r] eqn:Edm.
  destruct Hdm as [Hdm Hr].
  assert (Equo : Zpos mx * 2 ^ s / Zpos my = q).
  { symmetry. apply Z.div_unique with r; lia. }
  assert (Hq0 : 0 <= q) by (rewrite <- Equo; apply Z.div_pos; lia).
  replace (2 ^ d) with (2 * 2 ^ (d - 1)) in *
    by (rewrite <- Z.pow_succ_r by lia; f_equal; lia).
  assert (Hqb : q < 2 ^ 54 /\ (2 ^ 52 <= q \/ (q < 2 ^ 53 /\ e = -1074))).
  { destruct (Z_le_gt_dec (-1074) (d + ex - 64)) as [Hn | Ht].
    - assert (Es : s = 106 - d) by lia.
      assert (Ep : 2 ^ s * 2 ^ (d - 1) = 2 ^ 105).
      { rewrite <- Z.pow_add_r by lia. f_equal. lia. }
      rewrite <- Equo, Hmy. split; [apply Z.div_lt_upper_bound; [lia|]|].
      + change (2 ^ 52 * 2 ^ 54) with (2 * 2 ^ 105). nia.
      + left. apply Z.div_le_lower_bound; [lia|].
        change (2 ^ 52 * 2 ^ 52) with (2 ^ 104). nia.
    - assert (Ep : 2 ^ s * 2 ^ (d - 1) <= 2 ^ 104).
      { rewrite <- Z.pow_add_r by lia. apply Z.pow_le_mono_r; lia. }
      assert (q < 2 ^ 53).
      { rewrite <- Equo, Hmy. apply Z.div_lt_upper_bound; [lia|].
        change (2 ^ 52 * 2 ^ 53) with (2 * 2 ^ 104). nia. }
      split; [lia | right; split; [assumption | lia]]. }
  destruct Hqb as [Hq54 Hqn].
  destruct (binary_round_aux_int (xorb sx false) q e (new_location (Zpos my) r)
              (Zpos mx * 2 ^ s) (Zpos my))
    as (n & m2 & _ & _ & _ & _ & Hint); [lia | nia | | lia | lia | exact Hqn |].
  { intros Hl. pose proof (new_location_half (Zpos my) r Hr Hl). nia. }
  eauto.
Qed.

Lemma SFdiv_1024_int (sx : bool) (mx : positive) (ex : Z) :
  bounded prec emax mx ex = true ->
  exists p, int_of_float (SFdiv prec emax (S754_finite sx mx ex) f1024) = Ok p.
Proof. apply SFdiv_pow_int. reflexivity. Qed.

(** ** Conversion of a non-zero integer never gives zero *)

Lemma shr_1_m mrs : 0 <= shr_m mrs -> shr_m (shr_1 mrs) = shr_m mrs / 2.
Proof.
  destruct mrs as [m r s]. simpl. intros Hm.
  destruct m as [|[p|p|]|p]; simpl; try lia.
  - reflexivity.
  - change (Zpos p~1) with (2 * Zpos p + 1). apply Z.div_unique with 1; lia.
  - change (Zpos p~0) with (2 * Zpos p). apply Z.div_unique with 0; lia.
  - reflexivity.
Qed.

Lemma iter_shr_1_m p :
  forall mrs, 0 <= shr_m mrs ->
              shr_m (SpecFloat.iter_pos shr_1 p mrs) = shr_m mrs / 2 ^ Zpos p.
Proof.
  induction p as [p IH | p IH |]; intros mrs Hm; simpl SpecFloat.iter_pos.
  - assert (H1 : 0 <= shr_m (shr_1 mrs)) by (rewrite shr_1_m by lia; apply Z.div_pos; lia).
    assert (H2 : 0 <= shr_m (SpecFloat.iter_pos shr_1 p (shr_1 mrs)))
      by (rewrite IH by lia; apply Z.div_pos; [lia | apply Z.pow_pos_nonneg; lia]).
    rewrite IH, IH, shr_1_m by lia.
    assert (0 < 2 ^ Zpos p) by (apply Z.pow_pos_nonneg; lia).
    rewrite !Z.div_div by lia. f_equal.
    change 2 with (2 ^ 1) at 1. rewrite <- !Z.pow_add_r by lia. f_equal. lia.
  - assert (H2 : 0 <= shr_m (SpecFloat.iter_pos shr_1 p mrs))
      by (rewrite IH by lia; apply Z.div_pos; [lia | apply Z.pow_pos_nonneg; lia]).
    rewrite IH, IH by lia.
    assert (0 < 2 ^ Zpos p) by (apply Z.pow_pos_nonneg; lia).
    rewrite !Z.div_div by lia. f_equal.
    rewrite <- Z.pow_add_r by lia. f_equal. lia.
  - rewrite shr_1_m by lia. reflexivity.
Qed.

Lemma renorm_nonzero sx m2 e1 :
  2 ^ 52 <= m2 <= 2 ^ 53 -> -1074 <= e1 ->
  float_is_zero (renorm sx m2 e1) = false.
Proof.
  intros Hm He. unfold renorm.
  destruct (Z.eq_dec m2 (2 ^ 53)) as [-> | Hne].
  - rewrite shr_fexp_big by (simpl; lia). simpl shr_m.
    destruct (e1 + 1 <=? emax - prec); reflexivity.
  - rewrite shr_fexp_small by lia. rewrite shr_m_of_loc.
    destruct m2 as [|m|m]; try lia.
    destruct (e1 <=? emax - prec); reflexivity.
Qed.

Lemma iter_xO m d : Zpos (Pos.iter xO m d) = Zpos m * 2 ^ Zpos d.
Proof.
  rewrite (Pos.iter_swap_gen _ _ Zpos xO (Z.mul 2)) by reflexivity.
  change (Pos.iter (Z.mul 2) (Zpos m) d) with (Z.shiftl (Zpos m) (Zpos d)).
  apply Z.shiftl_mul_pow2. lia.
Qed.

Lemma binary_round_nonzero sx m :
  float_is_zero (binary_round prec emax sx m 0) = false.
Proof.
  pose proof (digits2_pos_bounds m) as [Hm1 Hm2].
  unfold binary_round, shl_align. rewrite fexp_eq.
  set (d := Zpos (digits2_pos m)) in *.
  assert (Hd : 0 < d) by (unfold d; lia).
  replace (Z.max (d + 0 - 53) (-1074) - 0) with (d - 53) by lia.
  replace (Z.max (d + 0 - 53) (-1074)) with (d - 53) by lia.
  destruct (d - 53) as [|k|k] eqn:Ek.
  - (* exactly 53 digits *)
    rewrite binary_round_aux_renorm.
    assert (Hb : 2 ^ 52 <= Zpos m < 2 ^ 53).
    { replace d with 53 in * by lia. simpl in Hm1. lia. }
    rewrite shr_fexp_small by lia. rewrite shr_m_of_loc, loc_of_loc. simpl.
    apply renorm_nonzero; lia.
  - (* more than 53 digits: the mantissa is shifted right *)
    rewrite binary_round_aux_renorm. unfold shr_fexp. rewrite fexp_eq.
    change (Zdigits2 (Zpos m)) with d.
    replace (Z.max (d + 0 - 53) (-1074) - 0) with (Zpos k) by lia.
    simpl shr.
    set (mrs := SpecFloat.iter_pos shr_1 k _). cbv beta iota.
    assert (Em : shr_m mrs = Zpos m / 2 ^ Zpos k).
    { unfold mrs. rewrite iter_shr_1_m; simpl; [reflexivity | lia]. }
    assert (Hk : 0 < 2 ^ Zpos k) by (apply Z.pow_pos_nonneg; lia).
    assert (Ep : 2 ^ Zpos k * 2 ^ 52 = 2 ^ (d - 1)).
    { rewrite <- Z.pow_add_r by lia. f_equal. lia. }
    assert (Ep' : 2 ^ Zpos k * 2 ^ 53 = 2 ^ d).
    { rewrite <- Z.pow_add_r by lia. f_equal. lia. }
    assert (Hb : 2 ^ 52 <= shr_m mrs < 2 ^ 53).
    { rewrite Em. split; [apply Z.div_le_lower_bound | apply Z.div_lt_upper_bound]; lia. }
    apply renorm_nonzero; [|lia].
    destruct (round_nearest_even_cases (shr_m mrs) (loc_of_shr_record mrs)) as [-> | [-> _]];
      lia.
  - (* fewer than 53 digits: the mantissa is shifted left *)
    rewrite binary_round_aux_renorm.
    assert (Ep : 2 ^ Zpos k * 2 ^ (d - 1) = 2 ^ 52).
    { rewrite <- Z.pow_add_r by lia. f_equal. lia. }
    assert (Hb : 2 ^ 52 <= Zpos (Pos.iter xO m k) < 2 ^ 53).
    { rewrite iter_xO.
      replace (2 ^ d) with (2 * 2 ^ (d - 1)) in Hm2
        by (rewrite <- Z.pow_succ_r by lia; f_equal; lia).
      assert (0 < 2 ^ Zpos k) by (apply Z.pow_pos_nonneg; lia).
      change (2 ^ 53) with (2 * 2 ^ 52). nia. }
    rewrite shr_fexp_small by lia. rewrite shr_m_of_loc, loc_of_loc. simpl.
    apply renorm_nonzero; lia.
Qed.

(** [float(b)] of a non-zero integer is not zero. *)
Lemma float_of_int_nonzero b g :
  b <> 0 -> float_of_int b = Ok g -> float_is_zero g = false.
Proof.
  intros Hb. unfold float_of_int, binary_normalize.
  destruct b as [|m|m]; [contradiction | |].
  - pose proof (binary_round_nonzero false m) as H.
    destruct (binary_round prec emax false m 0); intros [= <-]; exact H.
  - pose proof (binary_round_nonzero true m) as H.
    destruct (binary_round prec emax true m 0); intros [= <-]; exact H.
Qed.

(** ** Rounding in general *)

Lemma Zdigits2_bounds q :
  0 < q -> 2 ^ (Zdigits2 q - 1) <= q < 2 ^ Zdigits2 q /\ 0 < Zdigits2 q.
Proof.
  destruct q as [|p|p]; try lia. intros _. simpl.
  pose proof (digits2_pos_bounds p). lia.
Qed.

Lemma shr_fexp_shift q e l :
  0 <= q ->
  exists mrs,
    shr_fexp prec emax q e l = (mrs, e + shift_of q e)
    /\ shr_m mrs = q / 2 ^ shift_of q e
    /\ (shift_of q e = 0 -> mrs = shr_record_of_loc q l).
Proof.
  intros Hq. unfold shr_fexp, shift_of. rewrite fexp_eq.
  set (n := Z.max (Zdigits2 q + e - 53) (-1074) - e).
  unfold shr. destruct n as [|p|p] eqn:En.
  - exists (shr_record_of_loc q l). rewrite Z.add_0_r, shr_m_of_loc.
    change (Z.max 0 0) with 0. change (2 ^ 0) with 1. rewrite Z.div_1_r. auto.
  - exists (SpecFloat.iter_pos shr_1 p (shr_record_of_loc q l)).
    replace (Z.max 0 (Zpos p)) with (Zpos p) by lia.
    split; [reflexivity|]. split; [|lia].
    rewrite iter_shr_1_m; rewrite shr_m_of_loc; [reflexivity | exact Hq].
  - exists (shr_record_of_loc q l).
    replace (Z.max 0 (Zneg p)) with 0 by lia.
    rewrite Z.add_0_r, shr_m_of_loc. change (2 ^ 0) with 1. rewrite Z.div_1_r. auto.
Qed.

Lemma shift_of_bounds q e :
  0 <= q -> 0 <= shift_of q e /\ q / 2 ^ shift_of q e < 2 ^ 53 /\ -1074 <= e + shift_of q e.
Proof.
  intros Hq. unfold shift_of.
  set (n := Z.max 0 (Z.max (Zdigits2 q + e - 53) (-1074) - e)).
  assert (Hn : 0 <= n) by (unfold n; lia).
  split; [exact Hn|]. split; [|unfold n; lia].
  assert (H2n : 0 < 2 ^ n) by (apply Z.pow_pos_nonneg; lia).
  destruct (Z.eq_dec q 0) as [-> | Hne].
  - rewrite Z.div_0_l by lia. lia.
  - destruct (Zdigits2_bounds q ltac:(lia)) as [[_ Hhi] Hd].
    apply Z.div_lt_upper_bound; [lia|].
    assert (2 ^ Zdigits2 q <= 2 ^ (n + 53)) by (apply Z.pow_le_mono_r; unfold n; lia).
    rewrite Z.pow_add_r in H by lia. lia.
Qed.

(** Shifting out zero bits of an exact record leaves it exact. *)
Lemma shr_1_exact k :
  0 <= k ->
  shr_1 {| shr_m := 2 * k; shr_r := false; shr_s := false |}
  = {| shr_m := k; shr_r := false; shr_s := false |}.
Proof. destruct k as [|p|p]; try lia; reflexivity. Qed.

Lemma iter_shr_1_exact p :
  forall k, 0 <= k ->
  SpecFloat.iter_pos shr_1 p {| shr_m := k * 2 ^ Zpos p; shr_r := false; shr_s := false |}
  = {| shr_m := k; shr_r := false; shr_s := false |}.
Proof.
  induction p as [p IH | p IH |]; intros k Hk; cbn [SpecFloat.iter_pos].
  - assert (H2 : 0 < 2 ^ Zpos p) by (apply Z.pow_pos_nonneg; lia).
    replace (k * 2 ^ Zpos p~1) with (2 * ((k * 2 ^ Zpos p) * 2 ^ Zpos p)).
    + rewrite shr_1_exact by nia. rewrite IH by nia. apply IH. exact Hk.
    + replace (Zpos p~1) with (1 + (Zpos p + Zpos p)) by lia.
      rewrite !Z.pow_add_r by lia. change (2 ^ 1) with 2. ring.
  - assert (H2 : 0 < 2 ^ Zpos p) by (apply Z.pow_pos_nonneg; lia).
    replace (k * 2 ^ Zpos p~0) with ((k * 2 ^ Zpos p) * 2 ^ Zpos p).
    + rewrite IH by nia. apply IH. exact Hk.
    + replace (Zpos p~0) with (Zpos p + Zpos p) by lia.
      rewrite !Z.pow_add_r by lia. ring.
  - change (2 ^ 1) with 2. rewrite Z.mul_comm. now apply shr_1_exact.
Qed.

(** No second shift for a mantissa below 2^53. *)
Lemma shr_fexp_none q e l :
  0 <= q < 2 ^ 53 -> -1074 <= e ->
  shr_fexp prec emax q e l = (shr_record_of_loc q l, e).
Proof.
  intros Hq He. unfold shr_fexp. rewrite fexp_eq.
  pose proof (Zdigits2_le53 q Hq).
  unfold shr. destruct (Z.max (Zdigits2 q + e - 53) (-1074) - e) eqn:E; try reflexivity; lia.
Qed.

(** What [renorm] returns. *)
Lemma renorm_cases sx m2 e1 :
  0 <= m2 <= 2 ^ 53 -> -1074 <= e1 ->
  (m2 = 0 /\ renorm sx m2 e1 = S754_zero sx)
  \/ (0 < m2 < 2 ^ 53
      /\ renorm sx m2 e1
         = if e1 <=? 971 then S754_finite sx (Z.to_pos m2) e1 else S754_infinity sx)
  \/ (m2 = 2 ^ 53
      /\ renorm sx m2 e1
         = if e1 + 1 <=? 971 then S754_finite sx 4503599627370496 (e1 + 1)
           else S754_infinity sx).
Proof.
  intros Hm He. unfold renorm.
  destruct (Z.eq_dec m2 (2 ^ 53)) as [-> | Hne].
  - right; right. split; [reflexivity|].
    rewrite shr_fexp_big by (simpl; lia). reflexivity.
  - rewrite shr_fexp_none by lia. rewrite shr_m_of_loc.
    destruct m2 as [|m|m]; try lia.
    + left. auto.
    + right; left. split; [lia|]. reflexivity.
Qed.

(** The shape of every rounding: the mantissa is shifted right by
    [shift_of], rounded to itself or to one more, and renormalised. *)
Lemma round_shape sx q e l :
  0 <= q ->
  exists m2,
    (m2 = q / 2 ^ shift_of q e \/ m2 = q / 2 ^ shift_of q e + 1)
    /\ (l = loc_Exact -> q mod 2 ^ shift_of q e = 0 -> m2 = q / 2 ^ shift_of q e)
    /\ binary_round_aux prec emax sx q e l = renorm sx m2 (e + shift_of q e).
Proof.
  intros Hq. rewrite binary_round_aux_renorm.
  destruct (shr_fexp_shift q e l Hq) as (mrs & E & Em & E0). rewrite E.
  exists (round_nearest_even (shr_m mrs) (loc_of_shr_record mrs)).
  split; [|split; [|reflexivity]].
  - rewrite <- Em.
    destruct (round_nearest_even_cases (shr_m mrs) (loc_of_shr_record mrs)) as [-> | [-> _]];
      auto.
  - intros -> Hmod. rewrite <- Em.
    assert (Hloc : loc_of_shr_record mrs = loc_Exact).
    { destruct (shift_of_bounds q e Hq) as (Hn & _).
      destruct (shift_of q e) as [|p|p] eqn:En; try lia.
      - rewrite E0 by reflexivity. reflexivity.
      - unfold shr_fexp, shr in E. rewrite fexp_eq in E.
        unfold shift_of in En.
        destruct (Z.max (Zdigits2 q + e - 53) (-1074) - e) as [|p'|p'] eqn:En'; try lia.
        assert (p' = p) by lia. subst p'.
        injection E as <-.
        pose proof (Z.div_mod q (2 ^ Zpos p) ltac:(lia)) as Hdm.
        rewrite Hmod, Z.add_0_r, Z.mul_comm in Hdm.
        simpl shr_record_of_loc. rewrite Hdm at 1.
        rewrite iter_shr_1_exact; [reflexivity|].
        apply Z.div_pos; [lia | apply Z.pow_pos_nonneg; lia]. }
    rewrite Hloc. reflexivity.
Qed.

(** ** Values of binary64 numbers *)

Lemma p2_pos e : (0 < p2 e)%R.
Proof. apply powerRZ_lt. lra. Qed.

Lemma p2_add a b : p2 (a + b) = (p2 a * p2 b)%R.
Proof. apply powerRZ_add. lra. Qed.

Lemma p2_IZR n : 0 <= n -> p2 n = IZR (2 ^ n).
Proof.
  intros Hn. unfold p2. destruct n as [|p|p]; try lia; [reflexivity|].
  change (powerRZ 2 (Zpos p)) with (2 ^ Pos.to_nat p)%R.
  rewrite pow_IZR, positive_nat_Z. reflexivity.
Qed.

Lemma p2_le a b : a <= b -> (p2 a <= p2 b)%R.
Proof.
  intros H. replace b with (a + (b - a)) by lia. rewrite p2_add.
  rewrite (p2_IZR (b - a)) by lia.
  assert (1 <= 2 ^ (b - a)) by (pose proof (Z.pow_pos_nonneg 2 (b - a)); lia).
  apply IZR_le in H0. pose proof (p2_pos a). nra.
Qed.

Lemma p2_lt a b : a < b -> (p2 a < p2 b)%R.
Proof.
  intros H. replace b with (a + (b - a)) by lia. rewrite p2_add.
  rewrite (p2_IZR (b - a)) by lia.
  assert (2 <= 2 ^ (b - a)).
  { replace (b - a) with (1 + (b - a - 1)) by lia. rewrite Z.pow_add_r by lia.
    pose proof (Z.pow_pos_nonneg 2 (b - a - 1)). change (2 ^ 1) with 2. lia. }
  apply IZR_le in H0. pose proof (p2_pos a). nra.
Qed.

Lemma Rle_div_of_mul (a n d : R) : (0 < d -> a * d <= n -> a <= n / d)%R.
Proof.
  intros Hd H. unfold Rdiv. apply Rmult_le_reg_r with d; [lra|].
  rewrite Rmult_assoc, Rinv_l by lra. lra.
Qed.

Lemma Rdiv_le_of_mul (a n d : R) : (0 < d -> n <= a * d -> n / d <= a)%R.
Proof.
  intros Hd H. unfold Rdiv. apply Rmult_le_reg_r with d; [lra|].
  rewrite Rmult_assoc, Rinv_l by lra. lra.
Qed.

(** The part of a value that a right shift keeps. *)
Lemma shift_value q e n :
  0 <= q -> 0 <= n ->
  (IZR (q / 2 ^ n) * p2 (e + n) <= IZR q * p2 e
   /\ IZR q * p2 e < (IZR (q / 2 ^ n) + 1) * p2 (e + n))%R.
Proof.
  intros Hq Hn. rewrite p2_add, (p2_IZR n) by lia.
  assert (H2 : 0 < 2 ^ n) by (apply Z.pow_pos_nonneg; lia).
  pose proof (Z.mul_div_le q (2 ^ n) H2) as Hlo.
  pose proof (Z.mul_succ_div_gt q (2 ^ n) H2) as Hhi.
  apply IZR_le in Hlo. apply IZR_lt in Hhi.
  rewrite mult_IZR in Hlo. rewrite mult_IZR, succ_IZR in Hhi.
  pose proof (p2_pos e).
  split; nra.
Qed.

Lemma shift_value_exact q e n :
  0 <= q -> 0 <= n -> q mod 2 ^ n = 0 ->
  (IZR (q / 2 ^ n) * p2 (e + n) = IZR q * p2 e)%R.
Proof.
  intros Hq Hn Hm. rewrite p2_add, (p2_IZR n) by lia.
  assert (H2 : 0 < 2 ^ n) by (apply Z.pow_pos_nonneg; lia).
  pose proof (Z.div_mod q (2 ^ n) ltac:(lia)) as Hdm. rewrite Hm, Z.add_0_r in Hdm.
  rewrite Hdm at 2. rewrite mult_IZR. ring.
Qed.

(** The value of a renormalised mantissa: it overflows only above the
    exponent 970. *)
Lemma renorm_value sx m2 e1 :
  0 <= m2 <= 2 ^ 53 -> -1074 <= e1 ->
  let r := renorm sx m2 e1 in
  (e1 <= 970 -> float_finite r = true)
  /\ (r = S754_infinity sx \/ float_finite r = true)
  /\ (float_finite r = true ->
      Fsigned sx r
      /\ Fmag r = (IZR m2 * p2 e1)%R
      /\ (forall m e, r = S754_finite sx m e -> Zpos m < 2 ^ 53 /\ -1074 <= e <= 971)
      /\ (0 < m2 -> exists m e, r = S754_finite sx m e)).
Proof.
  intros Hm He r. unfold r.
  destruct (renorm_cases sx m2 e1 Hm ltac:(lia)) as [[-> ->] | [[Hlt ->] | [-> ->]]].
  - simpl. split; [reflexivity|]. split; [now right|]. intros _.
    split; [reflexivity|]. split; [lra|]. split; [discriminate | lia].
  - destruct (e1 <=? 971) eqn:E.
    + apply Z.leb_le in E. simpl. rewrite Z2Pos.id by lia.
      split; [reflexivity|]. split; [now right|]. intros _.
      split; [reflexivity|]. split; [reflexivity|]. split.
      * intros m e [= <- <-]. rewrite Z2Pos.id by lia. lia.
      * intros _. eauto.
    + apply Z.leb_gt in E. simpl.
      split; [lia|]. split; [now left | discriminate].
  - assert (E1 : p2 1 = 2%R) by (unfold p2; simpl; lra).
    destruct (e1 + 1 <=? 971) eqn:E.
    + apply Z.leb_le in E. simpl.
      split; [reflexivity|]. split; [now right|]. intros _.
      split; [reflexivity|]. split.
      * rewrite Z.add_comm, p2_add, E1.
        change (2 ^ 53) with (2 * 4503599627370496). rewrite mult_IZR. ring.
      * split; [|eauto]. intros m e [= <- <-]. split; [reflexivity | lia].
    + apply Z.leb_gt in E. simpl.
      split; [lia|]. split; [now left | discriminate].
Qed.

(** The value of a rounded mantissa: within one unit of the last place of
    the value rounded, and equal to it when no set bit is shifted out. *)
Lemma round_value sx q e l :
  0 <= q ->
  let r := binary_round_aux prec emax sx q e l in
  let n := shift_of q e in
  (e + n <= 970 -> float_finite r = true)
  /\ (r = S754_infinity sx \/ float_finite r = true)
  /\ (float_finite r = true ->
      Fsigned sx r
      /\ (IZR (q / 2 ^ n) * p2 (e + n) <= Fmag r <= (IZR (q / 2 ^ n) + 1) * p2 (e + n))%R
      /\ (l = loc_Exact -> q mod 2 ^ n = 0 -> Fmag r = (IZR q * p2 e)%R)
      /\ (forall m' e', r = S754_finite sx m' e' -> Zpos m' < 2 ^ 53 /\ -1074 <= e' <= 971)
      /\ (0 < q / 2 ^ n -> exists m' e', r = S754_finite sx m' e')).
Proof.
  intros Hq r n.
  destruct (shift_of_bounds q e Hq) as (Hn & Hlt & Hlo). fold n in Hn, Hlt, Hlo.
  destruct (round_shape sx q e l Hq) as (m2 & Hm2 & Hex & Er). fold n in Hm2, Hex, Er.
  assert (H0 : 0 <= q / 2 ^ n) by (apply Z.div_pos; [lia | apply Z.pow_pos_nonneg; lia]).
  assert (Hb : 0 <= m2 <= 2 ^ 53) by (destruct Hm2 as [-> | ->]; lia).
  destruct (renorm_value sx m2 (e + n) Hb ltac:(lia)) as (Hfin & Hinf & Hv).
  unfold r. rewrite Er. split; [exact Hfin|]. split; [exact Hinf|].
  intros Hf. destruct (Hv Hf) as (Hs & Hval & Hbd & Hex').
  split; [exact Hs|]. rewrite Hval.
  pose proof (p2_pos (e + n)) as Hp.
  split; [|split; [|split]].
  - destruct Hm2 as [-> | ->]; [|rewrite plus_IZR]; split; nra.
  - intros Hl Hmod. rewrite (Hex Hl Hmod). now apply shift_value_exact.
  - exact Hbd.
  - intros Hpos. apply Hex'. destruct Hm2 as [-> | ->]; lia.
Qed.

(** ** Division *)

Lemma SFdiv_eq sx mx ex sy my ey :
  exists l,
    SFdiv prec emax (S754_finite sx mx ex) (S754_finite sy my ey)
    = binary_round_aux prec emax (xorb sx sy)
        (div_quo mx ex my ey) (div_exp mx ex my ey) l.
Proof.
  unfold SFdiv, SFdiv_core_binary. rewrite fexp_eq.
  change (Zdigits2 (Zpos mx)) with (Zpos (digits2_pos mx)).
  change (Zdigits2 (Zpos my)) with (Zpos (digits2_pos my)).
  fold (div_exp mx ex my ey).
  set (e' := div_exp mx ex my ey).
  assert (Hs : 0 <= ex - ey - e') by (unfold e', div_exp; lia).
  rewrite (shifted_mantissa (Zpos mx) (ex - ey - e') Hs).
  unfold div_quo. fold e'. unfold Z.div.
  destruct (Z.div_eucl (Zpos mx * 2 ^ (ex - ey - e')) (Zpos my)) as [q r].
  eexists. reflexivity.
Qed.

Lemma div_quo_nonneg mx ex my ey : 0 <= div_quo mx ex my ey.
Proof.
  unfold div_quo. apply Z.div_pos; [|lia].
  pose proof (Z.pow_nonneg 2 (ex - ey - div_exp mx ex my ey)). lia.
Qed.

(** The quotient keeps 53 bits unless it sits at the least exponent. *)
Lemma div_quo_precision mx ex my ey :
  let q := div_quo mx ex my ey in
  let e' := div_exp mx ex my ey in
  2 ^ 52 <= q / 2 ^ shift_of q e' \/ e' + shift_of q e' = -1074.
Proof.
  intros q e'.
  pose proof (div_quo_nonneg mx ex my ey) as Hq0. fold q in Hq0.
  destruct (Z.eq_dec (e' + shift_of q e') (-1074)) as [|Hne]; [now right | left].
  pose proof (digits2_pos_bounds mx) as [Hx1 Hx2].
  pose proof (digits2_pos_bounds my) as [Hy1 Hy2].
  set (dx := Zpos (digits2_pos mx)) in *. set (dy := Zpos (digits2_pos my)) in *.
  assert (Hdx : 0 < dx) by (unfold dx; lia). assert (Hdy : 0 < dy) by (unfold dy; lia).
  assert (Ee : e' = Z.min (Z.max (dx + ex - (dy + ey) - 53) (-1074)) (ex - ey))
    by reflexivity.
  assert (Hs : 0 <= ex - ey - e') by lia.
  assert (Hq52 : 53 <= Zdigits2 q -> 2 ^ 52 <= q / 2 ^ shift_of q e').
  { intros Hd. assert (Hqp : 0 < q) by (destruct q; simpl in Hd; lia).
    destruct (Zdigits2_bounds q Hqp) as [[Hl _] _].
    assert (En : shift_of q e' = Zdigits2 q - 53) by (unfold shift_of in *; lia).
    rewrite En. apply Z.div_le_lower_bound; [apply Z.pow_pos_nonneg; lia|].
    rewrite <- Z.pow_add_r by lia.
    replace (Zdigits2 q - 53 + 52) with (Zdigits2 q - 1) by lia. exact Hl. }
  destruct (Z_le_gt_dec 53 (Zdigits2 q)) as [Hd | Hd]; [now apply Hq52|].
  exfalso.
  assert (En : shift_of q e' = 0) by (unfold shift_of in *; lia).
  assert (He' : -1074 < e') by (unfold shift_of in *; lia).
  assert (Hqlt : q < 2 ^ 52).
  { destruct (Z.eq_dec q 0) as [-> | Hq]; [reflexivity|].
    destruct (Zdigits2_bounds q ltac:(lia)) as [[_ Hh] _].
    assert (2 ^ Zdigits2 q <= 2 ^ 52) by (apply Z.pow_le_mono_r; lia). lia. }
  assert (Hge : 2 ^ 52 <= q); [|lia].
  unfold q, div_quo. fold e'.
  apply Z.div_le_lower_bound; [lia|].
  destruct (Z_le_gt_dec (dx + ex - (dy + ey) - 53) (ex - ey)) as [Ha | Hb].
  - assert (Es : ex - ey - e' = 53 - dx + dy) by lia. rewrite Es.
    assert (Ep : 2 ^ (dx - 1) * 2 ^ (53 - dx + dy) = 2 ^ 52 * 2 ^ dy).
    { rewrite <- !Z.pow_add_r by lia. f_equal. lia. }
    assert (0 < 2 ^ (53 - dx + dy)) by (apply Z.pow_pos_nonneg; lia).
    nia.
  - assert (Es : ex - ey - e' = 0) by lia. rewrite Es.
    change (2 ^ 0) with 1. rewrite Z.mul_1_r.
    assert (2 ^ (52 + dy) <= 2 ^ (dx - 1)) by (apply Z.pow_le_mono_r; lia).
    rewrite Z.pow_add_r in H by lia. nia.
Qed.

Lemma p2_lt_inv a b : (p2 a < p2 b)%R -> a < b.
Proof.
  intros H. destruct (Z_lt_ge_dec a b) as [|Hge]; [assumption|].
  pose proof (p2_le b a ltac:(lia)). lra.
Qed.

(** The quotient of two finite numbers: of the sign of the operands' and
    at most one unit of the last place above the exact quotient; it
    overflows only when the exact quotient reaches 2^1023. *)
Lemma SFdiv_value sx mx ex sy my ey :
  let r := SFdiv prec emax (S754_finite sx mx ex) (S754_finite sy my ey) in
  let V := (IZR (Zpos mx) * p2 ex / (IZR (Zpos my) * p2 ey))%R in
  ((V < p2 1023)%R -> float_finite r = true)
  /\ (r = S754_infinity (xorb sx sy) \/ float_finite r = true)
  /\ (float_finite r = true ->
      Fsigned (xorb sx sy) r
      /\ (Fmag r <= V * (1 + p2 (-52)) + p2 (-1074))%R
      /\ (forall m' e', r = S754_finite (xorb sx sy) m' e' ->
                        Zpos m' < 2 ^ 53 /\ -1074 <= e' <= 971)).
Proof.
  intros r V.
  destruct (SFdiv_eq sx mx ex sy my ey) as [l E]. unfold r. rewrite E. clear E r.
  set (q := div_quo mx ex my ey). set (e' := div_exp mx ex my ey).
  pose proof (div_quo_nonneg mx ex my ey) as Hq0. fold q in Hq0.
  pose proof (div_quo_precision mx ex my ey) as Hprec. cbv zeta in Hprec.
  fold q e' in Hprec.
  destruct (shift_of_bounds q e' Hq0) as (Hn & Hlt & Hlo).
  set (n := shift_of q e') in *.
  assert (Hs : 0 <= ex - ey - e') by (unfold e', div_exp; lia).
  (* the truncated quotient is at most the exact one *)
  assert (HqV : (IZR q * p2 e' <= V)%R).
  { unfold V.
    assert (Hmul : q * Zpos my <= Zpos mx * 2 ^ (ex - ey - e')).
    { unfold q, div_quo. fold e'. rewrite Z.mul_comm. apply Z.mul_div_le. lia. }
    apply IZR_le in Hmul. rewrite !mult_IZR, <- p2_IZR in Hmul by lia.
    assert (Ep : p2 ex = (p2 (ex - ey - e') * p2 e' * p2 ey)%R).
    { rewrite <- !p2_add. f_equal. lia. }
    pose proof (p2_pos e'). pose proof (p2_pos ey). pose proof (p2_pos (ex - ey - e')).
    assert (Hy : (0 < IZR (Zpos my))%R) by (apply IZR_lt; lia).
    rewrite Ep. apply Rle_div_of_mul; [nra|].
    assert (Hpp : (0 <= p2 e' * p2 ey)%R) by nra.
    apply (Rmult_le_compat_r _ _ _ Hpp) in Hmul. lra. }
  pose proof (shift_value q e' n Hq0 Hn) as [Hsv _].
  pose proof (p2_pos (e' + n)) as Hp.
  assert (Hm1 : (0 <= IZR (q / 2 ^ n))%R)
    by (apply IZR_le; apply Z.div_pos; [lia | apply Z.pow_pos_nonneg; lia]).
  (* one unit of the last place *)
  assert (Hulp : (p2 (e' + n) <= V * p2 (-52) + p2 (-1074))%R).
  { assert (HV0 : (0 <= V)%R) by (pose proof (p2_pos e'); apply IZR_le in Hq0; nra).
    pose proof (p2_pos (-52)). pose proof (p2_pos (-1074)).
    destruct Hprec as [H52 | ->]; [|nra].
    apply IZR_le in H52. rewrite <- p2_IZR in H52 by lia.
    assert (E1 : (p2 (e' + n) = p2 (-52) * (p2 52 * p2 (e' + n)))%R).
    { rewrite <- !p2_add. f_equal. lia. }
    assert (H1 : (p2 52 * p2 (e' + n) <= V)%R).
    { apply Rle_trans with (IZR (q / 2 ^ n) * p2 (e' + n))%R; [|lra].
      apply Rmult_le_compat_r; lra. }
    apply (Rmult_le_compat_l (p2 (-52))) in H1; [|lra].
    rewrite E1. lra. }
  destruct (round_value (xorb sx sy) q e' l Hq0) as (Hfin & Hinf & Hv).
  fold n in Hfin, Hv.
  split; [|split; [exact Hinf|]].
  - intros HV. apply Hfin.
    destruct Hprec as [H52 | ->]; [|lia].
    apply IZR_le in H52. rewrite <- p2_IZR in H52 by lia.
    assert (Hlt' : (p2 (52 + (e' + n)) < p2 1023)%R).
    { rewrite p2_add. apply Rle_lt_trans with (IZR (q / 2 ^ n) * p2 (e' + n))%R; [|lra].
      apply Rmult_le_compat_r; lra. }
    apply p2_lt_inv in Hlt'. lia.
  - intros Hf. destruct (Hv Hf) as (Hs' & [_ Hub] & _ & Hb & _).
    split; [exact Hs' | split; [nra | exact Hb]].
Qed.

(** ** Rounding an exact value *)

Lemma shift_cases q e :
  2 ^ 52 <= q ->
  2 ^ 52 <= q / 2 ^ shift_of q e
  \/ (shift_of q e = -1074 - e /\ 0 < shift_of q e).
Proof.
  intros Hq. assert (Hq0 : 0 < q) by lia.
  destruct (Zdigits2_bounds q Hq0) as [[Hl Hh] Hd].
  assert (Hd53 : 53 <= Zdigits2 q).
  { destruct (Z_le_gt_dec 53 (Zdigits2 q)) as [|Hgt]; [assumption|].
    assert (2 ^ Zdigits2 q <= 2 ^ 52) by (apply Z.pow_le_mono_r; lia). lia. }
  destruct (Z_le_gt_dec (-1074 - e) (Zdigits2 q - 53)) as [Ha | Hb].
  - left. assert (En : shift_of q e = Zdigits2 q - 53) by (unfold shift_of; lia).
    rewrite En. apply Z.div_le_lower_bound; [apply Z.pow_pos_nonneg; lia|].
    rewrite <- Z.pow_add_r by lia.
    replace (Zdigits2 q - 53 + 52) with (Zdigits2 q - 1) by lia. exact Hl.
  - right. unfold shift_of. lia.
Qed.

(** A normal result is within a relative 2^-52 of the value rounded. *)
Lemma round_normal sx q e :
  0 < q -> 2 ^ 52 <= q / 2 ^ shift_of q e ->
  let r := binary_round_aux prec emax sx q e loc_Exact in
  ((IZR q * p2 e < p2 1023)%R -> float_finite r = true)
  /\ (r = S754_infinity sx \/ float_finite r = true)
  /\ (float_finite r = true ->
      (exists m' e', r = S754_finite sx m' e' /\ Zpos m' < 2 ^ 53 /\ -1074 <= e' <= 971)
      /\ (IZR q * p2 e * (1 - p2 (-52)) <= Fmag r <= IZR q * p2 e * (1 + p2 (-52)))%R).
Proof.
  intros Hq H52 r.
  destruct (shift_of_bounds q e ltac:(lia)) as (Hn & Hlt & Hlo).
  set (n := shift_of q e) in *.
  pose proof (shift_value q e n ltac:(lia) Hn) as [Hlo' Hhi'].
  pose proof (p2_pos (e + n)) as Hp. pose proof (p2_pos (-52)) as Hp52.
  assert (H52r : (p2 52 <= IZR (q / 2 ^ n))%R) by (rewrite p2_IZR by lia; now apply IZR_le).
  assert (H1 : (p2 52 * p2 (e + n) <= IZR q * p2 e)%R).
  { apply Rle_trans with (IZR (q / 2 ^ n) * p2 (e + n))%R; [|lra].
    apply Rmult_le_compat_r; lra. }
  assert (Hulp : (p2 (e + n) <= p2 (-52) * (IZR q * p2 e))%R).
  { assert (E1 : (p2 (e + n) = p2 (-52) * (p2 52 * p2 (e + n)))%R).
    { rewrite <- !p2_add. f_equal. lia. }
    pose proof H1 as H1'.
    apply (Rmult_le_compat_l (p2 (-52))) in H1'; [|lra]. rewrite E1. lra. }
  destruct (round_value sx q e loc_Exact ltac:(lia)) as (Hfin & Hinf & Hv).
  fold n in Hfin, Hv. fold r in Hfin, Hinf, Hv.
  split; [|split; [exact Hinf|]].
  - intros HV. apply Hfin.
    assert (Hlt' : (p2 (52 + (e + n)) < p2 1023)%R) by (rewrite p2_add; lra).
    apply p2_lt_inv in Hlt'. lia.
  - intros Hf. destruct (Hv Hf) as (_ & [Hlb Hub] & _ & Hb & Hex).
    split.
    + destruct Hex as (m' & e' & E); [lia|]. exists m', e'. split; [exact E | now apply Hb].
    + split; lra.
Qed.

(** A value that loses no set bit is kept. *)
Lemma round_exact sx q e :
  0 < q -> q mod 2 ^ shift_of q e = 0 ->
  let r := binary_round_aux prec emax sx q e loc_Exact in
  (e + shift_of q e <= 970 -> float_finite r = true)
  /\ (r = S754_infinity sx \/ float_finite r = true)
  /\ (float_finite r = true ->
      (exists m' e', r = S754_finite sx m' e' /\ Zpos m' < 2 ^ 53 /\ -1074 <= e' <= 971)
      /\ Fmag r = (IZR q * p2 e)%R).
Proof.
  intros Hq Hmod r.
  destruct (shift_of_bounds q e ltac:(lia)) as (Hn & _).
  destruct (round_value sx q e loc_Exact ltac:(lia)) as (Hfin & Hinf & Hv).
  fold r in Hfin, Hinf, Hv. split; [exact Hfin|]. split; [exact Hinf|].
  intros Hf. destruct (Hv Hf) as (_ & _ & Hex & Hb & Hex').
  split; [|now apply Hex].
  destruct Hex' as (m' & e' & E).
  - assert (H2 : 0 < 2 ^ shift_of q e) by (apply Z.pow_pos_nonneg; lia).
    pose proof (Z.div_mod q (2 ^ shift_of q e) ltac:(lia)) as Hdm.
    rewrite Hmod, Z.add_0_r in Hdm. nia.
  - exists m', e'. split; [exact E | now apply Hb].
Qed.

(** ** Multiplying by 100 *)

Lemma float_of_int_100 : float_of_int 100 = Ok f100.
Proof. reflexivity. Qed.

Lemma SFmul_100_value sx mx ex :
  bounded prec emax mx ex = true ->
  let r := SFmul prec emax (S754_finite sx mx ex) f100 in
  ((100 * (IZR (Zpos mx) * p2 ex) < p2 1023)%R -> float_finite r = true)
  /\ (r = S754_infinity sx \/ float_finite r = true)
  /\ (float_finite r = true ->
      (exists m' e', r = S754_finite sx m' e' /\ Zpos m' < 2 ^ 53 /\ -1074 <= e' <= 971)
      /\ (Fmag r <= 100 * (IZR (Zpos mx) * p2 ex) * (1 + p2 (-52)))%R).
Proof.
  intros Hb r.
  unfold bounded, canonical_mantissa in Hb. apply andb_true_iff in Hb as [Hc Hem].
  apply Z.eqb_eq in Hc. rewrite fexp_eq in Hc. apply Z.leb_le in Hem.
  change (emax - prec) with 971 in Hem.
  assert (Hex : -1074 <= ex) by lia.
  unfold r, SFmul, f100. rewrite xorb_false_r, Pos2Z.inj_mul.
  set (q := Zpos mx * 7036874417766400). set (e := ex + -46).
  assert (EV : (IZR q * p2 e = 100 * (IZR (Zpos mx) * p2 ex))%R).
  { unfold q, e. rewrite mult_IZR, p2_add.
    assert (E46 : (IZR 7036874417766400 * p2 (-46) = 100)%R).
    { assert (E : (p2 46 * p2 (-46) = 1)%R)
        by (rewrite <- p2_add; reflexivity).
      rewrite (p2_IZR 46) in E by lia.
      change 7036874417766400 with (100 * 2 ^ 46). rewrite mult_IZR. nra. }
    nra. }
  rewrite <- EV.
  assert (Hq : 2 ^ 52 <= q) by (unfold q; simpl; lia).
  pose proof (p2_pos (-52)) as Hp52.
  assert (HV0 : (0 < IZR q * p2 e)%R).
  { pose proof (p2_pos e). assert (0 < IZR q)%R by (apply IZR_lt; lia). nra. }
  destruct (shift_cases q e Hq) as [H52 | [En Hn]].
  - destruct (round_normal sx q e ltac:(lia) H52) as (Hfin & Hinf & Hv).
    split; [exact Hfin|]. split; [exact Hinf|].
    intros Hf. destruct (Hv Hf) as (Hex' & _ & Hub). split; [exact Hex' | exact Hub].
  - destruct (round_exact sx q e ltac:(lia)) as (Hfin & Hinf & Hv).
    + rewrite En. unfold e.
      assert (Hk : 0 <= -1074 - (ex + -46) <= 46) by (unfold e in *; lia).
      set (k := -1074 - (ex + -46)) in *.
      unfold q. replace 7036874417766400 with (100 * 2 ^ (46 - k) * 2 ^ k).
      * rewrite Z.mul_assoc. apply Z.mod_mul. apply Z.pow_nonzero; lia.
      * rewrite <- Z.mul_assoc, <- Z.pow_add_r by lia.
        replace (46 - k + k) with 46 by lia. reflexivity.
    + split; [intros _; apply Hfin; unfold e in *; lia|]. split; [exact Hinf|].
      intros Hf. destruct (Hv Hf) as (Hex' & Hval). split; [exact Hex'|].
      rewrite Hval. nra.
Qed.

(** ** Converting an integer *)

Lemma float_of_int_value (a : Z) :
  a <> 0 ->
  (Z.abs a < 2 ^ 1023 -> exists g, float_of_int a = Ok g)
  /\ (forall g, float_of_int a = Ok g ->
       exists m e,
         g = S754_finite (a <? 0) m e
         /\ Zpos m < 2 ^ 53 /\ -1074 <= e <= 971
         /\ (IZR (Z.abs a) * (1 - p2 (-52)) <= IZR (Zpos m) * p2 e
             <= IZR (Z.abs a) * (1 + p2 (-52)))%R).
Proof.
  intros Ha.
  assert (H : forall sx (m : positive),
            let r := binary_round prec emax sx m 0 in
            (Zpos m < 2 ^ 1023 -> float_finite r = true)
            /\ (r = S754_infinity sx \/ float_finite r = true)
            /\ (float_finite r = true ->
                exists m' e', r = S754_finite sx m' e'
                  /\ Zpos m' < 2 ^ 53 /\ -1074 <= e' <= 971
                  /\ (IZR (Zpos m) * (1 - p2 (-52)) <= IZR (Zpos m') * p2 e'
                      <= IZR (Zpos m) * (1 + p2 (-52)))%R)).
  { intros sx m r. unfold r. clear r.
    pose proof (digits2_pos_bounds m) as [Hm1 Hm2].
    unfold binary_round, shl_align. rewrite fexp_eq.
    set (d := Zpos (digits2_pos m)) in *.
    assert (Hd : 0 < d) by (unfold d; lia).
    replace (Z.max (d + 0 - 53) (-1074) - 0) with (d - 53) by lia.
    replace (Z.max (d + 0 - 53) (-1074)) with (d - 53) by lia.
    assert (Hgen : forall q e, 0 < q -> 2 ^ 52 <= q -> -52 <= e <= 0 ->
              (IZR q * p2 e = IZR (Zpos m))%R ->
              let r := binary_round_aux prec emax sx q e loc_Exact in
              (Zpos m < 2 ^ 1023 -> float_finite r = true)
              /\ (r = S754_infinity sx \/ float_finite r = true)
              /\ (float_finite r = true ->
                  exists m' e', r = S754_finite sx m' e'
                    /\ Zpos m' < 2 ^ 53 /\ -1074 <= e' <= 971
                    /\ (IZR (Zpos m) * (1 - p2 (-52)) <= IZR (Zpos m') * p2 e'
                        <= IZR (Zpos m) * (1 + p2 (-52)))%R)).
    { intros q e Hq Hq52 He EV r.
      destruct (shift_cases q e Hq52) as [H52 | [En Hn]]; [|lia].
      destruct (round_normal sx q e Hq H52) as (Hfin & Hinf & Hv).
      fold r in Hfin, Hinf, Hv.
      split; [|split; [exact Hinf|]].
      - intros Hm. apply Hfin. rewrite EV, (p2_IZR 1023) by lia. now apply IZR_lt.
      - intros Hf. destruct (Hv Hf) as ((m' & e' & E & Hb) & Hval).
        exists m', e'. rewrite E in Hval. simpl in Hval. rewrite EV in Hval.
        split; [exact E|]. split; [apply Hb|]. split; [apply Hb | exact Hval]. }
    destruct (d - 53) as [|k|k] eqn:Ek.
    - apply Hgen; [lia | | lia |].
      + replace d with 53 in * by lia. simpl in Hm1. lia.
      + change (p2 0) with 1%R. lra.
    - apply Hgen; [lia | | lia |].
      + assert (2 ^ 53 <= 2 ^ (d - 1)) by (apply Z.pow_le_mono_r; lia).
        change (2 ^ 53) with (2 * 2 ^ 52) in H. lia.
      + change (p2 0) with 1%R. lra.
    - assert (Ep : 2 ^ Zpos k * 2 ^ (d - 1) = 2 ^ 52).
      { rewrite <- Z.pow_add_r by lia. f_equal. lia. }
      assert (H2k : 0 < 2 ^ Zpos k) by (apply Z.pow_pos_nonneg; lia).
      apply (Hgen (Zpos (Pos.iter xO m k)) (Zneg k)).
      + lia.
      + rewrite iter_xO. nia.
      + lia.
      + rewrite iter_xO, mult_IZR, <- p2_IZR by lia.
        rewrite Rmult_assoc, <- p2_add.
        replace (Zpos k + Zneg k) with 0 by lia.
        change (p2 0) with 1%R. ring. }
  unfold float_of_int, binary_normalize.
  destruct a as [|m|m]; [contradiction | |].
  - destruct (H false m) as (Hfin & Hinf & Hv).
    split.
    + intros Hlt. specialize (Hfin Hlt).
      destruct (binary_round prec emax false m 0); try discriminate; eauto.
    + intros g Hg.
      assert (Hf : float_finite (binary_round prec emax false m 0) = true).
      { destruct Hinf as [E | E]; [rewrite E in Hg; discriminate | exact E]. }
      destruct (Hv Hf) as (m' & e' & E & Hb). rewrite E in Hg.
      injection Hg as <-. exists m', e'. simpl. auto.
  - destruct (H true m) as (Hfin & Hinf & Hv).
    split.
    + intros Hlt. specialize (Hfin Hlt).
      destruct (binary_round prec emax true m 0); try discriminate; eauto.
    + intros g Hg.
      assert (Hf : float_finite (binary_round prec emax true m 0) = true).
      { destruct Hinf as [E | E]; [rewrite E in Hg; discriminate | exact E]. }
      destruct (Hv Hf) as (m' & e' & E & Hb). rewrite E in Hg.
      injection Hg as <-. exists m', e'. simpl. auto.
Qed.

Import DownloadWorker.

(** ** The percentage of ordered byte counts *)

Lemma truthy_number v n :
  truthy v = true -> as_number v = Some n ->
  match n with
  | NInt b => b <> 0
  | NFloat g => float_is_zero g = false
  end.
Proof.
  destruct v; simpl; try discriminate; intros Ht [= <-].
  - now destruct b.
  - apply negb_true_iff, Z.eqb_neq in Ht. exact Ht.
  - now apply negb_true_iff in Ht.
Qed.

Lemma shiftl_value (m : positive) (e : Z) :
  0 <= Z.shiftl (Zpos m) e /\ (IZR (Z.shiftl (Zpos m) e) <= IZR (Zpos m) * p2 e)%R.
Proof.
  destruct (Z_le_gt_dec 0 e) as [He | He].
  - rewrite Z.shiftl_mul_pow2 by lia. rewrite mult_IZR, <- p2_IZR by lia.
    split; [|lra]. pose proof (Z.pow_nonneg 2 e). lia.
  - rewrite Z.shiftl_div_pow2 by lia.
    pose proof (shift_value (Zpos m) e (- e) ltac:(lia) ltac:(lia)) as [H _].
    replace (e + - e) with 0 in H by lia. change (p2 0) with 1%R in H.
    split; [|lra]. apply Z.div_pos; [lia | apply Z.pow_pos_nonneg; lia].
Qed.

Lemma p2_small : (p2 (-52) <= 1 / 1000 /\ p2 (-1074) <= 1 / 1000)%R.
Proof.
  assert (E : (p2 (-10) = 1 / 1024)%R).
  { assert (E' : (p2 10 * p2 (-10) = 1)%R) by (rewrite <- p2_add; reflexivity).
    rewrite (p2_IZR 10) in E' by lia. change (2 ^ 10) with 1024 in E'.
    apply Rmult_eq_reg_l with 1024%R; lra. }
  pose proof (p2_le (-52) (-10) ltac:(lia)).
  pose proof (p2_le (-1074) (-10) ltac:(lia)). lra.
Qed.

(** The division and truncation of line 65 on a dividend of at most
    [100 X (1 + 2^-52)] and a divisor of at least [T (1 - 2^-52)],
    [X <= T]. *)
Lemma div_percent (y g : spec_float) (X T : R) (p : Z) :
  y = S754_zero false
  \/ (exists m e, y = S754_finite false m e
                  /\ (Fmag y <= 100 * X * (1 + p2 (-52)))%R) ->
  (exists m e, g = S754_finite false m e /\ (T * (1 - p2 (-52)) <= Fmag g)%R) ->
  (0 <= X <= T)%R -> (0 < T)%R ->
  float_truediv y g ≫= int_of_float = Ok p ->
  0 <= p <= 100.
Proof.
  intros Hy (mg & eg & -> & Hg) HX HT.
  unfold float_truediv. simpl float_is_zero. cbv iota.
  destruct p2_small as [He Hh]. pose proof (p2_pos (-52)) as Hp. pose proof (p2_pos (-1074)).
  destruct Hy as [-> | (my & ey & -> & Hy)].
  - simpl. intros [= <-]. lia.
  - simpl in Hy, Hg.
    destruct (SFdiv_value false my ey false mg eg) as (_ & Hinf & Hv).
    cbv zeta in Hinf, Hv. simpl xorb in Hinf, Hv.
    set (r := SFdiv prec emax (S754_finite false my ey) (S754_finite false mg eg)) in *.
    change (Ok r ≫= int_of_float) with (int_of_float r).
    destruct Hinf as [E | Hf]; [rewrite E; discriminate|].
    destruct (Hv Hf) as (Hs & Hub & _).
    set (Fy := (IZR (Zpos my) * p2 ey)%R) in *.
    set (Fg := (IZR (Zpos mg) * p2 eg)%R) in *.
    assert (HFg : (0 < Fg)%R) by nra.
    assert (HV : (Fy / Fg <= 1003 / 10)%R).
    { apply Rdiv_le_of_mul; [exact HFg|]. nra. }
    assert (Hr : (Fmag r < 101)%R) by nra.
    destruct r as [s | s | | s m e]; simpl in Hs, Hf; try discriminate.
    + simpl. intros [= <-]. lia.
    + subst s. simpl. intros [= <-].
      destruct (shiftl_value m e) as [H0 Hle]. simpl in Hr.
      split; [exact H0|].
      assert (Hlt : (IZR (Z.shiftl (Zpos m) e) < 101)%R) by lra.
      apply lt_IZR in Hlt. lia.
Qed.

Lemma F2R_nonneg s m e :
  (0 <= F2R (S754_finite s m e))%R -> s = false.
Proof.
  destruct s; [|reflexivity]. unfold F2R, cond_Zopp. intros H. exfalso.
  pose proof (p2_pos e). assert (IZR (- Zpos m) < 0)%R by (apply IZR_lt; lia). nra.
Qed.

Lemma F2R_Fmag m e : F2R (S754_finite false m e) = Fmag (S754_finite false m e).
Proof. reflexivity. Qed.

(** A number that is valid, truthy and not negative is an [int] above 0 or
    a positive finite [float]. *)
Lemma positive_number v T :
  truthy v = true -> as_number v = Some T -> num_valid T -> (0 <= num_val T)%R ->
  (0 < num_val T)%R
  /\ ((exists b, T = NInt b /\ 0 < b)
      \/ (exists m e, T = NFloat (S754_finite false m e)
                      /\ bounded prec emax m e = true)).
Proof.
  intros Ht ET VT H0.
  pose proof (truthy_number v T Ht ET) as Hn.
  destruct T as [b | g]; simpl in *.
  - assert (0 <= b) by now apply le_IZR.
    split; [apply IZR_lt; lia | left; exists b; split; [reflexivity | lia]].
  - destruct g as [s | s | | s m e]; try discriminate; try contradiction.
    pose proof (F2R_nonneg s m e H0) as ->.
    split; [|right; eauto].
    unfold F2R, cond_Zopp. apply Rmult_lt_0_compat; [apply IZR_lt; lia | apply p2_pos].
Qed.

Lemma Fmag_shrink m e :
  (F2R (S754_finite false m e) * (1 - p2 (-52)) <= Fmag (S754_finite false m e))%R.
Proof.
  rewrite F2R_Fmag. unfold Fmag.
  assert (0 < IZR (Zpos m) * p2 e)%R
    by (apply Rmult_lt_0_compat; [apply IZR_lt; lia | apply p2_pos]).
  pose proof (p2_pos (-52)). nra.
Qed.

Lemma bind_Ok {A B} (a : A) (f : A -> result B) : Ok a ≫= f = f a.
Proof. reflexivity. Qed.

Lemma percent_in_order (d : gmap str value) (p : Z) :
  counts_in_order d -> percent_of d = Ok p -> 0 <= p <= 100.
Proof.
  intros (X & T & EX & ET & VX & VT & HX0 & HXT).
  unfold percent_of. fold (total_of d). fold (downloaded_of d).
  destruct (truthy (total_of d)) eqn:Et; [|intros [= <-]; lia].
  destruct (positive_number (total_of d) T Et ET VT ltac:(lra)) as [HT HTc].
  destruct p2_small as [He Hh]. pose proof (p2_pos (-52)) as Hp52.
  unfold py_mul. rewrite EX. simpl as_number.
  destruct X as [a | f].
  - (* an integer count *)
    simpl in HX0, HXT. assert (Ha : 0 <= a) by now apply le_IZR.
    rewrite bind_Ok. unfold py_truediv. simpl as_number. rewrite ET.
    destruct HTc as [(b & -> & Hb) | (m & e & -> & Hbd)].
    + simpl in HXT. apply le_IZR in HXT.
      destruct (int_truediv_le (a * 100) b 100) as (p' & E & Hp'); try lia.
      intros Hq. change (int_truediv (a * 100) b ≫= int_of_float = Ok p) in Hq.
      rewrite E in Hq. injection Hq as <-. exact Hp'.
    + destruct (Z.eq_dec a 0) as [-> | Hne].
      * change (float_of_int (0 * 100)) with (Ok (S754_zero false)).
        simpl. intros [= <-]. lia.
      * destruct (float_of_int (a * 100)) as [y|c] eqn:Ey; [|discriminate].
        destruct (float_of_int_value (a * 100) ltac:(lia)) as [_ Hval].
        destruct (Hval y Ey) as (my & ey & -> & _ & _ & _ & Hub).
        replace (a * 100 <? 0) with false by (symmetry; apply Z.ltb_ge; lia).
        apply (div_percent _ _ (IZR a) (F2R (S754_finite false m e))).
        -- right. exists my, ey. split; [reflexivity|]. unfold Fmag.
           rewrite Z.abs_eq, mult_IZR in Hub by lia.
           replace (100 * IZR a)%R with (IZR a * 100)%R by ring. exact Hub.
        -- exists m, e. split; [reflexivity|]. apply Fmag_shrink.
        -- simpl in HXT |- *. apply IZR_le in Ha. lra.
        -- exact HT.
  - (* a float count *)
    rewrite float_of_int_100. rewrite !bind_Ok.
    unfold py_truediv. simpl as_number. rewrite ET.
    assert (Hy : forall g mg eg, g = S754_finite false mg eg ->
              (num_val T * (1 - p2 (-52)) <= Fmag g)%R ->
              float_truediv (SFmul prec emax f f100) g ≫= int_of_float = Ok p ->
              0 <= p <= 100).
    { intros g mg eg -> Hg.
      destruct f as [s | s | | s mf ef]; simpl in VX; try contradiction.
      - simpl. intros [= <-]. lia.
      - pose proof (F2R_nonneg s mf ef HX0) as ->.
        destruct (SFmul_100_value false mf ef VX) as (_ & Hinf & Hv). cbv zeta in Hinf, Hv.
        destruct Hinf as [E | Hf]; [rewrite E; discriminate|].
        destruct (Hv Hf) as ((my & ey & Ey & _) & Hub).
        apply (div_percent _ _ (F2R (S754_finite false mf ef)) (num_val T)).
        + right. exists my, ey. split; [exact Ey|]. simpl F2R. simpl cond_Zopp. lra.
        + eauto.
        + split; [exact HX0 | exact HXT].
        + exact HT. }
    destruct HTc as [(b & -> & Hb) | (m & e & -> & Hbd)].
    + destruct (float_of_int b) as [g|c] eqn:Eg; [|discriminate].
      destruct (float_of_int_value b ltac:(lia)) as [_ Hval].
      destruct (Hval g Eg) as (mg & eg & -> & _ & _ & Hlb & _).
      replace (b <? 0) with false by (symmetry; apply Z.ltb_ge; lia).
      apply (Hy _ mg eg eq_refl). simpl. rewrite Z.abs_eq in Hlb by lia. exact Hlb.
    + apply (Hy _ m e eq_refl). apply Fmag_shrink.
Qed.

(** ** The size of a truncated quotient *)

Lemma SFdiv_bounded x y s m e :
  SFdiv prec emax x y = S754_finite s m e -> Zpos m < 2 ^ 53 /\ e <= 971.
Proof.
  destruct x as [sx | sx | | sx mx ex], y as [sy | sy | | sy my ey];
    try discriminate.
  intros E.
  destruct (SFdiv_value sx mx ex sy my ey) as (_ & _ & Hv). cbv zeta in Hv.
  rewrite E in Hv. destruct (Hv eq_refl) as (Hs & _ & Hb).
  simpl in Hs. subst s. destruct (Hb m e eq_refl) as [H1 H2]. lia.
Qed.

Lemma int_of_float_small s m e n :
  Zpos m < 2 ^ 53 -> e <= 971 ->
  int_of_float (S754_finite s m e) = Ok n -> Z.abs n < 2 ^ 1024.
Proof.
  intros Hm He [= <-].
  assert (H : 0 <= Z.shiftl (Zpos m) e < 2 ^ 1024).
  { destruct (Z_le_gt_dec 0 e) as [H0 | H0].
    - rewrite Z.shiftl_mul_pow2 by lia.
      assert (2 ^ e <= 2 ^ 971) by (apply Z.pow_le_mono_r; lia).
      assert (0 < 2 ^ e) by (apply Z.pow_pos_nonneg; lia).
      change (2 ^ 1024) with (2 ^ 53 * 2 ^ 971). nia.
    - rewrite Z.shiftl_div_pow2 by lia.
      assert (0 < 2 ^ (- e)) by (apply Z.pow_pos_nonneg; lia).
      split; [apply Z.div_pos; lia|].
      apply Z.le_lt_trans with (Zpos m); [apply Z.div_le_upper_bound; nia|].
      assert (2 ^ 53 < 2 ^ 1024) by (apply Z.pow_lt_mono_r; lia). lia. }
  destruct s; simpl; lia.
Qed.

(** [int(x / y)] has fewer than 310 digits. *)
Lemma truediv_int_small x y q n :
  py_truediv x y = Ok q -> int_of_float q = Ok n -> Z.abs n < 2 ^ 1024.
Proof.
  assert (Hz : forall s, int_of_float (S754_zero s) = Ok n -> Z.abs n < 2 ^ 1024).
  { intros s [= <-]. simpl. apply Z.pow_pos_nonneg; lia. }
  assert (Hd : forall f g, int_of_float (SFdiv prec emax f g) = Ok n -> Z.abs n < 2 ^ 1024).
  { intros f g. destruct (SFdiv prec emax f g) as [s | s | | s m e] eqn:E;
      try discriminate; [apply Hz|].
    destruct (SFdiv_bounded _ _ _ _ _ E). now apply int_of_float_small. }
  assert (Hf : forall f g, float_truediv f g = Ok q -> int_of_float q = Ok n ->
                           Z.abs n < 2 ^ 1024).
  { intros f g. unfold float_truediv. destruct (float_is_zero g); [discriminate|].
    intros [= <-]. apply Hd. }
  unfold py_truediv.
  destruct (as_number x) as [[a | f]|], (as_number y) as [[b | g]|]; try discriminate.
  - unfold int_truediv. destruct (b =? 0); [discriminate|].
    destruct a as [|a|a].
    + intros [= <-]. apply Hz.
    + destruct (SFdiv _ _ _ _) eqn:E; try discriminate; intros [= <-];
        rewrite <- E; apply Hd.
    + destruct (SFdiv _ _ _ _) eqn:E; try discriminate; intros [= <-];
        rewrite <- E; apply Hd.
  - destruct (float_of_int a); [|discriminate]. apply Hf.
  - destruct (float_of_int b); [|discriminate]. apply Hf.
  - apply Hf.
Qed.

Lemma pow2_1024_digits : 2 ^ 1024 < 10 ^ 4300.
Proof.
  apply Z.lt_le_trans with (10 ^ 309); [reflexivity|].
  apply Z.pow_le_mono_r; lia.
Qed.

(** ** [strip], [startswith], [endswith] *)

Lemma lstrip_app_keep (u v : str) (c : N) :
  isspace c = false -> exists u', lstrip (u ++ c :: v) = u' ++ c :: v.
Proof.
  intros Hc. induction u as [|a u IH]; simpl.
  - rewrite Hc. now exists [].
  - destruct (isspace a); [exact IH | now exists (a :: u)].
Qed.

Lemma lstrip_cons_nonspace (c : N) (t : str) :
  isspace c = false -> lstrip (c :: t) = c :: t.
Proof. intros Hc. simpl. now rewrite Hc. Qed.

Lemma rstrip_keep (u : str) (c : N) :
  isspace c = false -> rstrip (u ++ [c]) = u ++ [c].
Proof.
  intros Hc. unfold rstrip. rewrite rev_app_distr. simpl. rewrite Hc.
  change (c :: rev u) with (rev [c] ++ rev u).
  now rewrite <- rev_app_distr, rev_involutive.
Qed.

(** A text that starts and ends with a non-space character survives [strip]
    as the beginning of whatever it is followed by. *)
Lemma strip_keeps_prefix (c c' : N) (p s : str) :
  isspace c = false -> isspace c' = false ->
  exists s', strip ((c :: p ++ [c']) ++ s) = (c :: p ++ [c']) ++ s'.
Proof.
  intros Hc Hc'. unfold strip.
  change ((c :: p ++ [c']) ++ s) with (c :: (p ++ [c']) ++ s) at 1.
  rewrite (lstrip_cons_nonspace c _ Hc).
  unfold rstrip.
  change (c :: (p ++ [c']) ++ s) with (((c :: p) ++ [c']) ++ s).
  rewrite (rev_app_distr _ s), (rev_app_distr (c :: p) [c']).
  change (rev [c'] ++ rev (c :: p)) with (c' :: rev (c :: p)).
  destruct (lstrip_app_keep (rev s) (rev (c :: p)) c' Hc') as [u' ->].
  exists (rev u'). rewrite rev_app_distr.
  change (c' :: rev (c :: p)) with ([c'] ++ rev (c :: p)).
  rewrite rev_app_distr, rev_involutive. reflexivity.
Qed.

Lemma strip_keeps_head (c : N) (s : str) :
  isspace c = false -> exists s', strip (c :: s) = c :: s'.
Proof.
  intros Hc. unfold strip. rewrite (lstrip_cons_nonspace c s Hc). unfold rstrip.
  change (rev (c :: s)) with (rev s ++ [c]).
  destruct (lstrip_app_keep (rev s) [] c Hc) as [u' ->].
  exists (rev u'). rewrite rev_app_distr. reflexivity.
Qed.

(** A text that starts and ends with a non-space character survives [strip]
    as the end of whatever precedes it. *)
Lemma strip_keeps_suffix (c c' : N) (q s : str) :
  isspace c = false -> isspace c' = false ->
  exists u, strip (s ++ c :: q ++ [c']) = u ++ c :: q ++ [c'].
Proof.
  intros Hc Hc'. unfold strip.
  destruct (lstrip_app_keep s (q ++ [c']) c Hc) as [u ->].
  exists u.
  replace (u ++ c :: q ++ [c']) with ((u ++ c :: q) ++ [c'])
    by (now rewrite <- app_assoc).
  now apply rstrip_keep.
Qed.

Lemma startswith_app (p s : str) : startswith p (p ++ s) = true.
Proof. induction p as [|a p IH]; simpl; [reflexivity|]. now rewrite N.eqb_refl. Qed.

Lemma endswith_app (u q : str) : endswith q (u ++ q) = true.
Proof. unfold endswith. rewrite rev_app_distr. apply startswith_app. Qed.

Lemma startswith_head_ne (a c : N) (p s : str) :
  a <> c -> startswith (a :: p) (c :: s) = false.
Proof. intros H. simpl. now apply N.eqb_neq in H as ->. Qed.

(** The decimal form of an integer starts with a digit or a minus sign. *)
Lemma decimal_head (n : Z) :
  exists c s, decimal n = c :: s /\ isspace c = false /\ c <> 91%N.
Proof.
  unfold decimal.
  destruct n as [|p|p]; simpl Z.to_int.
  - do 2 eexists. split; [reflexivity|]. split; [reflexivity | discriminate].
  - destruct (Pos.to_uint p); do 2 eexists;
      (split; [reflexivity|]); (split; [reflexivity | discriminate]).
  - do 2 eexists. split; [reflexivity|]. split; [reflexivity | discriminate].
Qed.


(** ** The C [int] of the progress signal *)

Lemma c_int_range (n : Z) : - 2 ^ 31 <= c_int n < 2 ^ 31.
Proof.
  unfold c_int. pose proof (Z.mod_pos_bound (n + 2 ^ 31) (2 ^ 32) ltac:(lia)). lia.
Qed.

Lemma c_int_small (n : Z) : - 2 ^ 31 <= n < 2 ^ 31 -> c_int n = n.
Proof. intros H. unfold c_int. rewrite Z.mod_small; lia. Qed.

Lemma c_int_idem (n : Z) : c_int (c_int n) = c_int n.
Proof. apply c_int_small, c_int_range. Qed.

(** ** The progress hook, branch by branch *)

Lemma hook_downloading rt d :
  eq_lit (dict_get d "status") "downloading" = true ->
  _progress_hook rt d =
  match percent_of d, desc_of rt d with
  | Ok p, Ok s => ([progress (c_int p) (strip s)], Ok ())
  | Ok _, Raised c => ([], Raised c)
  | Raised c, _ => ([], Raised c)
  end.
Proof.
  intros H. unfold _progress_hook. rewrite H.
  destruct (percent_of d); [|reflexivity].
  destruct (desc_of rt d); reflexivity.
Qed.

Lemma hook_finished rt d :
  eq_lit (dict_get d "status") "finished" = true ->
  _progress_hook rt d =
  match prefix_of rt d with
  | Ok pre => ([progress 100 (strip (pre ++ s_merging))], Ok ())
  | Raised c => ([], Raised c)
  end.
Proof.
  intros H. unfold _progress_hook.
  assert (E : eq_lit (dict_get d "status") "downloading" = false).
  { unfold eq_lit in *. destruct (dict_get d "status"); try reflexivity.
    apply bool_decide_eq_true in H. subst s. reflexivity. }
  rewrite E, H. destruct (prefix_of rt d); reflexivity.
Qed.

Lemma hook_other rt d :
  eq_lit (dict_get d "status") "downloading" = false ->
  eq_lit (dict_get d "status") "finished" = false ->
  _progress_hook rt d = ([], Ok ()).
Proof. intros H1 H2. unfold _progress_hook. now rewrite H1, H2. Qed.

(** Case analysis on the status of [d], rewriting the hook to the branch
    taken. *)
Ltac by_status rt d :=
  let E1 := fresh "E1" in
  let E2 := fresh "E2" in
  destruct (eq_lit (dict_get d "status") "downloading") eqn:E1;
  [ rewrite (hook_downloading rt d E1)
  | destruct (eq_lit (dict_get d "status") "finished") eqn:E2;
    [ rewrite (hook_finished rt d E2) | rewrite (hook_other rt d E1 E2) ] ].

(** The hook emits nothing but [progress] signals, and at most one. *)
Lemma hook_trace rt d :
  (_progress_hook rt d).1 = [] \/
  exists p desc, (_progress_hook rt d).1 = [progress p desc].
Proof.
  by_status rt d.
  - destruct (percent_of d); [|now left].
    destruct (desc_of rt d); [right; eauto | now left].
  - destruct (prefix_of rt d); [right; eauto | now left].
  - now left.
Qed.

(** ** The percentage *)

Lemma percent_of_ints d x t :
  py_or (dict_get d "downloaded_bytes") (VInt 0) = VInt x ->
  py_or (py_or (dict_get d "total_bytes") (dict_get d "total_bytes_estimate")) (VInt 0)
  = VInt t ->
  percent_of d = if t =? 0 then Ok 0 else int_truediv (x * 100) t ≫= int_of_float.
Proof.
  intros Hx Ht. unfold percent_of. rewrite Hx, Ht. simpl truthy.
  destruct (t =? 0); reflexivity.
Qed.

Lemma py_or_known v w t : v = VInt t -> t <> 0 -> py_or v w = VInt t.
Proof.
  intros -> Ht. unfold py_or. simpl. apply Z.eqb_neq in Ht. now rewrite Ht.
Qed.

Lemma py_or_unknown v w : unknown v -> py_or v w = w.
Proof. intros [-> | ->]; reflexivity. Qed.

Lemma py_or_falsy v w : truthy v = false -> py_or v w = w.
Proof. intros H. unfold py_or. now rewrite H. Qed.

Lemma unknown_falsy v : unknown v -> truthy v = false.
Proof. intros [-> | ->]; reflexivity. Qed.

(** The hook's [downloaded] and [total] variables for integer fields. *)
Lemma downloaded_value d x :
  dict_get d "downloaded_bytes" = VInt x \/
    (unknown (dict_get d "downloaded_bytes") /\ x = 0) ->
  py_or (dict_get d "downloaded_bytes") (VInt 0) = VInt x.
Proof.
  intros [Hx | [Hx ->]]; [|now rewrite py_or_unknown].
  rewrite Hx. unfold py_or. simpl. destruct (x =? 0) eqn:E; simpl; [|reflexivity].
  apply Z.eqb_eq in E. now subst.
Qed.

Lemma total_value d t :
  t <> 0 ->
  dict_get d "total_bytes" = VInt t \/
    (unknown (dict_get d "total_bytes") /\ dict_get d "total_bytes_estimate" = VInt t) ->
  py_or (py_or (dict_get d "total_bytes") (dict_get d "total_bytes_estimate")) (VInt 0)
  = VInt t.
Proof.
  intros Ht0 [Ht | [Hu Ht]].
  - rewrite (py_or_known _ _ t Ht) by exact Ht0. now apply py_or_known.
  - rewrite (py_or_unknown _ _ Hu). now apply py_or_known.
Qed.

Lemma downloaded_value_falsy d x :
  dict_get d "downloaded_bytes" = VInt x \/
    (truthy (dict_get d "downloaded_bytes") = false /\ x = 0) ->
  py_or (dict_get d "downloaded_bytes") (VInt 0) = VInt x.
Proof.
  intros [Hx | [Hx ->]]; [|now rewrite py_or_falsy].
  apply downloaded_value. now left.
Qed.

Lemma total_value_falsy d t :
  t <> 0 ->
  dict_get d "total_bytes" = VInt t \/
    (truthy (dict_get d "total_bytes") = false
     /\ dict_get d "total_bytes_estimate" = VInt t) ->
  py_or (py_or (dict_get d "total_bytes") (dict_get d "total_bytes_estimate")) (VInt 0)
  = VInt t.
Proof.
  intros Ht0 [Ht | [Hu Ht]].
  - apply total_value; [exact Ht0 | now left].
  - rewrite (py_or_falsy _ _ Hu). now apply py_or_known.
Qed.

Lemma percent_of_no_total d :
  truthy (dict_get d "total_bytes") = false ->
  truthy (dict_get d "total_bytes_estimate") = false ->
  percent_of d = Ok 0.
Proof.
  intros Hu Hu'. unfold percent_of.
  now rewrite (py_or_falsy _ _ Hu), (py_or_falsy _ _ Hu').
Qed.

Lemma percent_of_unknown_total d :
  unknown (dict_get d "total_bytes") -> unknown (dict_get d "total_bytes_estimate") ->
  percent_of d = Ok 0.
Proof. intros Hu Hu'. apply percent_of_no_total; now apply unknown_falsy. Qed.

(** What a "downloading" payload emits once its percentage is known. *)
Lemma hook_percent rt d q :
  eq_lit (dict_get d "status") "downloading" = true ->
  percent_of d = Ok q ->
  (forall p desc, In (progress p desc) (_progress_hook rt d).1 -> p = c_int q)
  /\ (forall s, desc_of rt d = Ok s ->
        _progress_hook rt d = ([progress (c_int q) (strip s)], Ok ())).
Proof.
  intros Hst Ep. rewrite (hook_downloading rt d Hst), Ep. split.
  - intros p desc. destruct (desc_of rt d); simpl; [|tauto].
    intros [H | []]. now inversion H.
  - now intros s ->.
Qed.

(** C3, the unrestricted statement fails.  [int(downloaded * 100 / total)]
    is a binary64 quotient truncated toward zero, not the floor of the exact
    quotient: they differ for 499999999999999999 bytes of 10^18 (50 against
    49), for a negative count (-33 against -34) and for a float total (1 byte
    of the float nearest to 100/3 gives 3 against 2).  And the signal carries
    a C [int]: for 21474837 bytes of 1 the floor is 2147483700, the signal's
    percentage -2147483596. *)
Lemma percent_floor_counterexample :
  (_progress_hook rt0 d_huge = ([progress 50 []], Ok ())
   /\ 499999999999999999 * 100 / 1000000000000000000 = 49)
  /\ (_progress_hook rt0 d_negative = ([progress (-33) []], Ok ())
      /\ -1 * 100 / 3 = -34)
  /\ (_progress_hook rt0 d_float_estimate = ([progress 3 []], Ok ())
      /\ valid_binary prec emax (S754_finite false 4691249611844267 (-47)) = true
      /\ (1 * 100 * 2 ^ 47) / 4691249611844267 = 2)
  /\ (_progress_hook rt0 d_wrap = ([progress (-2147483596) []], Ok ())
      /\ 21474837 * 100 / 1 = 2147483700).
Proof. vm_compute. repeat split. Qed.

(** C3, as amended.  For a "downloading" payload whose downloaded byte count
    is a non-negative integer [x] (0 when the field is missing, [None] or
    another false value) with [100 * x < 2^53 - 1], and whose [total_bytes],
    or else [total_bytes_estimate], is a positive integer [t], the percentage
    computed is [floor (x * 100 / t)]; every event the hook emits carries it
    as a C [int], which is the floor itself when that is below 2^31, and the
    hook emits as soon as the annotation evaluates.  When neither total is
    known the percentage is 0, whatever [downloaded_bytes] is. *)
Theorem percent_is_floor (rt : runtime) (d : gmap str value) :
  eq_lit (dict_get d "status") "downloading" = true ->
  (forall x t,
     dict_get d "downloaded_bytes" = VInt x \/
       (truthy (dict_get d "downloaded_bytes") = false /\ x = 0) ->
     0 <= x -> x * 100 < 2 ^ 53 - 1 ->
     dict_get d "total_bytes" = VInt t \/
       (truthy (dict_get d "total_bytes") = false
        /\ dict_get d "total_bytes_estimate" = VInt t) ->
     0 < t ->
     percent_of d = Ok (x * 100 / t)
     /\ (forall p desc, In (progress p desc) (_progress_hook rt d).1 ->
                        p = c_int (x * 100 / t))
     /\ (forall s, desc_of rt d = Ok s ->
           _progress_hook rt d = ([progress (c_int (x * 100 / t)) (strip s)], Ok ()))
     /\ (x * 100 / t < 2 ^ 31 -> c_int (x * 100 / t) = x * 100 / t))
  /\ (truthy (dict_get d "total_bytes") = false ->
      truthy (dict_get d "total_bytes_estimate") = false ->
      percent_of d = Ok 0
      /\ (forall p desc, In (progress p desc) (_progress_hook rt d).1 -> p = 0)
      /\ (forall s, desc_of rt d = Ok s ->
            _progress_hook rt d = ([progress 0 (strip s)], Ok ()))).
Proof.
  intros Hst. split.
  - intros x t Hx Hx0 Hx53 Ht Ht0.
    pose proof (downloaded_value_falsy d x Hx) as Ex.
    pose proof (total_value_falsy d t ltac:(lia) Ht) as Et.
    assert (Ep : percent_of d = Ok (x * 100 / t)).
    { rewrite (percent_of_ints d x t Ex Et).
      replace (t =? 0) with false by (symmetry; apply Z.eqb_neq; lia).
      apply int_truediv_floor; lia. }
    destruct (hook_percent rt d _ Hst Ep) as [H1 H2].
    split; [exact Ep|]. split; [exact H1|]. split; [exact H2|].
    intros Hlt. apply c_int_small.
    assert (0 <= x * 100 / t) by (apply Z.div_pos; lia). lia.
  - intros Hu Hu'.
    pose proof (percent_of_no_total d Hu Hu') as Ep.
    destruct (hook_percent rt d _ Hst Ep) as [H1 H2].
    split; [exact Ep|]. split; [exact H1 | exact H2].
Qed.

(** C3 at [total = 1000], [downloaded = 500]: the percentage is 50; and on
    a payload with neither total: the percentage is 0. *)
Lemma percent_is_floor_witness :
  (percent_of d_half = Ok 50
   /\ _progress_hook rt0 d_half = ([progress 50 []], Ok ()))
  /\ (percent_of d_no_total = Ok 0
      /\ _progress_hook rt0 d_no_total = ([progress 0 (lit "1024 KB/s")], Ok ())).
Proof.
  split.
  - destruct (percent_is_floor rt0 d_half eq_refl) as [H _].
    destruct (H 500 1000) as (H1 & _ & H3 & _).
    + left. reflexivity.
    + lia.
    + vm_compute. reflexivity.
    + left. reflexivity.
    + lia.
    + split; [exact H1|]. apply (H3 []). reflexivity.
  - destruct (percent_is_floor rt0 d_no_total eq_refl) as [_ H].
    destruct H as (H1 & _ & H3); [reflexivity | reflexivity |].
    split; [exact H1|]. apply (H3 (lit "1024 KB/s ")). vm_compute. reflexivity.
Defined.

(** C8, the unrestricted statement fails: 2000 bytes downloaded of an
    estimated 1000 are reported as 200 percent.  (1001 bytes of 1000 are
    reported as 100 percent: a count above the total need not show.) *)
Lemma percent_range_counterexample :
  _progress_hook rt0 d_over = ([progress 200 []], Ok ()) /\ ~ (0 <= 200 <= 100)
  /\ _progress_hook rt0 d_just_over = ([progress 100 []], Ok ()).
Proof. split; [vm_compute; reflexivity | split; [lia | vm_compute; reflexivity]]. Qed.

Lemma status_exclusive d :
  eq_lit (dict_get d "status") "downloading" = true ->
  eq_lit (dict_get d "status") "finished" = true -> False.
Proof.
  unfold eq_lit. destruct (dict_get d "status"); try discriminate.
  intros E1 E2. apply bool_decide_eq_true in E1, E2. subst s. discriminate.
Qed.

(** C8, as amended.  The percentage of an emitted progress event is a C
    [int].  It is 100 for a "finished" payload, 0 when neither total is
    known, and it lies between 0 and 100 whenever the byte counts are
    numbers, [int] or [float], with [0 <= downloaded <= total].  It is not
    clamped: for integer counts with [101 * total <= 100 * downloaded],
    [100 * downloaded < 2^53 - 1] and [100 * downloaded < 2^31 * total] it is
    above 100. *)
Theorem percent_in_range (rt : runtime) (d : gmap str value) (p : Z) (desc : str) :
  In (progress p desc) (_progress_hook rt d).1 ->
  - 2 ^ 31 <= p < 2 ^ 31
  /\ (eq_lit (dict_get d "status") "finished" = true -> p = 100)
  /\ (eq_lit (dict_get d "status") "downloading" = true ->
      truthy (dict_get d "total_bytes") = false ->
      truthy (dict_get d "total_bytes_estimate") = false -> p = 0)
  /\ (counts_in_order d -> 0 <= p <= 100)
  /\ (forall x t,
        eq_lit (dict_get d "status") "downloading" = true ->
        dict_get d "downloaded_bytes" = VInt x ->
        dict_get d "total_bytes" = VInt t \/
          (truthy (dict_get d "total_bytes") = false
           /\ dict_get d "total_bytes_estimate" = VInt t) ->
        0 < t -> 101 * t <= x * 100 -> x * 100 < 2 ^ 53 - 1 -> x * 100 < 2 ^ 31 * t ->
        100 < p).
Proof.
  intros Hin.
  destruct (eq_lit (dict_get d "status") "downloading") eqn:E1.
  - rewrite (hook_downloading rt d E1) in Hin.
    destruct (percent_of d) as [q|] eqn:Eq; [|destruct Hin].
    destruct (desc_of rt d); simpl in Hin; [|tauto].
    destruct Hin as [Hin | []]. injection Hin as <- _.
    split; [apply c_int_range|].
    split; [intros E2; destruct (status_exclusive d E1 E2)|].
    split; [|split].
    + intros _ Hu Hu'. rewrite (percent_of_no_total d Hu Hu') in Eq.
      injection Eq as <-. reflexivity.
    + intros Ho. pose proof (percent_in_order d q Ho Eq) as Hq.
      rewrite c_int_small; lia.
    + intros x t _ Hx Ht Ht0 Hover H53 H31.
      assert (Hx0 : 0 <= x) by lia.
      pose proof (downloaded_value_falsy d x (or_introl Hx)) as Ex.
      pose proof (total_value_falsy d t ltac:(lia) Ht) as Et.
      rewrite (percent_of_ints d x t Ex Et) in Eq.
      replace (t =? 0) with false in Eq by (symmetry; apply Z.eqb_neq; lia).
      rewrite (int_truediv_floor (x * 100) t) in Eq by lia.
      injection Eq as <-.
      assert (H1 : 101 <= x * 100 / t) by (apply Z.div_le_lower_bound; lia).
      assert (H2 : x * 100 / t < 2 ^ 31) by (apply Z.div_lt_upper_bound; lia).
      rewrite c_int_small; lia.
  - destruct (eq_lit (dict_get d "status") "finished") eqn:E2.
    + rewrite (hook_finished rt d E2) in Hin.
      destruct (prefix_of rt d); simpl in Hin; [|tauto].
      destruct Hin as [Hin | []]. injection Hin as <- _.
      split; [lia|]. split; [reflexivity|]. split; [discriminate|].
      split; [lia|]. discriminate.
    + rewrite (hook_other rt d E1 E2) in Hin. destruct Hin.
Qed.

(** C8 at [total = 1000], [downloaded = 500], and at 512 bytes of a total
    that is the float 1024.0. *)
Lemma percent_in_range_witness :
  (In (progress 50 []) (_progress_hook rt0 d_half).1 /\ 0 <= 50 <= 100)
  /\ (In (progress 50 []) (_progress_hook rt0 d_float_total).1
      /\ counts_in_order d_float_total).
Proof.
  split.
  - assert (Hin : In (progress 50 []) (_progress_hook rt0 d_half).1)
      by (vm_compute; left; reflexivity).
    split; [exact Hin|].
    apply (percent_in_range rt0 d_half 50 [] Hin).
    exists (NInt 500), (NInt 1000).
    split; [reflexivity|]. split; [reflexivity|]. split; [exact I|]. split; [exact I|].
    simpl. lra.
  - split; [vm_compute; left; reflexivity|].
    exists (NInt 512), (NFloat f1024).
    split; [reflexivity|]. split; [reflexivity|]. split; [exact I|].
    split; [reflexivity|].
    unfold num_val, F2R, f1024, cond_Zopp, p2. simpl powerRZ. lra.
Defined.

(** ** Text of an integer *)

Lemma str_of_int_ok (n : Z) :
  Z.abs n < 10 ^ max_str_digits -> str_of_int n = Ok (decimal n).
Proof. intros H. unfold str_of_int. now apply Z.ltb_lt in H as ->. Qed.

Lemma str_of_int_long (n : Z) :
  ~ Z.abs n < 10 ^ max_str_digits -> str_of_int n = Raised ValueError.
Proof. intros H. unfold str_of_int. now apply Z.ltb_nlt in H as ->. Qed.

Lemma str_of_int_cases (n : Z) :
  str_of_int n = Ok (decimal n) \/ str_of_int n = Raised ValueError.
Proof. unfold str_of_int. destruct (_ <? _); auto. Qed.

(** [int(x / y)] always has a text. *)
Lemma str_of_quotient x y q n :
  py_truediv x y = Ok q -> int_of_float q = Ok n -> str_of_int n = Ok (decimal n).
Proof.
  intros Hq Hn. apply str_of_int_ok.
  eapply Z.lt_trans; [exact (truediv_int_small x y q n Hq Hn)|].
  exact pow2_1024_digits.
Qed.

(** The speed field, with the text of its number. *)
Lemma speed_of_eq d :
  speed_of d =
  if truthy (dict_get d "speed") then
    q ← py_truediv (dict_get d "speed") (VInt 1024);
    n ← int_of_float q;
    Ok (decimal n ++ lit " KB/s ")
  else Ok [].
Proof.
  unfold speed_of. destruct (truthy (dict_get d "speed")); [|reflexivity].
  destruct (py_truediv _ _) as [q|] eqn:Eq; [|reflexivity].
  rewrite !bind_Ok.
  destruct (int_of_float q) as [n|] eqn:En; [|reflexivity].
  rewrite !bind_Ok. now rewrite (str_of_quotient _ _ q n Eq En).
Qed.

(** ** The playlist marker *)

Lemma dict_get_Some (m : gmap str value) k v :
  dict_get m k = v -> v <> VNone -> m !! lit k = Some v.
Proof.
  unfold dict_get. destruct (m !! lit k) as [w|]; simpl; intros <- H; [reflexivity | congruence].
Qed.

(** The marker of an integer index and a positive integer count: printed,
    or refused for the length of a number. *)
Lemma prefix_of_ints rt d info i c :
  dict_get d "info_dict" = VDict info ->
  dict_get info "playlist_index" = VInt i ->
  dict_get info "playlist_count" = VInt c ->
  0 < c ->
  prefix_of rt d
  = (s_index ← str_of_int i; s_count ← str_of_int c;
     Ok (lit "[" ++ s_index ++ lit "/" ++ s_count ++ lit "] ")).
Proof.
  intros Hd Hi Hc Hpos. unfold prefix_of. rewrite Hd.
  assert (Hne : info <> ∅).
  { intros ->. apply dict_get_Some in Hi; [|discriminate].
    rewrite lookup_empty in Hi. discriminate. }
  unfold py_or. simpl truthy. rewrite (bool_decide_eq_false_2 _ Hne). simpl.
  rewrite Hi, Hc. simpl.
  replace (0 <? c) with true by (symmetry; apply Z.ltb_lt; lia).
  reflexivity.
Qed.

Lemma prefix_of_meta rt d info i c :
  dict_get d "info_dict" = VDict info ->
  dict_get info "playlist_index" = VInt i ->
  dict_get info "playlist_count" = VInt c ->
  0 < c ->
  Z.abs i < 10 ^ max_str_digits -> c < 10 ^ max_str_digits ->
  prefix_of rt d = Ok (lit "[" ++ decimal i ++ lit "/" ++ decimal c ++ lit "] ").
Proof.
  intros Hd Hi Hc Hpos Hbi Hbc.
  rewrite (prefix_of_ints rt d info i c Hd Hi Hc Hpos).
  rewrite (str_of_int_ok i Hbi), (str_of_int_ok c) by lia. reflexivity.
Qed.

Lemma prefix_of_meta_cases rt d info i c :
  dict_get d "info_dict" = VDict info ->
  dict_get info "playlist_index" = VInt i ->
  dict_get info "playlist_count" = VInt c ->
  0 < c ->
  prefix_of rt d = Ok (lit "[" ++ decimal i ++ lit "/" ++ decimal c ++ lit "] ")
  \/ prefix_of rt d = Raised ValueError.
Proof.
  intros Hd Hi Hc Hpos.
  rewrite (prefix_of_ints rt d info i c Hd Hi Hc Hpos).
  destruct (str_of_int_cases i) as [-> | ->]; [|now right].
  destruct (str_of_int_cases c) as [-> | ->]; [now left | now right].
Qed.

Lemma prefix_of_long rt d info i c :
  dict_get d "info_dict" = VDict info ->
  dict_get info "playlist_index" = VInt i ->
  dict_get info "playlist_count" = VInt c ->
  0 < c ->
  ~ (Z.abs i < 10 ^ max_str_digits /\ c < 10 ^ max_str_digits) ->
  prefix_of rt d = Raised ValueError.
Proof.
  intros Hd Hi Hc Hpos Hb.
  rewrite (prefix_of_ints rt d info i c Hd Hi Hc Hpos).
  destruct (Z_lt_dec (Z.abs i) (10 ^ max_str_digits)) as [Hi' | Hi'].
  - rewrite (str_of_int_ok i Hi'), str_of_int_long; [reflexivity | lia].
  - now rewrite (str_of_int_long i Hi').
Qed.

Lemma prefix_of_no_meta rt d : no_playlist_meta d -> prefix_of rt d = Ok [].
Proof.
  intros [Hd | (info & Hd & Hi & Hc)]; unfold prefix_of; rewrite Hd.
  - reflexivity.
  - unfold py_or. simpl truthy. destruct (bool_decide (info = ∅)); simpl.
    + reflexivity.
    + now rewrite Hi, Hc.
Qed.

(** [str] of an instance of [int]. *)
Lemma py_str_int rt v :
  isinstance_int v = true ->
  (digits_ok v = true /\ exists s, py_str rt v = Ok s)
  \/ (digits_ok v = false /\ py_str rt v = Raised ValueError).
Proof.
  destruct v as [| [|] | n | | |]; try discriminate; intros _;
    try (left; split; [reflexivity | eexists; reflexivity]).
  simpl. unfold str_of_int. destruct (Z.abs n <? 10 ^ max_str_digits); eauto.
Qed.

(** The marker evaluates exactly when the metadata can be read and its
    numbers printed; it fails with an [AttributeError] or a [ValueError]. *)
Lemma prefix_of_ok_iff rt d :
  (exists pre, prefix_of rt d = Ok pre) <-> info_usable d /\ marker_renders d.
Proof.
  unfold prefix_of, info_usable, marker_renders, py_or.
  destruct (truthy (dict_get d "info_dict")) eqn:Et.
  - destruct (dict_get d "info_dict") as [| | | | |info] eqn:Ed;
      try (simpl; split;
           [intros [? ?]; discriminate
           | intros [[? | [? ?]] _]; discriminate]).
    simpl value_get.
    change (Ok (dict_get info "playlist_index") ≫= ?f)
      with (f (dict_get info "playlist_index")). cbv beta.
    change (Ok (dict_get info "playlist_count") ≫= ?f)
      with (f (dict_get info "playlist_count")). cbv beta.
    destruct (isinstance_int (dict_get info "playlist_index")) eqn:E1;
      [|split; [intros _; split; [eauto | intros ? [= <-]; congruence] | eauto]].
    destruct (isinstance_int (dict_get info "playlist_count")) eqn:E2;
      [|split; [intros _; split; [eauto | intros ? [= <-]; congruence] | eauto]].
    destruct (int_gt0 (dict_get info "playlist_count")) eqn:E3;
      [|split; [intros _; split; [eauto | intros ? [= <-]; congruence] | eauto]].
    simpl andb. cbv iota.
    destruct (py_str_int rt _ E1) as [[D1 [s1 ->]] | [D1 ->]];
      [|split; [intros [? ?]; discriminate
               | intros [_ H]; destruct (H info eq_refl E1 E2 E3); congruence]].
    destruct (py_str_int rt _ E2) as [[D2 [s2 ->]] | [D2 ->]];
      [|split; [intros [? ?]; discriminate
               | intros [_ H]; destruct (H info eq_refl E1 E2 E3); congruence]].
    split; [|eauto]. intros _. split; [eauto|]. intros ? [= <-]. auto.
  - split; [|eauto]. intros _. split; [now left|].
    intros info Ed. rewrite Ed in Et. simpl in Et.
    apply negb_false_iff, bool_decide_eq_true in Et. subst info.
    discriminate.
Qed.

Lemma prefix_of_error rt d c :
  prefix_of rt d = Raised c -> c = AttributeError \/ c = ValueError.
Proof.
  unfold prefix_of. destruct (py_or _ _); simpl; try (intros [= <-]; now left).
  destruct (isinstance_int (dict_get d0 "playlist_index")) eqn:E1; [|discriminate].
  destruct (isinstance_int (dict_get d0 "playlist_count")) eqn:E2; [|discriminate].
  destruct (int_gt0 _); [|discriminate]. simpl andb. cbv iota.
  destruct (py_str_int rt _ E1) as [[_ [s1 ->]] | [_ ->]]; [|intros [= <-]; now right].
  destruct (py_str_int rt _ E2) as [[_ [s2 ->]] | [_ ->]]; [discriminate|].
  intros [= <-]. now right.
Qed.

Lemma marker_assoc (I S C rest : str) :
  ([91%N] ++ I ++ S ++ C ++ [93%N; 32%N]) ++ rest
  = (91%N :: (I ++ S ++ C) ++ [93%N]) ++ 32%N :: rest.
Proof. cbn [app]. f_equal. rewrite <- !app_assoc. reflexivity. Qed.

Lemma marker_split (I S C s' : str) :
  (91%N :: (I ++ S ++ C) ++ [93%N]) ++ s' = ([91%N] ++ I ++ S ++ C ++ [93%N]) ++ s'.
Proof. cbn [app]. f_equal. rewrite <- !app_assoc. reflexivity. Qed.

Lemma marker_survives_strip (I C rest : str) :
  exists s',
    strip ((lit "[" ++ I ++ lit "/" ++ C ++ lit "] ") ++ rest)
    = (lit "[" ++ I ++ lit "/" ++ C ++ lit "]") ++ s'.
Proof.
  destruct (strip_keeps_prefix 91 93 (I ++ lit "/" ++ C) (32%N :: rest)) as [s' E];
    [reflexivity | reflexivity |].
  exists s'.
  change (lit "[") with [91%N]. change (lit "] ") with [93%N; 32%N].
  change (lit "]") with [93%N].
  rewrite marker_assoc, E. apply marker_split.
Qed.

Lemma desc_of_eq rt d :
  desc_of rt d =
  match prefix_of rt d, speed_of d, eta_of rt d with
  | Ok pre, Ok sp, Ok e => Ok (pre ++ sp ++ e)
  | Ok _, Ok _, Raised c => Raised c
  | Ok _, Raised c, _ => Raised c
  | Raised c, _, _ => Raised c
  end.
Proof.
  unfold desc_of. destruct (prefix_of rt d); [|reflexivity].
  destruct (speed_of d); [|reflexivity].
  destruct (eta_of rt d); reflexivity.
Qed.

Lemma eta_of_eq rt d :
  eta_of rt d =
  if is_not_None (dict_get d "eta") then
    match py_str rt (dict_get d "eta") with
    | Ok s => Ok (eta_text s)
    | Raised c => Raised c
    end
  else Ok [].
Proof.
  unfold eta_of. destruct (is_not_None _); [|reflexivity].
  destruct (py_str rt _); reflexivity.
Qed.

Lemma desc_head rt d s :
  no_playlist_meta d -> desc_of rt d = Ok s ->
  s = [] \/ exists c s', s = c :: s' /\ isspace c = false /\ c <> 91%N.
Proof.
  intros Hm. rewrite desc_of_eq, (prefix_of_no_meta rt d Hm).
  rewrite speed_of_eq, eta_of_eq. destruct (truthy (dict_get d "speed")).
  - destruct (py_truediv _ _) as [q|]; simpl; [|discriminate].
    destruct (int_of_float q) as [n|]; simpl; [|discriminate].
    destruct (decimal_head n) as (c & s' & E & Hc & Hne).
    destruct (if is_not_None _ then _ else _); [|discriminate].
    intros [= <-]. right. rewrite E. simpl. eauto.
  - destruct (is_not_None (dict_get d "eta")).
    + destruct (py_str rt _); [|discriminate]. intros [= <-].
      right. do 2 eexists. split; [reflexivity|]. split; [reflexivity | discriminate].
    + intros [= <-]. now left.
Qed.

(** C7.  For a payload whose [info_dict] carries an integer [playlist_index]
    [i] and a positive integer [playlist_count] [c], every annotation the
    hook emits starts with the marker [[i/c]].  When both numbers have a
    length [str] accepts, a "finished" payload always emits, and a
    "downloading" one whenever its percentage, speed and ETA evaluate; when
    one of them is longer, nothing is emitted.  For a payload without
    playlist metadata no emitted annotation starts with an opening
    bracket. *)
Theorem playlist_marker (rt : runtime) (d info : gmap str value) (i c : Z) :
  dict_get d "info_dict" = VDict info ->
  dict_get info "playlist_index" = VInt i ->
  dict_get info "playlist_count" = VInt c ->
  0 < c ->
  let marker := lit "[" ++ decimal i ++ lit "/" ++ decimal c ++ lit "]" in
  (forall p ann, In (progress p ann) (_progress_hook rt d).1 ->
                 startswith marker ann = true)
  /\ (Z.abs i < 10 ^ max_str_digits -> c < 10 ^ max_str_digits ->
      (eq_lit (dict_get d "status") "finished" = true ->
       exists ann, _progress_hook rt d = ([progress 100 ann], Ok ()))
      /\ (eq_lit (dict_get d "status") "downloading" = true ->
          forall p sp e, percent_of d = Ok p -> speed_of d = Ok sp ->
                         eta_of rt d = Ok e ->
          exists ann, _progress_hook rt d = ([progress (c_int p) ann], Ok ())))
  /\ (~ (Z.abs i < 10 ^ max_str_digits /\ c < 10 ^ max_str_digits) ->
      (_progress_hook rt d).1 = [])
  /\ (forall d', no_playlist_meta d' ->
      forall p ann, In (progress p ann) (_progress_hook rt d').1 ->
                    startswith (lit "[") ann = false).
Proof.
  intros Hd Hi Hc Hpos marker.
  split; [|split; [|split]].
  - intros p ann.
    destruct (prefix_of_meta_cases rt d info i c Hd Hi Hc Hpos) as [Hpre | Hpre];
      by_status rt d.
    + rewrite desc_of_eq, Hpre.
      destruct (percent_of d); [|intros []].
      destruct (speed_of d) as [sp|]; cbv beta iota; [|intros []].
      destruct (eta_of rt d) as [e|]; cbv beta iota; [|intros []].
      intros [H | []].
      destruct (marker_survives_strip (decimal i) (decimal c) (sp ++ e)) as [s' E].
      replace ann with ((lit "[" ++ decimal i ++ lit "/" ++ decimal c ++ lit "]") ++ s')
        by congruence.
      apply startswith_app.
    + rewrite Hpre. intros [H | []].
      destruct (marker_survives_strip (decimal i) (decimal c) s_merging) as [s' E].
      replace ann with ((lit "[" ++ decimal i ++ lit "/" ++ decimal c ++ lit "]") ++ s')
        by congruence.
      apply startswith_app.
    + intros [].
    + rewrite desc_of_eq, Hpre. destruct (percent_of d); intros [].
    + rewrite Hpre. intros [].
    + intros [].
  - intros Hbi Hbc.
    pose proof (prefix_of_meta rt d info i c Hd Hi Hc Hpos Hbi Hbc) as Hpre.
    split.
    + intros E2. rewrite (hook_finished rt d E2), Hpre. eauto.
    + intros E1 p sp e Hp Hsp He.
      rewrite (hook_downloading rt d E1), Hp, desc_of_eq, Hpre, Hsp, He. eauto.
  - intros Hb.
    pose proof (prefix_of_long rt d info i c Hd Hi Hc Hpos Hb) as Hpre.
    by_status rt d.
    + rewrite desc_of_eq, Hpre. now destruct (percent_of d).
    + now rewrite Hpre.
    + reflexivity.
  - intros d' Hm p ann. by_status rt d'.
    + destruct (percent_of d'); [|intros []].
      destruct (desc_of rt d') as [s|] eqn:Es; [|intros []].
      intros [H | []].
      destruct (desc_head rt d' s Hm Es) as [-> | (ch & s' & -> & Ha & Hne)].
      * replace ann with (strip []) by congruence. reflexivity.
      * destruct (strip_keeps_head ch s' Ha) as [s'' E].
        replace ann with (ch :: s'') by congruence.
        apply startswith_head_ne. intros Heq. apply Hne. now rewrite <- Heq.
    + rewrite (prefix_of_no_meta rt d' Hm).
      intros [H | []]. replace ann with (strip ([] ++ s_merging)) by congruence.
      reflexivity.
    + intros [].
Qed.

(** C7 at [playlist_index = 2], [playlist_count = 5]: the annotation starts
    with [[2/5]]. *)
Lemma playlist_marker_witness :
  _progress_hook rt0 d_playlist = ([progress 25 (lit "[2/5] 200 KB/s ETA 7s")], Ok ())
  /\ startswith (lit "[2/5]") (lit "[2/5] 200 KB/s ETA 7s") = true.
Proof.
  assert (Hh : _progress_hook rt0 d_playlist
               = ([progress 25 (lit "[2/5] 200 KB/s ETA 7s")], Ok ()))
    by (vm_compute; reflexivity).
  split; [exact Hh|].
  destruct (playlist_marker rt0 d_playlist
              (payload [("playlist_index", VInt 2); ("playlist_count", VInt 5)]%string)
              2 5) as [H _]; [reflexivity | reflexivity | reflexivity | lia |].
  apply (H 25). rewrite Hh. left. reflexivity.
Defined.

(** ** The merge-pending event *)

Lemma merging_survives_strip (pre : str) :
  exists u, strip (pre ++ s_merging) = u ++ s_merging.
Proof.
  apply (strip_keeps_suffix 48337 51473 [54633%N; 32%N] pre); reflexivity.
Qed.

(** C9, the unrestricted statement fails: a "finished" payload whose
    playlist index is 10^4300 makes the f-string of line 86 raise
    [ValueError], and no event is emitted. *)
Lemma finished_counterexample :
  eq_lit (dict_get d_finished_long "status") "finished" = true
  /\ _progress_hook rt0 d_finished_long = ([], Raised ValueError).
Proof. split; vm_compute; reflexivity. Qed.

(** C9, as amended.  A "finished" payload makes the hook emit one progress
    event exactly when its [info_dict] is a dict or counts as false, and the
    numbers of a marker it would print have a length [str] accepts;
    otherwise the hook raises [AttributeError] or [ValueError] and emits
    nothing.  An event emitted has percent 100 and an annotation that ends
    with the merge-pending text and so is not empty; it is not a terminal
    signal, and the status text it produces is never the one the success
    slot sets. *)
Theorem finished_is_merge_pending (rt : runtime) (d : gmap str value) :
  eq_lit (dict_get d "status") "finished" = true ->
  (info_usable d /\ marker_renders d <->
   exists ann, _progress_hook rt d = ([progress 100 ann], Ok ()))
  /\ (~ (info_usable d /\ marker_renders d) ->
      exists c, _progress_hook rt d = ([], Raised c)
                /\ (c = AttributeError \/ c = ValueError))
  /\ (forall p ann, In (progress p ann) (_progress_hook rt d).1 ->
        p = 100
        /\ ann <> []
        /\ endswith s_merging ann = true
        /\ is_terminal (progress p ann) = false
        /\ (forall w w',
              MainWindow.status_label (MainWindow.on_progress p ann w)
              <> MainWindow.status_label (MainWindow.on_finished w'))).
Proof.
  intros Hst. rewrite (hook_finished rt d Hst).
  pose proof (prefix_of_ok_iff rt d) as Hiff.
  destruct (prefix_of rt d) as [pre | c] eqn:Hpre.
  - split; [|split].
    + split; [eauto | intros _; apply Hiff; eauto].
    + intros Hn. exfalso. apply Hn, Hiff. eauto.
    + intros p ann [H | []]. injection H as <- <-.
      destruct (merging_survives_strip pre) as [u E]. rewrite E.
      split; [reflexivity|].
      split; [intros H; apply app_eq_nil in H as [_ H]; discriminate|].
      split; [apply endswith_app|].
      split; [reflexivity|].
      intros w w'. simpl. discriminate.
  - split; [|split].
    + split; [|intros [ann H]; discriminate].
      intros H. apply Hiff in H as [pre H]. discriminate.
    + intros _. exists c. split; [reflexivity | exact (prefix_of_error rt d c Hpre)].
    + intros p ann [].
Qed.

(** C9 on a finished playlist item. *)
Lemma finished_is_merge_pending_witness :
  exists ann,
    _progress_hook rt0 d_finished = ([progress 100 ann], Ok ())
    /\ ann <> [] /\ endswith s_merging ann = true.
Proof.
  destruct (finished_is_merge_pending rt0 d_finished eq_refl) as (H1 & _ & H3).
  destruct (proj1 H1) as [ann E].
  - split; [right; eexists; reflexivity|].
    intros info [= <-] _ _ _. split; reflexivity.
  - exists ann. split; [exact E|].
    destruct (H3 100 ann) as (_ & H4 & H5 & _); [rewrite E; left; reflexivity|].
    split; [exact H4 | exact H5].
Defined.

(** ** Guards of the hook *)

Lemma float_of_int_error b c : float_of_int b = Raised c -> c = OverflowError.
Proof.
  unfold float_of_int. destruct (binary_normalize prec emax b 0 false); congruence.
Qed.

Lemma int_of_float_error q c : int_of_float q = Raised c -> hook_error c = true.
Proof. destruct q; intros [= <-]; reflexivity. Qed.

Lemma int_truediv_error a b c :
  b <> 0 -> int_truediv a b = Raised c -> c = OverflowError.
Proof.
  intros Hb. unfold int_truediv. apply Z.eqb_neq in Hb. rewrite Hb.
  destruct a; [discriminate | |];
    match goal with
    | |- context [SFdiv ?p ?e ?x ?y] => destruct (SFdiv p e x y)
    end; congruence.
Qed.

Lemma float_truediv_nonzero f g :
  float_is_zero g = false -> float_truediv f g = Ok (SFdiv prec emax f g).
Proof. intros H. unfold float_truediv. now rewrite H. Qed.

Lemma py_truediv_error x y c :
  truthy y = true -> py_truediv x y = Raised c -> hook_error c = true.
Proof.
  intros Ht. unfold py_truediv.
  destruct (as_number y) as [n|] eqn:Ey.
  - pose proof (truthy_number y n Ht Ey) as Hn.
    destruct (as_number x) as [[a | f]|]; [| |intros [= <-]; reflexivity];
      destruct n as [b | g].
    + intros H. now rewrite (int_truediv_error a b c Hn H).
    + destruct (float_of_int a) as [fa|c'] eqn:Ea; simpl.
      * now rewrite float_truediv_nonzero.
      * intros [= <-]. now rewrite (float_of_int_error a c' Ea).
    + destruct (float_of_int b) as [g|c'] eqn:Eb; simpl.
      * now rewrite (float_truediv_nonzero f g (float_of_int_nonzero b g Hn Eb)).
      * intros [= <-]. now rewrite (float_of_int_error b c' Eb).
    + now rewrite float_truediv_nonzero.
  - destruct (as_number x) as [[a | f]|]; intros [= <-]; reflexivity.
Qed.

Lemma py_mul_100_error x c :
  py_mul x (VInt 100) = Raised c -> hook_error c = true.
Proof.
  unfold py_mul. destruct x; simpl; try discriminate; try (intros [= <-]; reflexivity).
Qed.

Lemma percent_of_error d c : percent_of d = Raised c -> hook_error c = true.
Proof.
  unfold percent_of.
  set (total := py_or (py_or _ _) _). set (downloaded := py_or _ _).
  destruct (truthy total) eqn:Et; [|discriminate].
  destruct (py_mul downloaded (VInt 100)) as [x|c'] eqn:Ex; simpl.
  - destruct (py_truediv x total) as [q|c'] eqn:Eq; simpl.
    + apply int_of_float_error.
    + intros [= <-]. exact (py_truediv_error x total c' Et Eq).
  - intros [= <-]. exact (py_mul_100_error downloaded c' Ex).
Qed.

Lemma speed_of_error d c : speed_of d = Raised c -> hook_error c = true.
Proof.
  rewrite speed_of_eq. destruct (truthy (dict_get d "speed")); [|discriminate].
  destruct (py_truediv (dict_get d "speed") (VInt 1024)) as [q|c'] eqn:Eq; simpl.
  - destruct (int_of_float q) as [n|c'] eqn:En; simpl; [discriminate|].
    intros [= <-]. exact (int_of_float_error q c' En).
  - intros [= <-]. exact (py_truediv_error _ (VInt 1024) c' eq_refl Eq).
Qed.

(** [str] fails with a [ValueError] for a long integer, or with what [repr]
    of a dict raises. *)
Lemma py_str_error rt v c :
  py_str rt v = Raised c ->
  c = ValueError \/ exists dd, v = VDict dd /\ dict_repr rt dd = Raised c.
Proof.
  destruct v as [| [|] | n | | |dd]; simpl; try discriminate.
  - unfold str_of_int. destruct (_ <? _); [discriminate|]. intros [= <-]. now left.
  - intros H. right. eauto.
Qed.

Lemma eta_of_error rt d c :
  eta_of rt d = Raised c ->
  c = ValueError \/ exists dd, dict_get d "eta" = VDict dd /\ dict_repr rt dd = Raised c.
Proof.
  rewrite eta_of_eq. destruct (is_not_None _); [|discriminate].
  destruct (py_str rt (dict_get d "eta")) as [s|c'] eqn:E; [discriminate|].
  intros [= <-]. exact (py_str_error rt _ c' E).
Qed.

(** The annotation fails with one of the four classes, or with what [repr]
    of a dict [eta] raises. *)
Lemma desc_of_error rt d c :
  desc_of rt d = Raised c ->
  hook_error c = true
  \/ exists dd, dict_get d "eta" = VDict dd /\ dict_repr rt dd = Raised c.
Proof.
  rewrite desc_of_eq.
  destruct (prefix_of rt d) as [pre|c'] eqn:Ep.
  - destruct (speed_of d) as [sp|c''] eqn:Es.
    + destruct (eta_of rt d) as [e|c3] eqn:Ee; [discriminate|].
      intros [= <-]. destruct (eta_of_error rt d c3 Ee) as [-> | H]; [now left | now right].
    + intros [= <-]. left. exact (speed_of_error d c'' Es).
  - intros [= <-]. left. destruct (prefix_of_error rt d c' Ep) as [-> | ->]; reflexivity.
Qed.

Lemma hook_error_not_zero_division c : hook_error c = true -> c <> ZeroDivisionError.
Proof. intros H ->. discriminate. Qed.




(** ** Traces of the worker *)

Lemma count_terminal_app tr tr' :
  count_terminal (tr ++ tr') = (count_terminal tr + count_terminal tr')%nat.
Proof. induction tr as [|s tr IH]; simpl; [reflexivity | rewrite IH; lia]. Qed.

Lemma count_terminal_none tr :
  count_terminal tr = 0%nat -> Forall (fun s => is_terminal s = false) tr.
Proof.
  induction tr as [|s tr IH]; simpl; intros H; constructor.
  - destruct (is_terminal s); [simpl in H; lia | reflexivity].
  - apply IH. destruct (is_terminal s); simpl in H; lia.
Qed.

Lemma hook_no_terminal rt d : count_terminal (_progress_hook rt d).1 = 0%nat.
Proof. destruct (hook_trace rt d) as [-> | (p & desc & ->)]; reflexivity. Qed.

Lemma build_opts_callbacks rt self :
  progress_hooks (build_opts rt self) = [_progress_hook rt]
  /\ logger (build_opts rt self) = _build_logger rt.
Proof. unfold build_opts. destruct (ffmpeg_available self); split; reflexivity. Qed.

Lemma call_hooks_no_terminal rt d :
  count_terminal (call_hooks [_progress_hook rt] d).1 = 0%nat.
Proof.
  simpl. pose proof (hook_no_terminal rt d) as H.
  destruct (_progress_hook rt d) as [tr [[]|c]]; simpl in *;
    rewrite ?app_nil_r; exact H.
Qed.

(** No callback of the worker emits a terminal signal. *)
Lemma drive_no_terminal rt self b :
  count_terminal (drive (build_opts rt self) b).1 = 0%nat.
Proof.
  destruct (build_opts_callbacks rt self) as [Hh Hl].
  induction b as [| e | d k IH | msg k IH | msg k IH | msg k IH]; simpl;
    rewrite ?Hh, ?Hl; try reflexivity.
  - pose proof (call_hooks_no_terminal rt d) as Hc.
    destruct (call_hooks [_progress_hook rt] d) as [tr r].
    specialize (IH (raised_class r)).
    destruct (drive (build_opts rt self) (k (raised_class r))) as [tr' o].
    simpl in *. rewrite count_terminal_app. lia.
  - destruct (drive (build_opts rt self) k) as [tr' o]. simpl in *. exact IH.
  - destruct (drive (build_opts rt self) k) as [tr' o]. simpl in *. exact IH.
  - destruct (drive (build_opts rt self) k) as [tr' o]. simpl in *. exact IH.
Qed.

Lemma with_block_no_terminal rt yt_dlp self :
  count_terminal (with_block yt_dlp (build_opts rt self) self).1 = 0%nat.
Proof.
  unfold with_block. destruct (yt_dlp (build_opts rt self)) as [e | ydl]; [reflexivity|].
  pose proof (drive_no_terminal rt self (download ydl [url self])) as H.
  destruct (drive _ _) as [tr o]. simpl in *. exact H.
Qed.

(** C1, the unrestricted statement fails: when the download call ends in
    [SystemExit], which [except Exception] does not select, [run] emits no
    terminal signal and the exception leaves it. *)
Lemma one_terminal_counterexample :
  run rt0 (engine_raising exn_exit) worker0
  = {| emitted := [log s_collecting]; escaped := Some exn_exit |}
  /\ count_terminal (emitted (run rt0 (engine_raising exn_exit) worker0)) = 0%nat.
Proof. split; reflexivity. Qed.

(** C1, as amended.  When the [with] block of [run] ends normally, [run]
    emits exactly one terminal signal, [finished], as its last signal; when
    it ends with an exception [e] that is an instance of [Exception], [run]
    emits exactly one terminal signal, [error (str e)], as its last signal;
    in both cases nothing escapes [run].  When the block ends with any other
    exception, of class [KeyboardInterrupt], [SystemExit] or
    [GeneratorExit], [run] emits no terminal signal and the exception
    escapes it. *)
Theorem one_terminal_event (rt : runtime) (yt_dlp : engine) (self : t) :
  let r := run rt yt_dlp self in
  match (with_block yt_dlp (build_opts rt self) self).2 with
  | None =>
      (exists pre, emitted r = pre ++ [finished] /\ count_terminal pre = 0%nat)
      /\ count_terminal (emitted r) = 1%nat
      /\ escaped r = None
  | Some e =>
      if is_Exception (exn_class e) then
        (exists pre, emitted r = pre ++ [error (exn_str e)]
                     /\ count_terminal pre = 0%nat)
        /\ count_terminal (emitted r) = 1%nat
        /\ escaped r = None
      else
        count_terminal (emitted r) = 0%nat
        /\ escaped r = Some e
        /\ (exn_class e = KeyboardInterrupt \/ exn_class e = SystemExit
            \/ exn_class e = GeneratorExit)
  end.
Proof.
  intros r. unfold r, run.
  pose proof (with_block_no_terminal rt yt_dlp self) as Hnt.
  destruct (with_block yt_dlp (build_opts rt self) self) as [tr [e|]]; simpl in *.
  - destruct (is_Exception (exn_class e)) eqn:He; simpl.
    + rewrite count_terminal_app, Hnt. split; [eauto|]. split; reflexivity.
    + split; [exact Hnt|]. split; [reflexivity|].
      destruct (exn_class e); try discriminate; auto.
  - rewrite count_terminal_app, Hnt. split; [eauto|]. split; reflexivity.
Qed.

(** C1 on an engine that returns and on one that raises a download error. *)
Lemma one_terminal_event_witness :
  count_terminal (emitted (run rt0 (engine_ok d_half d_finished) worker0)) = 1%nat
  /\ count_terminal (emitted (run rt0 (engine_raising exn_download) worker0)) = 1%nat.
Proof.
  split.
  - exact (proj1 (proj2 (one_terminal_event rt0 (engine_ok d_half d_finished) worker0))).
  - exact (proj1 (proj2 (one_terminal_event rt0 (engine_raising exn_download) worker0))).
Defined.

(** C2, the unrestricted statement fails: a [KeyboardInterrupt] raised by the
    download call is not caught and no failure signal is emitted. *)
Lemma engine_error_counterexample :
  run rt0 (engine_raising exn_interrupt) worker0
  = {| emitted := [log s_collecting]; escaped := Some exn_interrupt |}
  /\ ~ In (error (exn_str exn_interrupt))
          (emitted (run rt0 (engine_raising exn_interrupt) worker0)).
Proof.
  split; [reflexivity|]. simpl. intros [H | []]. discriminate.
Qed.

(** C2, as amended.  When the download call raises an instance [e] of
    [Exception] and leaving the engine's context raises nothing, [run] emits
    the start-up log line, the signals of that one call, and then
    [error (str e)], which is its only terminal signal; the window's slot for
    that signal enables the start button.  The call is not repeated. *)
Theorem engine_error_reported
    (rt : runtime) (yt_dlp : engine) (self : t) (ydl : YoutubeDL)
    (tr : list signal) (e : exn) :
  yt_dlp (build_opts rt self) = inr ydl ->
  drive (build_opts rt self) (download ydl [url self]) = (tr, Some e) ->
  exit_raises ydl = None ->
  is_Exception (exn_class e) = true ->
  run rt yt_dlp self
  = {| emitted := log s_collecting :: tr ++ [error (exn_str e)]; escaped := None |}
  /\ count_terminal (log s_collecting :: tr) = 0%nat
  /\ (forall w, MainWindow.start_btn_enabled
                  (MainWindow.deliver w (error (exn_str e))) = true).
Proof.
  intros Hy Hd Hx He.
  pose proof (drive_no_terminal rt self (download ydl [url self])) as Hnt.
  unfold run, with_block. rewrite Hy, Hd, Hx, He. rewrite Hd in Hnt.
  split; [reflexivity|]. split; [exact Hnt | reflexivity].
Qed.

(** C2 on an engine whose download raises a download error. *)
Lemma engine_error_reported_witness :
  run rt0 (engine_raising exn_download) worker0
  = {| emitted := [log s_collecting; error (lit "Video unavailable")];
       escaped := None |}.
Proof.
  destruct (engine_error_reported rt0 (engine_raising exn_download) worker0
              {| download := fun _ => Raises exn_download; exit_raises := None |}
              [] exn_download) as [H _];
    [reflexivity | reflexivity | reflexivity | reflexivity | exact H].
Defined.

(** C4.  When ffmpeg is not available the option dictionary asks for
    ["best[ext=mp4]/best"]: every alternative is a single pre-muxed stream
    selector, none joins streams with [+], and no merge container is
    requested.  This dictionary is the one [run] hands to the engine: an
    engine that refuses its options with a message reading them off makes
    [run] report what this dictionary holds, its format for one, and [run]
    depends on the engine only through what it does with this dictionary. *)
Theorem no_merge_single_stream (rt : runtime) (self : t) :
  ffmpeg_available self = false ->
  format (build_opts rt self) = lit "best[ext=mp4]/best"
  /\ merge_output_format (build_opts rt self) = None
  /\ Forall (fun alt => single_stream alt = true)
            (alternatives (format (build_opts rt self)))
  /\ existsb asks_merge (alternatives (format (build_opts rt self))) = false
  /\ (forall obs, run rt (engine_probe obs) self
                  = {| emitted := [error (obs (build_opts rt self))];
                       escaped := None |})
  /\ run rt (engine_probe format) self
     = {| emitted := [error (lit "best[ext=mp4]/best")]; escaped := None |}
  /\ run rt (engine_probe (fun opts => default [] (merge_output_format opts))) self
     = {| emitted := [error []]; escaped := None |}
  /\ (forall yt1 yt2, yt1 (build_opts rt self) = yt2 (build_opts rt self) ->
                      run rt yt1 self = run rt yt2 self).
Proof.
  intros Hf.
  assert (Hprobe : forall obs, run rt (engine_probe obs) self
                               = {| emitted := [error (obs (build_opts rt self))];
                                    escaped := None |}) by reflexivity.
  split; [|split; [|split; [|split; [|split; [exact Hprobe|split; [|split]]]]]].
  - unfold build_opts. now rewrite Hf.
  - unfold build_opts. now rewrite Hf.
  - unfold build_opts. rewrite Hf. cbn [format]. vm_compute. repeat constructor.
  - unfold build_opts. now rewrite Hf.
  - rewrite Hprobe. unfold build_opts. now rewrite Hf.
  - rewrite Hprobe. unfold build_opts. now rewrite Hf.
  - intros yt1 yt2 E. unfold run, with_block. now rewrite E.
Qed.

(** C4 on a worker without ffmpeg. *)
Lemma no_merge_single_stream_witness :
  format (build_opts rt0 worker0) = lit "best[ext=mp4]/best"
  /\ alternatives (format (build_opts rt0 worker0)) = [lit "best[ext=mp4]"; lit "best"]
  /\ run rt0 (engine_probe format) worker0
     = {| emitted := [error (lit "best[ext=mp4]/best")]; escaped := None |}.
Proof.
  destruct (no_merge_single_stream rt0 worker0 eq_refl) as (H & _ & _ & _ & _ & H' & _).
  split; [exact H|]. split; [reflexivity | exact H'].
Defined.

Import MainWindow.

(** ** The window's slots *)

(** C5.  When the URL is empty, or the destination is empty or not an
    existing directory (both taken after trimming, as the handler does),
    [on_start] shows one warning dialog and changes nothing else: the thread
    and worker fields and the start button are as before. *)
Theorem invalid_input_rejected (isdir : str -> bool) (w : t) :
  url_edit w = [] \/ strip (url_edit w) = [] \/
  path_edit w = [] \/ strip (path_edit w) = [] \/
  isdir (strip (path_edit w)) = false ->
  (exists text, on_start isdir w = warn s_input_error text w
                /\ dialogs (on_start isdir w) = dialogs w ++ [(s_input_error, text)])
  /\ thread (on_start isdir w) = thread w
  /\ worker (on_start isdir w) = worker w
  /\ start_btn_enabled (on_start isdir w) = start_btn_enabled w.
Proof.
  intros H.
  assert (H' : strip (url_edit w) = [] \/ strip (path_edit w) = [] \/
               isdir (strip (path_edit w)) = false).
  { destruct H as [H | [H | [H | [H | H]]]]; auto; rewrite H; auto. }
  clear H. unfold on_start.
  destruct (bool_decide (strip (url_edit w) = [])) eqn:E1;
    [split; [eexists; split; reflexivity | auto]|].
  destruct (bool_decide (strip (path_edit w) = [])) eqn:E2;
    [split; [eexists; split; reflexivity | auto]|].
  destruct (isdir (strip (path_edit w))) eqn:E3;
    [|split; [eexists; split; reflexivity | auto]].
  exfalso. apply bool_decide_eq_false in E1, E2.
  destruct H' as [H | [H | H]]; congruence.
Qed.

(** C5 on a destination that does not exist. *)
Lemma invalid_input_rejected_witness :
  thread (on_start isdir0 window_bad_dir) = None
  /\ worker (on_start isdir0 window_bad_dir) = None
  /\ start_btn_enabled (on_start isdir0 window_bad_dir) = true
  /\ dialogs (on_start isdir0 window_bad_dir) = [(s_input_error, s_invalid_folder)].
Proof.
  destruct (invalid_input_rejected isdir0 window_bad_dir) as (_ & H1 & H2 & H3).
  - right; right; right; right. reflexivity.
  - split; [exact H1|]. split; [exact H2|]. split; [exact H3 | reflexivity].
Defined.

Lemma deliver_nonterminal w s :
  is_terminal s = false ->
  start_btn_enabled (deliver w s) = start_btn_enabled w
  /\ thread (deliver w s) = thread w
  /\ worker (deliver w s) = worker w.
Proof. destruct s; simpl; intros H; try discriminate; auto. Qed.

Lemma deliver_terminal w s th :
  is_terminal s = true -> thread w = Some th ->
  start_btn_enabled (deliver w s) = true
  /\ thread (deliver w s) = None
  /\ worker (deliver w s) = None.
Proof.
  destruct s; simpl; intros H Ht; try discriminate; rewrite Ht; auto.
Qed.

(** While a job is active only its terminal signal re-enables the start
    button, and it does so once. *)
Lemma job_trace_reenables_once pre :
  forall w0 th s,
    start_btn_enabled w0 = false -> thread w0 = Some th ->
    (forall x, In x pre -> is_terminal x = false) ->
    is_terminal s = true ->
    reenabled w0 (deliver_all w0 (pre ++ [s])) = 1%nat
    /\ Forall (fun w' => start_btn_enabled w' = false
                         /\ thread w' = thread w0 /\ worker w' = worker w0)
              (deliver_all w0 pre)
    /\ exists wf, last (deliver_all w0 (pre ++ [s])) = Some wf
                  /\ start_btn_enabled wf = true
                  /\ thread wf = None /\ worker wf = None.
Proof.
  induction pre as [|x pre IH]; intros w0 th s Hen Hth Hpre Hs.
  - destruct (deliver_terminal w0 s th Hs Hth) as (H1 & H2 & H3).
    simpl. rewrite Hen, H1. simpl.
    split; [reflexivity|]. split; [constructor|].
    exists (deliver w0 s). auto.
  - assert (Hx : is_terminal x = false) by (apply Hpre; now left).
    destruct (deliver_nonterminal w0 x Hx) as (H1 & H2 & H3).
    destruct (IH (deliver w0 x) th s) as (I1 & I2 & wf & I3 & I4);
      [congruence | congruence | intros y Hy; apply Hpre; now right | exact Hs |].
    simpl. rewrite H1, Hen. simpl.
    split; [exact I1|]. split.
    + constructor; [rewrite H1; auto|].
      eapply Forall_impl; [exact I2|]. simpl. intros w' (A & B & C).
      split; [exact A|]. split; congruence.
    + exists wf. split; [|exact I4].
      destruct (deliver_all (deliver w0 x) (pre ++ [s])) eqn:E; [discriminate | exact I3].
Qed.

(** Signals none of which is terminal leave the start button disabled. *)
Lemma job_trace_never_reenables tr :
  forall w0,
    start_btn_enabled w0 = false ->
    Forall (fun x => is_terminal x = false) tr ->
    reenabled w0 (deliver_all w0 tr) = 0%nat
    /\ Forall (fun w' => start_btn_enabled w' = false
                         /\ thread w' = thread w0 /\ worker w' = worker w0)
              (deliver_all w0 tr).
Proof.
  induction tr as [|x tr IH]; intros w0 Hen Hall; [split; constructor|].
  apply Forall_cons in Hall as [Hx Hall].
  destruct (deliver_nonterminal w0 x Hx) as (H1 & H2 & H3).
  destruct (IH (deliver w0 x)) as (I1 & I2); [congruence | exact Hall |].
  simpl. rewrite H1, Hen. simpl. split; [exact I1|].
  constructor; [rewrite H1; auto|].
  eapply Forall_impl; [exact I2|]. simpl. intros w' (A & B & C).
  split; [exact A|]. split; congruence.
Qed.

(** C6, the unrestricted statement fails: for valid input and an engine
    whose download ends in [SystemExit], the job emits no terminal signal and
    the start button is never re-enabled. *)
Lemma start_counterexample :
  (strip (url_edit window0) <> [] /\ strip (path_edit window0) <> []
   /\ isdir0 (strip (path_edit window0)) = true)
  /\ worker (on_start isdir0 window0) = Some (job_of window0)
  /\ DownloadWorker.escaped
       (DownloadWorker.run rt0 (engine_raising exn_exit) (job_of window0))
     = Some exn_exit
  /\ reenabled (on_start isdir0 window0)
       (deliver_all (on_start isdir0 window0)
          (DownloadWorker.emitted
             (DownloadWorker.run rt0 (engine_raising exn_exit) (job_of window0))))
     = 0%nat.
Proof.
  split; [split; [vm_compute; discriminate|split; [vm_compute; discriminate|reflexivity]]|].
  split; [reflexivity|]. split; reflexivity.
Qed.

(** C6, as amended.  For a non-empty source and an existing destination
    directory (after trimming), [on_start] disables the start button, sets
    the progress bar to 0, clears the log and holds a running thread and the
    worker of the job.  Along the signals that [run] emits for this worker,
    when the engine block ends normally or with an instance of [Exception],
    the button is re-enabled exactly once: the signals are some non-terminal
    ones, through which the button stays disabled with thread and worker
    held, and then one terminal signal, whose slot enables the button and
    clears both fields.  When the block ends with another exception the
    button is never re-enabled and thread and worker stay held. *)
Theorem start_disables_until_terminal
    (rt : runtime) (isdir : str -> bool) (yt_dlp : engine) (w : t) :
  strip (url_edit w) <> [] ->
  strip (path_edit w) <> [] ->
  isdir (strip (path_edit w)) = true ->
  let w1 := on_start isdir w in
  let job := {| DownloadWorker.url := strip (url_edit w);
                DownloadWorker.output_dir := strip (path_edit w);
                DownloadWorker.ffmpeg_available := ffmpeg_available w |} in
  let tr := DownloadWorker.emitted (DownloadWorker.run rt yt_dlp job) in
  let outcome := (DownloadWorker.with_block yt_dlp (DownloadWorker.build_opts rt job) job).2 in
  start_btn_enabled w1 = false
  /\ progress_value w1 = 0
  /\ log_view w1 = []
  /\ thread w1 = Some {| running := true |}
  /\ worker w1 = Some job
  /\ ((forall e, outcome = Some e -> is_Exception (exn_class e) = true) ->
      reenabled w1 (deliver_all w1 tr) = 1%nat
      /\ exists pre s,
           tr = pre ++ [s]
           /\ is_terminal s = true
           /\ Forall (fun w' => start_btn_enabled w' = false
                                /\ thread w' = thread w1 /\ worker w' = worker w1)
                     (deliver_all w1 pre)
           /\ exists wf, last (deliver_all w1 tr) = Some wf
                         /\ start_btn_enabled wf = true
                         /\ thread wf = None /\ worker wf = None)
  /\ (forall e, outcome = Some e -> is_Exception (exn_class e) = false ->
      reenabled w1 (deliver_all w1 tr) = 0%nat
      /\ Forall (fun w' => start_btn_enabled w' = false
                           /\ thread w' = thread w1 /\ worker w' = worker w1)
                (deliver_all w1 tr)).
Proof.
  intros Hu Hp Hd w1 job tr outcome.
  assert (E : w1 = {| url_edit := url_edit w; path_edit := path_edit w;
                      start_btn_enabled := false; progress_value := 0;
                      status_label := s_starting; log_view := [];
                      thread := Some {| running := true |};
                      worker := Some job;
                      ffmpeg_available := ffmpeg_available w;
                      dialogs := dialogs w |}).
  { unfold w1, on_start.
    rewrite (bool_decide_eq_false_2 _ Hu), (bool_decide_eq_false_2 _ Hp), Hd.
    reflexivity. }
  repeat (split; [rewrite E; reflexivity|]).
  pose proof (with_block_no_terminal rt yt_dlp job) as Hnt.
  apply count_terminal_none in Hnt.
  assert (Hen : start_btn_enabled w1 = false) by (rewrite E; reflexivity).
  assert (Hth : thread w1 = Some {| running := true |}) by (rewrite E; reflexivity).
  assert (Honce : forall pre s,
            Forall (fun x => is_terminal x = false) pre -> is_terminal s = true ->
            reenabled w1 (deliver_all w1 (pre ++ [s])) = 1%nat
            /\ exists pre' s',
                 pre ++ [s] = pre' ++ [s']
                 /\ is_terminal s' = true
                 /\ Forall (fun w' => start_btn_enabled w' = false
                                      /\ thread w' = thread w1 /\ worker w' = worker w1)
                           (deliver_all w1 pre')
                 /\ exists wf, last (deliver_all w1 (pre ++ [s])) = Some wf
                               /\ start_btn_enabled wf = true
                               /\ thread wf = None /\ worker wf = None).
  { intros pre s Hpre Hs.
    destruct (job_trace_reenables_once pre w1 {| running := true |} s Hen Hth)
      as (H1 & H2 & H3); [apply List.Forall_forall; exact Hpre | exact Hs |].
    split; [exact H1|]. exists pre, s. auto. }
  unfold tr, outcome, DownloadWorker.run.
  destruct (DownloadWorker.with_block yt_dlp (DownloadWorker.build_opts rt job) job)
    as [blk [e|]]; cbn [fst snd] in *.
  - split.
    + intros Hexc. rewrite (Hexc e eq_refl). cbn [DownloadWorker.emitted].
      apply Honce; [exact Hnt | reflexivity].
    + intros e' [= <-] He. rewrite He. cbn [DownloadWorker.emitted].
      now apply job_trace_never_reenables.
  - split; [|intros e' H; discriminate].
    intros _. cbn [DownloadWorker.emitted]. apply Honce; [exact Hnt | reflexivity].
Qed.

(** C6 on the signals of a run that reports two payloads and a warning. *)
Lemma start_disables_until_terminal_witness :
  let w1 := on_start isdir0 window0 in
  let tr := DownloadWorker.emitted
              (DownloadWorker.run rt0 (engine_ok d_half d_finished)
                 {| DownloadWorker.url := lit "https://example.org/v";
                    DownloadWorker.output_dir := lit "/tmp";
                    DownloadWorker.ffmpeg_available := false |}) in
  worker w1 = Some {| DownloadWorker.url := lit "https://example.org/v";
                      DownloadWorker.output_dir := lit "/tmp";
                      DownloadWorker.ffmpeg_available := false |}
  /\ start_btn_enabled w1 = false
  /\ reenabled w1 (deliver_all w1 tr) = 1%nat.
Proof.
  intros w1 tr.
  destruct (start_disables_until_terminal rt0 isdir0 (engine_ok d_half d_finished) window0)
    as (H1 & _ & _ & _ & H5 & H6 & _).
  - vm_compute. discriminate.
  - vm_compute. discriminate.
  - reflexivity.
  - split; [exact H5|]. split; [exact H1|].
    apply H6. intros e He. vm_compute in He. discriminate.
Defined.

(** * Further properties of the code *)

(** ** White space at the ends of a text *)

Lemma lstrip_idem (s : str) : lstrip (lstrip s) = lstrip s.
Proof.
  induction s as [|c s IH]; simpl; [reflexivity|].
  destruct (isspace c) eqn:E; [exact IH | simpl; now rewrite E].
Qed.

Lemma rstrip_idem (s : str) : rstrip (rstrip s) = rstrip s.
Proof. unfold rstrip. now rewrite rev_involutive, lstrip_idem. Qed.

Lemma lstrip_head (s : str) :
  lstrip s = [] \/ exists c t, lstrip s = c :: t /\ isspace c = false.
Proof.
  induction s as [|c s IH]; simpl; [now left|].
  destruct (isspace c) eqn:E; [exact IH | right; eauto].
Qed.

Lemma strip_idem (s : str) : strip (strip s) = strip s.
Proof.
  unfold strip.
  destruct (lstrip_head s) as [E | (c & t & E & Hc)]; rewrite E; [reflexivity|].
  destruct (strip_keeps_head c t Hc) as [t' E'].
  unfold strip in E'. rewrite (lstrip_cons_nonspace c t Hc) in E'.
  rewrite E', (lstrip_cons_nonspace c t' Hc), <- E'. apply rstrip_idem.
Qed.

Lemma strip_blank (s : str) : forallb isspace s = true -> strip s = [].
Proof.
  intros H. unfold strip.
  replace (lstrip s) with (@nil N); [reflexivity|].
  induction s as [|c s IH]; simpl in *; [reflexivity|].
  apply andb_true_iff in H as [-> H]. auto.
Qed.

Lemma solid_ends (s : str) :
  solid s = true ->
  exists c t u c', s = c :: t /\ s = u ++ [c']
                   /\ isspace c = false /\ isspace c' = false.
Proof.
  unfold solid. destruct (head s) as [c|] eqn:Eh; [|discriminate].
  destruct (last s) as [c'|] eqn:El; [|discriminate].
  intros H. apply andb_true_iff in H as [H1 H2].
  apply negb_true_iff in H1, H2.
  destruct s as [|c0 t]; [discriminate|]. simpl in Eh. injection Eh as ->.
  apply last_Some in El as [u El].
  exists c, t, u, c'. auto.
Qed.

Lemma strip_solid (s : str) : solid s = true -> strip s = s.
Proof.
  intros H. destruct (solid_ends s H) as (c & t & u & c' & E1 & E2 & Hc & Hc').
  unfold strip. rewrite E1, (lstrip_cons_nonspace c t Hc), <- E1, E2.
  now apply rstrip_keep.
Qed.

Lemma strip_solid_space (s : str) : solid s = true -> strip (s ++ [32%N]) = s.
Proof.
  intros H. destruct (solid_ends s H) as (c & t & u & c' & E1 & E2 & Hc & Hc').
  unfold strip. rewrite E1. cbn [app]. rewrite (lstrip_cons_nonspace c _ Hc).
  change (c :: t ++ [32%N]) with ((c :: t) ++ [32%N]). rewrite <- E1.
  unfold rstrip. rewrite rev_unit.
  change (lstrip (32%N :: rev s)) with (lstrip (rev s)).
  fold (rstrip s). rewrite E2. now apply rstrip_keep.
Qed.

Lemma solid_cons_snoc (c c' : N) (q : str) :
  isspace c = false -> isspace c' = false -> solid (c :: q ++ [c']) = true.
Proof.
  intros Hc Hc'. unfold solid. cbn [head].
  change (c :: q ++ [c']) with ((c :: q) ++ [c']). rewrite last_snoc.
  now rewrite Hc, Hc'.
Qed.

Lemma solid_join (p q : str) :
  solid p = true -> solid q = true -> solid (p ++ 32%N :: q) = true.
Proof.
  intros Hp Hq.
  destruct (solid_ends p Hp) as (c & t & _ & _ & -> & _ & Hc & _).
  destruct (solid_ends q Hq) as (_ & _ & u & c' & _ & -> & _ & Hc').
  change ((c :: t) ++ 32%N :: u ++ [c']) with (c :: (t ++ 32%N :: u ++ [c'])).
  replace (t ++ 32%N :: u ++ [c']) with ((t ++ 32%N :: u) ++ [c'])
    by now rewrite <- app_assoc.
  now apply solid_cons_snoc.
Qed.

Lemma join_space_cons (p : str) (rest : list str) :
  rest <> [] -> join_space (p :: rest) = p ++ 32%N :: join_space rest.
Proof. destruct rest; [congruence | reflexivity]. Qed.

Lemma solid_join_space (parts : list str) :
  parts <> [] -> Forall (fun p => solid p = true) parts ->
  solid (join_space parts) = true.
Proof.
  induction parts as [|p rest IH]; [congruence|]. intros _ H.
  apply Forall_cons_iff in H as [Hp Hrest].
  destruct rest as [|q rest]; [exact Hp|].
  rewrite join_space_cons by discriminate.
  apply solid_join; [exact Hp | apply IH; [discriminate | exact Hrest]].
Qed.

(** What the hook builds, a trailing space after each leading part, is the
    join of the parts followed by at most one space. *)
Lemma spaced_then_last (ms : list str) (e : str) :
  mjoin (map (fun p => p ++ [32%N]) ms) ++ e = join_space (ms ++ [e]).
Proof.
  induction ms as [|p ms IH]; [reflexivity|].
  change ((p :: ms) ++ [e]) with (p :: (ms ++ [e])).
  rewrite join_space_cons by (destruct ms; discriminate).
  rewrite <- IH.
  change (mjoin (map (fun p0 => p0 ++ [32%N]) (p :: ms)))
    with ((p ++ [32%N]) ++ mjoin (map (fun p0 => p0 ++ [32%N]) ms)).
  rewrite <- !app_assoc. reflexivity.
Qed.

Lemma spaced_only (ms : list str) :
  ms <> [] ->
  mjoin (map (fun p => p ++ [32%N]) ms) = join_space ms ++ [32%N].
Proof.
  induction ms as [|p ms IH]; [congruence|]. intros _.
  destruct ms as [|q ms].
  - simpl. now rewrite app_nil_r.
  - rewrite join_space_cons by discriminate.
    change (mjoin (map (fun p0 => p0 ++ [32%N]) (p :: q :: ms)))
      with ((p ++ [32%N]) ++ mjoin (map (fun p0 => p0 ++ [32%N]) (q :: ms))).
    rewrite IH by discriminate. rewrite <- !app_assoc. reflexivity.
Qed.

(** [strip] of what the hook builds is the join of the parts. *)
Lemma strip_spaced (ms es : list str) :
  Forall (fun p => solid p = true) (ms ++ es) -> (length es <= 1)%nat ->
  strip (mjoin (map (fun p => p ++ [32%N]) ms) ++ mjoin es) = join_space (ms ++ es).
Proof.
  intros Hs Hes. destruct es as [|e [|e' es]]; [| |simpl in Hes; lia].
  - rewrite !app_nil_r in *. destruct ms as [|p ms]; [reflexivity|].
    rewrite spaced_only by discriminate.
    apply strip_solid_space, solid_join_space; [discriminate | exact Hs].
  - change (mjoin [e]) with (e ++ []). rewrite app_nil_r, spaced_then_last.
    apply strip_solid, solid_join_space; [destruct ms; discriminate | exact Hs].
Qed.

(** ** The errors the progress hook can end with *)

(** The hook's result has one of three shapes. *)
Lemma hook_cases rt d :
  (exists p a, _progress_hook rt d = ([progress p (strip a)], Ok ()))
  \/ _progress_hook rt d = ([], Ok ())
  \/ (exists c, _progress_hook rt d = ([], Raised c)
                /\ (hook_error c = true
                    \/ (eq_lit (dict_get d "status") "downloading" = true
                        /\ exists dd, dict_get d "eta" = VDict dd
                                      /\ dict_repr rt dd = Raised c))).
Proof.
  by_status rt d.
  - destruct (percent_of d) as [p|c] eqn:Ep.
    + destruct (desc_of rt d) as [a|c] eqn:Ed; [left; eauto|].
      right; right. exists c. split; [reflexivity|].
      destruct (desc_of_error rt d c Ed) as [H | H]; [now left | now right].
    + right; right. exists c. split; [reflexivity | left; exact (percent_of_error d c Ep)].
  - destruct (prefix_of rt d) as [pre|c] eqn:Ep; [left; eauto|].
    right; right. exists c. split; [reflexivity|]. left.
    destruct (prefix_of_error rt d c Ep) as [-> | ->]; reflexivity.
  - right; now left.
Qed.

(** X1.  Over payloads built from [None], booleans, integers, floats,
    strings and dicts, a progress hook that fails has emitted nothing, and
    it fails with a [TypeError], an [AttributeError], an [OverflowError] or
    a [ValueError], or else with what [repr] raised on an [eta] that is a
    dict, in a "downloading" payload (a [RecursionError] for a dict nested
    too deeply).  Neither division raises [ZeroDivisionError]: a zero total
    skips the first and 1024 divides the second. *)
Theorem hook_failure_classes (rt : runtime) (d : gmap str value) (c : exc_class) :
  (_progress_hook rt d).2 = Raised c ->
  (hook_error c = true
   \/ (eq_lit (dict_get d "status") "downloading" = true
       /\ exists dd, dict_get d "eta" = VDict dd /\ dict_repr rt dd = Raised c))
  /\ (_progress_hook rt d).1 = []
  /\ percent_of d <> Raised ZeroDivisionError
  /\ speed_of d <> Raised ZeroDivisionError.
Proof.
  intros H.
  assert (Hp : percent_of d <> Raised ZeroDivisionError).
  { intros H'. now apply percent_of_error in H'. }
  assert (Hs : speed_of d <> Raised ZeroDivisionError).
  { intros H'. now apply speed_of_error in H'. }
  destruct (hook_cases rt d) as [(p & a & E) | [E | (c' & E & Hc)]];
    rewrite E in H |- *; simpl in H; try discriminate.
  injection H as ->. split; [exact Hc|]. split; [reflexivity|]. split; assumption.
Qed.

Lemma hook_failure_classes_witness :
  (_progress_hook rt0 d_nan).2 = Raised ValueError
  /\ (_progress_hook rt0 d_nan).1 = [].
Proof.
  assert (H : (_progress_hook rt0 d_nan).2 = Raised ValueError)
    by (vm_compute; reflexivity).
  split; [exact H|].
  exact (proj1 (proj2 (hook_failure_classes rt0 d_nan ValueError H))).
Defined.

(** X2.  One call of the progress hook does one of three things: it emits
    exactly one [progress] signal and returns, it returns without emitting
    (a status other than "downloading" and "finished"), or it raises without
    emitting.  The annotation of the signal is already trimmed: [strip]
    leaves it unchanged. *)
Theorem hook_emits_trimmed_progress (rt : runtime) (d : gmap str value) :
  (exists p a, _progress_hook rt d = ([progress p a], Ok ()) /\ strip a = a)
  \/ _progress_hook rt d = ([], Ok ())
  \/ (exists c, _progress_hook rt d = ([], Raised c)).
Proof.
  destruct (hook_cases rt d) as [(p & a & E) | [E | (c' & E & Hc)]].
  - left. exists p, (strip a). split; [exact E | apply strip_idem].
  - right; now left.
  - right; right. eauto.
Qed.

(** ** The annotation as a join of its parts *)

Lemma solid_marker_text i c : solid (marker_text i c) = true.
Proof.
  replace (marker_text i c)
    with (91%N :: (decimal i ++ lit "/" ++ decimal c) ++ [93%N]).
  - now apply solid_cons_snoc.
  - unfold marker_text. change (lit "[") with [91%N]. change (lit "]") with [93%N].
    cbn [app]. now rewrite <- !app_assoc.
Qed.

Lemma solid_speed_text n : solid (speed_text n) = true.
Proof.
  unfold speed_text. destruct (decimal_head n) as (ch & s & -> & Hch & _).
  change (lit " KB/s") with (lit " KB/" ++ [115%N]).
  replace ((ch :: s) ++ lit " KB/" ++ [115%N]) with (ch :: (s ++ lit " KB/") ++ [115%N])
    by (cbn [app]; now rewrite <- app_assoc).
  now apply solid_cons_snoc.
Qed.

Lemma solid_eta_text s_eta : solid (eta_text s_eta) = true.
Proof.
  unfold eta_text. change (lit "ETA ") with (69%N :: lit "TA ").
  change (lit "s") with [115%N].
  replace ((69%N :: lit "TA ") ++ s_eta ++ [115%N])
    with (69%N :: (lit "TA " ++ s_eta) ++ [115%N])
    by (cbn [app]; now rewrite <- app_assoc).
  now apply solid_cons_snoc.
Qed.

Lemma marker_space i c :
  lit "[" ++ decimal i ++ lit "/" ++ decimal c ++ lit "] "
  = marker_text i c ++ [32%N].
Proof.
  unfold marker_text. change (lit "] ") with (lit "]" ++ [32%N]).
  now rewrite <- !app_assoc.
Qed.

Lemma speed_space n : decimal n ++ lit " KB/s " = speed_text n ++ [32%N].
Proof.
  unfold speed_text. change (lit " KB/s ") with (lit " KB/s" ++ [32%N]).
  now rewrite <- !app_assoc.
Qed.

Lemma mjoin_one (l : str) : mjoin [l] = l.
Proof. apply app_nil_r. Qed.

Lemma prefix_of_marker rt d meta :
  has_marker d meta ->
  prefix_of rt d = Ok (mjoin (map (fun p => p ++ [32%N]) (marker_part meta))).
Proof.
  destruct meta as [[i c]|]; simpl has_marker.
  - intros (info & Hd & Hi & Hc & Hpos & Hbi & Hbc).
    rewrite (prefix_of_meta rt d info i c Hd Hi Hc Hpos Hbi Hbc), marker_space.
    unfold marker_part. f_equal. symmetry. apply mjoin_one.
  - intros H. now rewrite prefix_of_no_meta.
Qed.

Lemma speed_of_part d kb :
  has_speed d kb ->
  speed_of d = Ok (mjoin (map (fun p => p ++ [32%N]) (speed_part kb))).
Proof.
  destruct kb as [n|]; simpl has_speed; rewrite speed_of_eq.
  - intros [-> H].
    destruct (py_truediv (dict_get d "speed") (VInt 1024)) as [q|]; [|discriminate].
    simpl in H |- *. rewrite H. simpl. rewrite speed_space.
    f_equal. symmetry. apply mjoin_one.
  - intros ->. reflexivity.
Qed.

Lemma eta_of_part rt d eta :
  has_eta rt d eta -> eta_of rt d = Ok (mjoin (eta_part eta)).
Proof.
  rewrite eta_of_eq. destruct eta as [s|]; simpl has_eta.
  - intros [-> ->]. unfold eta_part. f_equal. symmetry. apply mjoin_one.
  - intros ->. reflexivity.
Qed.

Lemma parts_solid meta kb eta :
  Forall (fun p => solid p = true) ((marker_part meta ++ speed_part kb) ++ eta_part eta).
Proof.
  apply Forall_app; split; [apply Forall_app; split|].
  - destruct meta as [[i c]|]; constructor; [apply solid_marker_text | constructor].
  - destruct kb as [n|]; constructor; [apply solid_speed_text | constructor].
  - destruct eta as [s|]; constructor; [apply solid_eta_text | constructor].
Qed.

(** X3.  The annotation of a "downloading" payload is the list of its
    present parts joined by single spaces, without a space at either end:
    the marker [[i/c]] when the playlist metadata is an integer index and a
    positive integer count of a length [str] accepts, [n KB/s] when [speed]
    is set and [int(speed / 1024)] is [n], and [ETA <eta>s] when [eta] is
    not [None] (also for an [eta] of 0) and [str(eta)] evaluates.  With no
    part present it is empty.  The percentage is carried as a C [int]. *)
Theorem annotation_joins_parts
    (rt : runtime) (d : gmap str value) (p : Z) (meta : option (Z * Z)) (kb : option Z)
    (eta : option str) :
  eq_lit (dict_get d "status") "downloading" = true ->
  percent_of d = Ok p ->
  has_marker d meta ->
  has_speed d kb ->
  has_eta rt d eta ->
  _progress_hook rt d
  = ([progress (c_int p)
        (join_space (marker_part meta ++ speed_part kb ++ eta_part eta))],
     Ok ()).
Proof.
  intros Hst Hp Hm Hs He.
  rewrite (hook_downloading rt d Hst), Hp, desc_of_eq.
  rewrite (prefix_of_marker rt d meta Hm), (speed_of_part d kb Hs),
    (eta_of_part rt d eta He).
  rewrite app_assoc, <- join_app, <- map_app.
  rewrite strip_spaced.
  - now rewrite <- app_assoc.
  - apply parts_solid.
  - destruct eta; simpl; lia.
Qed.

Lemma annotation_joins_parts_witness :
  _progress_hook rt0 d_playlist
  = ([progress 25 (join_space (marker_part (Some (2, 5)) ++ speed_part (Some 200)
                                 ++ eta_part (Some (lit "7"))))], Ok ())
  /\ join_space (marker_part (Some (2, 5)) ++ speed_part (Some 200)
                   ++ eta_part (Some (lit "7")))
     = lit "[2/5] 200 KB/s ETA 7s".
Proof.
  split; [|vm_compute; reflexivity].
  apply (annotation_joins_parts rt0 d_playlist 25 (Some (2, 5)) (Some 200)
           (Some (lit "7"))).
  - reflexivity.
  - vm_compute. reflexivity.
  - exists (payload [("playlist_index", VInt 2); ("playlist_count", VInt 5)]%string).
    split; [reflexivity|]. split; [reflexivity|]. split; [reflexivity|].
    split; [lia|]. split; vm_compute; reflexivity.
  - split; [reflexivity | vm_compute; reflexivity].
  - split; [reflexivity | vm_compute; reflexivity].
Defined.

(** X4.  The annotation of a "finished" payload is the merge text alone
    when there is no playlist metadata and the marker [[i/c]], one space and
    the merge text when the metadata is an integer index and a positive
    integer count of a length [str] accepts; the percentage is 100 and the
    byte counts, speed and ETA of the payload play no part. *)
Theorem finished_annotation
    (rt : runtime) (d : gmap str value) (meta : option (Z * Z)) :
  eq_lit (dict_get d "status") "finished" = true ->
  has_marker d meta ->
  _progress_hook rt d
  = ([progress 100 (join_space (marker_part meta ++ [s_merging]))], Ok ()).
Proof.
  intros Hst Hm.
  rewrite (hook_finished rt d Hst), (prefix_of_marker rt d meta Hm).
  rewrite <- (mjoin_one s_merging) at 1.
  rewrite strip_spaced; [reflexivity | | simpl; lia].
  apply Forall_app; split; [|constructor; [reflexivity | constructor]].
  destruct meta as [[i c]|]; constructor; [apply solid_marker_text | constructor].
Qed.

Lemma finished_annotation_witness :
  _progress_hook rt0 d_finished
  = ([progress 100 (join_space (marker_part (Some (2, 5)) ++ [s_merging]))], Ok ())
  /\ join_space (marker_part (Some (2, 5)) ++ [s_merging]) = lit "[2/5] " ++ s_merging.
Proof.
  split; [|vm_compute; reflexivity].
  apply (finished_annotation rt0 d_finished (Some (2, 5))).
  - reflexivity.
  - exists (payload [("playlist_index", VInt 2); ("playlist_count", VInt 5)]%string).
    split; [reflexivity|]. split; [reflexivity|]. split; [reflexivity|].
    split; [lia|]. split; vm_compute; reflexivity.
Defined.

(** ** More on the percentage *)

Lemma percent_of_quotient d x t :
  dict_get d "downloaded_bytes" = VInt x \/
    (unknown (dict_get d "downloaded_bytes") /\ x = 0) ->
  dict_get d "total_bytes" = VInt t \/
    (unknown (dict_get d "total_bytes") /\ dict_get d "total_bytes_estimate" = VInt t) ->
  0 <= x -> 0 < t -> x * 100 < 2 ^ 53 - 1 ->
  percent_of d = Ok (x * 100 / t).
Proof.
  intros Hx Ht Hx0 Ht0 Hb.
  rewrite (percent_of_ints d x t (downloaded_value d x Hx)
             (total_value d t ltac:(lia) Ht)).
  replace (t =? 0) with false by (symmetry; apply Z.eqb_neq; lia).
  apply int_truediv_floor; lia.
Qed.

(** X5.  For integer byte counts with [0 <= downloaded <= total],
    [0 < total] and [downloaded * 100 < 2^53 - 1], the percentage of a
    "downloading" payload lies between 0 and 100, and it is 100 exactly when
    all bytes have arrived. *)
Theorem percent_100_iff_complete (d : gmap str value) (x t : Z) :
  dict_get d "downloaded_bytes" = VInt x \/
    (unknown (dict_get d "downloaded_bytes") /\ x = 0) ->
  dict_get d "total_bytes" = VInt t \/
    (unknown (dict_get d "total_bytes") /\ dict_get d "total_bytes_estimate" = VInt t) ->
  0 <= x <= t -> 0 < t -> x * 100 < 2 ^ 53 - 1 ->
  exists p, percent_of d = Ok p /\ 0 <= p <= 100 /\ (p = 100 <-> x = t).
Proof.
  intros Hx Ht Hxt Ht0 Hb. exists (x * 100 / t).
  split; [apply percent_of_quotient; auto; lia|].
  assert (Hlo : 0 <= x * 100 / t) by (apply Z.div_pos; lia).
  assert (Hhi : x * 100 / t <= 100) by (apply Z.div_le_upper_bound; lia).
  split; [lia|]. split.
  - intros E.
    pose proof (Z.mul_div_le (x * 100) t ltac:(lia)) as H.
    rewrite E in H. lia.
  - intros ->. symmetry. apply Z.div_unique with 0; lia.
Qed.

Lemma percent_100_iff_complete_witness :
  exists p, percent_of d_half = Ok p /\ 0 <= p <= 100 /\ (p = 100 <-> 500 = 1000).
Proof.
  apply (percent_100_iff_complete d_half 500 1000).
  - left. reflexivity.
  - left. reflexivity.
  - lia.
  - lia.
  - simpl. lia.
Defined.

(** X6.  The percentage does not go backwards: of two payloads with the
    same positive integer total, the one with more downloaded bytes has the
    larger or equal percentage (byte counts non-negative, the larger count
    times 100 below 2^53 - 1). *)
Theorem percent_monotone (d d' : gmap str value) (x x' t : Z) :
  dict_get d "downloaded_bytes" = VInt x \/
    (unknown (dict_get d "downloaded_bytes") /\ x = 0) ->
  dict_get d' "downloaded_bytes" = VInt x' ->
  dict_get d "total_bytes" = VInt t \/
    (unknown (dict_get d "total_bytes") /\ dict_get d "total_bytes_estimate" = VInt t) ->
  dict_get d' "total_bytes" = VInt t \/
    (unknown (dict_get d' "total_bytes") /\ dict_get d' "total_bytes_estimate" = VInt t) ->
  0 <= x <= x' -> 0 < t -> x' * 100 < 2 ^ 53 - 1 ->
  exists p p', percent_of d = Ok p /\ percent_of d' = Ok p' /\ p <= p'.
Proof.
  intros Hx Hx' Ht Ht' Hxx Ht0 Hb.
  exists (x * 100 / t), (x' * 100 / t).
  split; [apply percent_of_quotient; auto; lia|].
  split; [apply percent_of_quotient; auto; lia|].
  apply Z.div_le_mono; lia.
Qed.

Lemma percent_monotone_witness :
  exists p p', percent_of d_half = Ok p /\ percent_of d_over = Ok p' /\ p <= p'.
Proof.
  apply (percent_monotone d_half d_over 500 2000 1000).
  - left. reflexivity.
  - reflexivity.
  - left. reflexivity.
  - right. split; [left; reflexivity | reflexivity].
  - lia.
  - lia.
  - simpl. lia.
Defined.

(** X7.  For an integer [speed] [s] with [0 < s < 2^53 - 1] the speed part
    shows whole kibibytes per second, [s / 1024] rounded down, followed by
    [ KB/s]; a speed below 1024 bytes per second shows as [0 KB/s]. *)
Theorem speed_is_whole_kilobytes (d : gmap str value) (s : Z) :
  dict_get d "speed" = VInt s ->
  0 < s < 2 ^ 53 - 1 ->
  has_speed d (Some (s / 1024))
  /\ speed_of d = Ok (speed_text (s / 1024) ++ [32%N]).
Proof.
  intros Hs Hb.
  assert (H : has_speed d (Some (s / 1024))).
  { simpl. rewrite Hs. split.
    - simpl. apply negb_true_iff, Z.eqb_neq. lia.
    - change (py_truediv (VInt s) (VInt 1024)) with (int_truediv s 1024).
      apply int_truediv_floor; lia. }
  split; [exact H|].
  rewrite (speed_of_part d (Some (s / 1024)) H). f_equal. apply mjoin_one.
Qed.

Lemma speed_is_whole_kilobytes_witness :
  has_speed d_slow (Some (1500 / 1024))
  /\ speed_of d_slow = Ok (speed_text (1500 / 1024) ++ [32%N]).
Proof.
  apply (speed_is_whole_kilobytes d_slow 1500); [reflexivity | simpl; lia].
Defined.

(** ** A float speed *)

Lemma float_div_1024 (sx : bool) (mx : positive) (ex : Z) :
  py_truediv (VFloat (S754_finite sx mx ex)) (VInt 1024)
  = Ok (SFdiv prec emax (S754_finite sx mx ex) f1024).
Proof. reflexivity. Qed.

(** Dividing a normal binary64 number by 2^10, held as [2^52 * 2^-42], is
    exact: truncating the quotient gives the mantissa shifted by the
    exponent less 10. *)
Lemma SFdiv_pow_value (sx : bool) (mx my : positive) (ex : Z) :
  Zpos my = 2 ^ 52 ->
  2 ^ 52 <= Zpos mx < 2 ^ 53 ->
  -1063 <= ex <= 971 ->
  int_of_float (SFdiv prec emax (S754_finite sx mx ex) (S754_finite false my (-42)))
  = Ok (cond_Zopp sx (Z.shiftl (Zpos mx) (ex - 10))).
Proof.
  intros Hmy Hmx Hex.
  unfold SFdiv, SFdiv_core_binary.
  rewrite (Zdigits2_unique (Zpos my) 53) by (rewrite ?Hmy; simpl; lia).
  rewrite (Zdigits2_unique (Zpos mx) 53) by (simpl; lia).
  rewrite fexp_eq.
  set (e := Z.min (Z.max (53 + ex - (53 + -42) - 53) (-1074)) (ex - -42)).
  assert (Ee : e = ex - 11) by (unfold e; lia).
  assert (Hs : 0 <= ex - -42 - e) by lia.
  rewrite (shifted_mantissa (Zpos mx) (ex - -42 - e) Hs).
  replace (ex - -42 - e) with 53 by lia.
  pose proof (Z_div_mod (Zpos mx * 2 ^ 53) (Zpos my) ltac:(lia)) as Hdm.
  destruct (Z.div_eucl (Zpos mx * 2 ^ 53) (Zpos my)) as [q r] eqn:Edm.
  destruct Hdm as [Hdm Hr].
  change (2 ^ 53) with (2 * 2 ^ 52) in Hdm. rewrite Hmy in Hdm, Hr.
  assert (Eq2 : q = 2 * Zpos mx) by nia.
  assert (Er : r = 0) by nia.
  subst q r.
  replace (new_location (Zpos my) 0) with loc_Exact
    by (unfold new_location, new_location_even, new_location_odd;
        destruct (Z.even (Zpos my)); reflexivity).
  destruct (binary_round_aux_int (xorb sx false) (2 * Zpos mx) e loc_Exact
              (Zpos mx * 2 ^ 53) (2 ^ 52))
    as (n & m2 & Hn & Hm2 & Hrange & _ & Hint);
    [lia | change (2 ^ 53) with (2 * 2 ^ 52); lia
     | intros [H | H]; discriminate | change (2 ^ 54) with (2 * 2 ^ 53); lia
     | lia | left; lia |].
  assert (E1 : Zpos mx * 2 ^ 53 / (2 ^ 0 * 2 ^ 52) = 2 * Zpos mx).
  { symmetry. apply Z.div_unique with 0; [lia|].
    change (2 ^ 53) with (2 * 2 ^ 52). change (2 ^ 0) with 1. lia. }
  assert (E2 : Zpos mx * 2 ^ 53 / (2 ^ 1 * 2 ^ 52) = Zpos mx).
  { symmetry. apply Z.div_unique with 0; [lia|].
    change (2 ^ 1 * 2 ^ 52) with (2 ^ 53). lia. }
  assert (En : n = 1).
  { destruct Hn as [-> | [-> _]]; [|reflexivity].
    rewrite E1 in Hrange. lia. }
  subst n. rewrite E2 in Hm2.
  assert (Em : m2 = Zpos mx).
  { destruct Hm2 as [-> | [_ Hc]]; [reflexivity|].
    change (2 ^ 1 * 2 ^ 52) with (2 ^ 53) in Hc. nia. }
  subst m2. rewrite Hint, xorb_false_r. do 3 f_equal. lia.
Qed.

(** X24.  For a [speed] that is a normal binary64 number with mantissa [m]
    and exponent [e], [-1063 <= e], the division by 1024 is exact and the
    speed part shows the speed in kibibytes per second truncated toward
    zero: the sign times [m * 2^(e - 10)] rounded down. *)
Theorem float_speed_is_truncated
    (d : gmap str value) (sx : bool) (mx : positive) (ex : Z) :
  dict_get d "speed" = VFloat (S754_finite sx mx ex) ->
  2 ^ 52 <= Zpos mx < 2 ^ 53 ->
  -1063 <= ex <= 971 ->
  has_speed d (Some (cond_Zopp sx (Z.shiftl (Zpos mx) (ex - 10))))
  /\ speed_of d
     = Ok (speed_text (cond_Zopp sx (Z.shiftl (Zpos mx) (ex - 10))) ++ [32%N]).
Proof.
  intros Hs Hmx Hex.
  assert (H : has_speed d (Some (cond_Zopp sx (Z.shiftl (Zpos mx) (ex - 10))))).
  { simpl. rewrite Hs. split; [reflexivity|].
    rewrite float_div_1024. apply SFdiv_pow_value; [reflexivity | exact Hmx | exact Hex]. }
  split; [exact H|].
  rewrite (speed_of_part d _ H). f_equal. apply mjoin_one.
Qed.

Lemma float_speed_is_truncated_witness :
  has_speed d_no_total (Some 1024)
  /\ speed_of d_no_total = Ok (speed_text 1024 ++ [32%N]).
Proof.
  apply (float_speed_is_truncated d_no_total false 4503599627370496 (-32)).
  - reflexivity.
  - simpl. lia.
  - lia.
Defined.

(** ** The logger *)

(** X8.  Each method of the logger emits exactly one [log] signal and
    returns.  [debug] forwards the message text unchanged (bytes decoded
    first); [warning] and [error] put their own tag in front, so a warning
    line is never equal to an error line, whatever the two messages are, and
    never equal to the bare message. *)
Theorem logger_lines_tagged (rt : runtime) (m m' : logger_msg) :
  debug (_build_logger rt) m = ([log (msg_text rt m)], Ok ())
  /\ exists lw le,
       warning (_build_logger rt) m = ([log lw], Ok ())
       /\ error_ (_build_logger rt) m' = ([log le], Ok ())
       /\ startswith s_warning_tag lw = true
       /\ startswith s_error_tag le = true
       /\ lw <> le
       /\ lw <> msg_text rt m.
Proof.
  split; [reflexivity|].
  exists (s_warning_tag ++ msg_text rt m), (s_error_tag ++ msg_text rt m').
  split; [reflexivity|]. split; [reflexivity|].
  split; [apply startswith_app|]. split; [apply startswith_app|].
  split; [discriminate|].
  intros E. apply (f_equal (@length N)) in E. rewrite length_app in E.
  simpl in E. lia.
Qed.

(** ** Annotations along a run *)

Lemma hook_trimmed rt d : Forall annotation_trimmed (_progress_hook rt d).1.
Proof.
  destruct (hook_cases rt d) as [(p & a & E) | [E | (c' & E & Hc)]]; rewrite E; simpl.
  - constructor; [apply strip_idem | constructor].
  - constructor.
  - constructor.
Qed.

Lemma call_hooks_trimmed rt d :
  Forall annotation_trimmed (call_hooks [_progress_hook rt] d).1.
Proof.
  simpl. pose proof (hook_trimmed rt d) as H.
  destruct (_progress_hook rt d) as [tr [[]|c]]; simpl in *;
    rewrite ?app_nil_r; exact H.
Qed.

Lemma drive_trimmed rt self b :
  Forall annotation_trimmed (drive (build_opts rt self) b).1.
Proof.
  destruct (build_opts_callbacks rt self) as [Hh Hl].
  induction b as [| e | d k IH | msg k IH | msg k IH | msg k IH]; simpl;
    rewrite ?Hh, ?Hl; try constructor.
  - pose proof (call_hooks_trimmed rt d) as Hc.
    destruct (call_hooks [_progress_hook rt] d) as [tr r].
    specialize (IH (raised_class r)).
    destruct (drive (build_opts rt self) (k (raised_class r))) as [tr' o].
    simpl in *. apply Forall_app. split; assumption.
  - destruct (drive (build_opts rt self) k) as [tr' o]. simpl in *.
    constructor; [exact I | exact IH].
  - destruct (drive (build_opts rt self) k) as [tr' o]. simpl in *.
    constructor; [exact I | exact IH].
  - destruct (drive (build_opts rt self) k) as [tr' o]. simpl in *.
    constructor; [exact I | exact IH].
Qed.

Lemma with_block_trimmed rt yt_dlp self :
  Forall annotation_trimmed (with_block yt_dlp (build_opts rt self) self).1.
Proof.
  unfold with_block. destruct (yt_dlp (build_opts rt self)) as [e | ydl]; [constructor|].
  pose proof (drive_trimmed rt self (download ydl [url self])) as H.
  destruct (drive _ _) as [tr o]. simpl in *. constructor; [exact I | exact H].
Qed.

Lemma strip_shape (s : str) : strip s = [] \/ solid (strip s) = true.
Proof.
  unfold strip.
  destruct (lstrip_head s) as [E | (c & t & E & Hc)]; rewrite E; [now left|].
  destruct (strip_keeps_head c t Hc) as [t' E'].
  unfold strip in E'. rewrite (lstrip_cons_nonspace c t Hc) in E'.
  right. unfold solid. rewrite E' at 1. cbn [head].
  unfold rstrip.
  destruct (lstrip_head (rev (c :: t))) as [El | (c' & u & El & Hc')].
  - unfold rstrip in E'. rewrite El in E'. discriminate.
  - rewrite El. cbn [rev]. rewrite last_snoc. now rewrite Hc, Hc'.
Qed.

(** X9.  Whatever the engine does, every [progress] signal that [run]
    emits carries a trimmed annotation: it is empty, or it begins and ends
    with a character that is not white space. *)
Theorem run_annotations_trimmed
    (rt : runtime) (yt_dlp : engine) (self : DownloadWorker.t) (p : Z) (a : str) :
  In (progress p a) (emitted (run rt yt_dlp self)) ->
  strip a = a /\ (a = [] \/ solid a = true).
Proof.
  intros Hin.
  assert (Ha : strip a = a).
  { assert (H : Forall annotation_trimmed (emitted (run rt yt_dlp self))).
    { unfold run. pose proof (with_block_trimmed rt yt_dlp self) as H.
      destruct (with_block _ _ _) as [tr [e|]]; simpl in *.
      - destruct (is_Exception (exn_class e)); simpl; [|exact H].
        apply Forall_app. split; [exact H | constructor; [exact I | constructor]].
      - apply Forall_app. split; [exact H | constructor; [exact I | constructor]]. }
    apply List.Forall_forall with (x := progress p a) in H; [exact H | exact Hin]. }
  split; [exact Ha|]. rewrite <- Ha. apply strip_shape.
Qed.

Lemma run_annotations_trimmed_witness :
  In (progress 25 (lit "[2/5] 200 KB/s ETA 7s"))
     (emitted (run rt0 (engine_ok d_playlist d_finished) worker0))
  /\ strip (lit "[2/5] 200 KB/s ETA 7s") = lit "[2/5] 200 KB/s ETA 7s".
Proof.
  assert (Hin : In (progress 25 (lit "[2/5] 200 KB/s ETA 7s"))
                   (emitted (run rt0 (engine_ok d_playlist d_finished) worker0))).
  { vm_compute. right. left. reflexivity. }
  split; [exact Hin|].
  exact (proj1 (run_annotations_trimmed rt0 (engine_ok d_playlist d_finished) worker0
                  25 (lit "[2/5] 200 KB/s ETA 7s") Hin)).
Defined.

(** ** How a run ends *)

(** X10.  When the engine object was constructed and leaving its [with]
    block raises an instance [e'] of [Exception], [run] ends with
    [error (str e')] and emits no [finished], also when [download] itself had
    returned normally or had raised another exception: the signals before
    it are the start-up log line and those of the download call. *)
Theorem exit_error_wins
    (rt : runtime) (yt_dlp : engine) (self : DownloadWorker.t) (ydl : YoutubeDL) (e' : exn) :
  yt_dlp (build_opts rt self) = inr ydl ->
  exit_raises ydl = Some e' ->
  is_Exception (exn_class e') = true ->
  exists tr,
    run rt yt_dlp self
    = {| emitted := log s_collecting :: tr ++ [error (exn_str e')]; escaped := None |}
    /\ tr = (drive (build_opts rt self) (download ydl [url self])).1
    /\ ~ In finished (emitted (run rt yt_dlp self)).
Proof.
  intros Hy Hx He.
  pose proof (drive_no_terminal rt self (download ydl [url self])) as Hnt.
  unfold run, with_block. rewrite Hy.
  destruct (drive (build_opts rt self) (download ydl [url self])) as [tr o].
  rewrite Hx, He. exists tr. split; [reflexivity|]. split; [reflexivity|].
  simpl in Hnt |- *. intros [H | H]; [discriminate|].
  apply in_app_or in H as [H | [H | []]]; [|discriminate].
  clear -H Hnt. induction tr as [|s tr IH]; [inversion H|].
  simpl in Hnt. destruct H as [-> | H]; [simpl in Hnt; lia|].
  apply IH; [|exact H]. destruct (is_terminal s); simpl in Hnt; lia.
Qed.

Lemma exit_error_wins_witness :
  exists tr,
    run rt0 (engine_exit_raising exn_download) worker0
    = {| emitted := log s_collecting :: tr ++ [error (exn_str exn_download)];
         escaped := None |}
    /\ tr = (drive (build_opts rt0 worker0) Returns).1
    /\ ~ In finished (emitted (run rt0 (engine_exit_raising exn_download) worker0)).
Proof.
  apply (exit_error_wins rt0 (engine_exit_raising exn_download) worker0
           {| download := fun _ => Returns; exit_raises := Some exn_download |}
           exn_download); reflexivity.
Defined.

(** ** The option dictionary *)

(** X12.  The output template always begins with the worker's output
    directory and ends with [%(title)s.%(ext)s]; exactly one [/] is put
    between them, unless the directory is empty or already ends in [/], in
    which case none is added (POSIX [os.path.join]). *)
Theorem outtmpl_in_output_dir (rt : runtime) (self : DownloadWorker.t) :
  let name := lit "%(title)s.%(ext)s" in
  let o := outtmpl (build_opts rt self) in
  startswith (output_dir self) o = true
  /\ endswith name o = true
  /\ (o = output_dir self ++ name \/ o = output_dir self ++ lit "/" ++ name)
  /\ (o = output_dir self ++ name <->
      output_dir self = [] \/ last (output_dir self) = Some 47%N).
Proof.
  intros name o.
  assert (Eo : o = path_join (output_dir self) name)
    by (unfold o, build_opts; destruct (DownloadWorker.ffmpeg_available self); reflexivity).
  rewrite Eo. unfold path_join.
  destruct (last (output_dir self)) as [c|] eqn:El.
  - destruct (c =? 47)%N eqn:Ec.
    + apply N.eqb_eq in Ec. subst c.
      split; [apply startswith_app|]. split; [apply endswith_app|].
      split; [now left|]. split; [auto | reflexivity].
    + split; [apply startswith_app|].
      split; [rewrite app_assoc; apply endswith_app|].
      split; [now right|]. split.
      * intros E. apply app_inv_head in E. discriminate.
      * intros [E | E]; [rewrite E in El; discriminate|].
        injection E as ->. rewrite N.eqb_refl in Ec. discriminate.
  - apply last_None in El. rewrite El.
    split; [reflexivity|]. split; [apply (endswith_app [])|].
    split; [now left|]. split; [auto | reflexivity].
Qed.

(** X13.  The ffmpeg flag selects the format and nothing else: for the same
    output directory the two option dictionaries have the same output
    template, [ignoreerrors] set, the same progress hook and logger;
    [merge_output_format] is [mp4] with ffmpeg and absent without it; and the
    format with ffmpeg is one merging alternative followed by exactly the
    alternatives used without ffmpeg, which are all single-stream. *)
Theorem ffmpeg_only_selects_format (rt : runtime) (self self' : DownloadWorker.t) :
  output_dir self = output_dir self' ->
  DownloadWorker.ffmpeg_available self = true ->
  DownloadWorker.ffmpeg_available self' = false ->
  let o := build_opts rt self in
  let o' := build_opts rt self' in
  outtmpl o = outtmpl o'
  /\ ignoreerrors o = true /\ ignoreerrors o' = true
  /\ progress_hooks o = progress_hooks o'
  /\ logger o = logger o'
  /\ merge_output_format o = Some (lit "mp4")
  /\ merge_output_format o' = None
  /\ exists first,
       alternatives (format o) = first :: alternatives (format o')
       /\ asks_merge first = true
       /\ forallb single_stream (alternatives (format o')) = true.
Proof.
  intros Hd Hf Hf'. unfold build_opts. rewrite Hf, Hf', Hd. simpl.
  repeat (split; [reflexivity|]).
  exists (lit "bestvideo[ext=mp4]+bestaudio[ext=m4a]").
  split; [vm_compute; reflexivity|]. split; vm_compute; reflexivity.
Qed.

Lemma ffmpeg_only_selects_format_witness :
  outtmpl (build_opts rt0 worker_ffmpeg) = outtmpl (build_opts rt0 worker0)
  /\ alternatives (format (build_opts rt0 worker_ffmpeg))
     = lit "bestvideo[ext=mp4]+bestaudio[ext=m4a]"
         :: alternatives (format (build_opts rt0 worker0)).
Proof.
  destruct (ffmpeg_only_selects_format rt0 worker_ffmpeg worker0 eq_refl eq_refl eq_refl)
    as (H1 & _ & _ & _ & _ & _ & _ & first & H2 & _).
  split; [exact H1|]. vm_compute. reflexivity.
Defined.

(** ** The window: what [on_start] accepts *)

Lemma on_start_valid isdir w :
  valid_input isdir w ->
  on_start isdir w
  = {| url_edit := url_edit w; path_edit := path_edit w;
       start_btn_enabled := false; progress_value := 0;
       status_label := s_starting; log_view := [];
       thread := Some {| running := true |};
       worker := Some (job_of w);
       ffmpeg_available := ffmpeg_available w;
       dialogs := dialogs w |}.
Proof.
  intros (Hu & Hp & Hd). unfold on_start.
  rewrite (bool_decide_eq_false_2 _ Hu), (bool_decide_eq_false_2 _ Hp), Hd.
  reflexivity.
Qed.

Lemma on_start_invalid isdir w :
  ~ valid_input isdir w ->
  exists text, on_start isdir w = warn s_input_error text w.
Proof.
  intros Hn. unfold on_start.
  destruct (bool_decide (strip (url_edit w) = [])) eqn:Eu; [eauto|].
  destruct (bool_decide (strip (path_edit w) = [])) eqn:Ep; [eauto|].
  destruct (isdir (strip (path_edit w))) eqn:Ed; [|simpl; eauto].
  exfalso. apply Hn. apply bool_decide_eq_false in Eu, Ep. now repeat split.
Qed.

(** X14.  From a window that holds no thread, [on_start] starts a thread
    exactly when the trimmed URL is non-empty and the trimmed folder is a
    non-empty path of an existing directory, and it shows a dialog exactly
    when it does not.  A worker it creates has the trimmed, non-empty URL
    and the trimmed path of an existing directory. *)
Theorem on_start_starts_iff_valid (isdir : str -> bool) (w : t) :
  thread w = None ->
  (thread (on_start isdir w) <> None <-> valid_input isdir w)
  /\ (dialogs (on_start isdir w) = dialogs w <-> valid_input isdir w)
  /\ (forall k, worker (on_start isdir w) = Some k -> worker w = None ->
        k = job_of w
        /\ DownloadWorker.url k <> [] /\ strip (DownloadWorker.url k) = DownloadWorker.url k
        /\ isdir (DownloadWorker.output_dir k) = true
        /\ strip (DownloadWorker.output_dir k) = DownloadWorker.output_dir k).
Proof.
  intros Hth.
  assert (Hinv : ~ valid_input isdir w ->
                 thread (on_start isdir w) = None
                 /\ dialogs (on_start isdir w) <> dialogs w
                 /\ worker (on_start isdir w) = worker w).
  { intros Hn. destruct (on_start_invalid isdir w Hn) as [text ->]. simpl.
    split; [exact Hth|]. split; [|reflexivity].
    intros E. rewrite <- (app_nil_r (dialogs w)) in E at 2.
    apply app_inv_head in E. discriminate. }
  assert (Hdec : valid_input isdir w \/ ~ valid_input isdir w).
  { unfold valid_input.
    destruct (decide (strip (url_edit w) = [])); [right; tauto|].
    destruct (decide (strip (path_edit w) = [])); [right; tauto|].
    destruct (isdir (strip (path_edit w))); [left; auto | right].
    intros (_ & _ & H). discriminate. }
  split; [|split].
  - split.
    + intros H. destruct Hdec as [Hv | Hn]; [exact Hv|].
      destruct (Hinv Hn) as [E _]. contradiction.
    + intros Hv. rewrite (on_start_valid isdir w Hv). discriminate.
  - split.
    + intros H. destruct Hdec as [Hv | Hn]; [exact Hv|].
      destruct (Hinv Hn) as (_ & E & _). contradiction.
    + intros Hv. now rewrite (on_start_valid isdir w Hv).
  - intros k Hk Hw. destruct Hdec as [Hv | Hn].
    + rewrite (on_start_valid isdir w Hv) in Hk. simpl in Hk.
      assert (E : k = job_of w) by congruence. subst k.
      destruct Hv as (Hu & Hp & Hd). unfold job_of. simpl.
      split; [reflexivity|]. split; [exact Hu|]. split; [apply strip_idem|].
      split; [exact Hd | apply strip_idem].
    + destruct (Hinv Hn) as (_ & _ & E). congruence.
Qed.

Lemma on_start_starts_iff_valid_witness :
  thread (on_start isdir0 window0) <> None <-> valid_input isdir0 window0.
Proof.
  exact (proj1 (on_start_starts_iff_valid isdir0 window0 eq_refl)).
Defined.

(** X15.  A URL field holding only white space is treated as empty, and
    the checks are reported in order: a blank URL gives the URL prompt
    whatever the folder field holds; with a proper URL a blank folder gives
    the folder prompt, and a path that is not a directory gives the
    invalid-folder message.  Nothing but the dialog changes. *)
Theorem blank_fields_count_as_empty (isdir : str -> bool) (w : t) :
  (forallb isspace (url_edit w) = true ->
   on_start isdir w = warn s_input_error s_enter_url w)
  /\ (strip (url_edit w) <> [] -> forallb isspace (path_edit w) = true ->
      on_start isdir w = warn s_input_error s_choose_folder w)
  /\ (strip (url_edit w) <> [] -> strip (path_edit w) <> [] ->
      isdir (strip (path_edit w)) = false ->
      on_start isdir w = warn s_input_error s_invalid_folder w).
Proof.
  unfold on_start. split; [|split].
  - intros H. now rewrite (strip_blank _ H).
  - intros Hu H. rewrite (bool_decide_eq_false_2 _ Hu). now rewrite (strip_blank _ H).
  - intros Hu Hp Hd.
    now rewrite (bool_decide_eq_false_2 _ Hu), (bool_decide_eq_false_2 _ Hp), Hd.
Qed.

Lemma blank_fields_count_as_empty_witness :
  on_start isdir0 window_blank = warn s_input_error s_enter_url window_blank.
Proof.
  exact (proj1 (blank_fields_count_as_empty isdir0 window_blank) eq_refl).
Defined.

(** X25.  The ffmpeg label agrees with what a job will ask the engine for:
    for every job [on_start] launches, the label shows the "merge used" text
    exactly when the option dictionary carries [merge_output_format] [mp4],
    and the "single stream" text exactly when every alternative of the
    format is single-stream. *)
Theorem ffmpeg_label_matches_format (rt : runtime) (isdir : str -> bool) (w : t) :
  valid_input isdir w ->
  worker (on_start isdir w) = Some (job_of w)
  /\ (ffmpeg_label (ffmpeg_available w) = s_ffmpeg_detected <->
      merge_output_format (build_opts rt (job_of w)) = Some (lit "mp4"))
  /\ (ffmpeg_label (ffmpeg_available w) = s_ffmpeg_missing <->
      forallb single_stream (alternatives (format (build_opts rt (job_of w)))) = true).
Proof.
  intros Hv. rewrite (on_start_valid isdir w Hv).
  split; [reflexivity|].
  unfold build_opts, job_of, ffmpeg_label. cbn [DownloadWorker.ffmpeg_available].
  destruct (ffmpeg_available w); cbn [merge_output_format format].
  - split; [split; reflexivity|].
    split; [discriminate|]. intros H. vm_compute in H. discriminate.
  - split; [split; discriminate|].
    split; [intros _; vm_compute; reflexivity | reflexivity].
Qed.

Lemma ffmpeg_label_matches_format_witness :
  ffmpeg_label (ffmpeg_available window0) = s_ffmpeg_missing
  /\ forallb single_stream (alternatives (format (build_opts rt0 (job_of window0)))) = true.
Proof.
  destruct (ffmpeg_label_matches_format rt0 isdir0 window0) as (_ & _ & H).
  - split; [vm_compute; discriminate|]. split; [vm_compute; discriminate | reflexivity].
  - split; [reflexivity|]. apply H. reflexivity.
Defined.

(** ** The window: invariants of the slots *)

(** X16.  Every slot keeps the window consistent: if the start button is
    enabled exactly when no thread is held, and thread and worker are held
    together, then the same is true after [on_start], after [on_browse],
    after the slot of any signal, and after the slots of any sequence of
    signals. *)
Theorem slots_keep_consistency (isdir : str -> bool) (w : t) :
  consistent w ->
  consistent (on_start isdir w)
  /\ (forall chosen, consistent (on_browse chosen w))
  /\ (forall s, consistent (deliver w s))
  /\ (forall tr, consistent (window_after w tr)).
Proof.
  assert (Hd : forall w0 s, consistent w0 -> consistent (deliver w0 s)).
  { intros w0 s [[A1 A2] [B1 B2]].
    destruct s; simpl; unfold consistent; simpl; try tauto.
    - split; [tauto|]. destruct (thread w0); [tauto|]. split; auto.
    - split; [tauto|]. destruct (thread w0); [tauto|]. split; auto. }
  intros Hc. split; [|split; [|split]].
  - unfold on_start.
    destruct (bool_decide _); [exact Hc|].
    destruct (bool_decide _); [exact Hc|].
    destruct (negb _); [exact Hc|].
    unfold consistent. simpl. split; split; discriminate.
  - intros chosen. unfold on_browse. destruct (bool_decide _); exact Hc.
  - intros s. now apply Hd.
  - intros tr. unfold window_after. revert w Hc.
    induction tr as [|s tr IH]; intros w Hc; simpl; [exact Hc|].
    apply IH. now apply Hd.
Qed.

Lemma slots_keep_consistency_witness :
  consistent (on_start isdir0 window0)
  /\ consistent (window_after window0 [log s_collecting; finished]).
Proof.
  assert (H : consistent window0) by (split; split; reflexivity).
  destruct (slots_keep_consistency isdir0 window0 H) as (H1 & _ & _ & H4).
  split; [exact H1 | apply H4].
Defined.

(** ** The window along the signals of a job *)

Lemma window_after_snoc w tr s :
  window_after w (tr ++ [s]) = deliver (window_after w tr) s.
Proof. unfold window_after. now rewrite fold_left_app. Qed.

Lemma last_progress_snoc tr s :
  last_progress (tr ++ [s])
  = match s with
    | progress p a => Some (p, a)
    | _ => last_progress tr
    end.
Proof. unfold last_progress. rewrite fold_left_app. reflexivity. Qed.

Lemma log_lines_snoc tr s :
  log_lines (tr ++ [s])
  = log_lines tr ++ match s with log text => [text] | _ => [] end.
Proof. unfold log_lines. rewrite flat_map_app. simpl. now rewrite app_nil_r. Qed.

Lemma bar_after_snoc v tr s :
  bar_after v (tr ++ [s])
  = match s with
    | progress p _ =>
        if (0 <=? c_int p) && (c_int p <=? 100) then c_int p else bar_after v tr
    | _ => bar_after v tr
    end.
Proof. unfold bar_after. rewrite fold_left_app. reflexivity. Qed.

Lemma bar_after_range v tr : 0 <= v <= 100 -> 0 <= bar_after v tr <= 100.
Proof.
  intros Hv. induction tr as [|s tr IH] using rev_ind; [exact Hv|].
  rewrite bar_after_snoc. destruct s as [p a | | |]; try exact IH.
  destruct (0 <=? c_int p) eqn:E1; [|exact IH].
  destruct (c_int p <=? 100) eqn:E2; [|exact IH].
  apply Z.leb_le in E1, E2. simpl. lia.
Qed.

Lemma bar_after_last v tr p a :
  last_progress tr = Some (p, a) -> 0 <= p <= 100 -> bar_after v tr = p.
Proof.
  induction tr as [|s tr IH] using rev_ind; [discriminate|].
  rewrite last_progress_snoc, bar_after_snoc. intros H Hp.
  destruct s as [p' a' | | |]; try (now apply IH).
  injection H as -> ->. rewrite c_int_small by lia.
  replace (0 <=? p) with true by (symmetry; apply Z.leb_le; lia).
  replace (p <=? 100) with true by (symmetry; apply Z.leb_le; lia).
  reflexivity.
Qed.

(** The window after signals none of which is terminal. *)
Lemma window_after_nonterminal w tr :
  Forall (fun s => is_terminal s = false) tr ->
  start_btn_enabled (window_after w tr) = start_btn_enabled w
  /\ thread (window_after w tr) = thread w
  /\ worker (window_after w tr) = worker w
  /\ log_view (window_after w tr) = log_view w ++ log_lines tr
  /\ progress_value (window_after w tr) = bar_after (progress_value w) tr
  /\ status_label (window_after w tr) = status_after (status_label w) tr.
Proof.
  induction tr as [|s tr IH] using rev_ind; intros H.
  - unfold window_after, status_after. simpl. rewrite app_nil_r.
    repeat split; reflexivity.
  - apply Forall_app in H as [Htr Hs]. apply Forall_inv in Hs.
    destruct (IH Htr) as (I1 & I2 & I3 & I4 & I5 & I6).
    rewrite window_after_snoc, log_lines_snoc, bar_after_snoc.
    unfold status_after in *. rewrite last_progress_snoc.
    destruct s as [p a | text | |]; try discriminate; simpl.
    + rewrite app_nil_r, I5. repeat split; assumption.
    + rewrite I4, app_assoc. repeat split; assumption.
Qed.

Lemma deliver_terminal_view w s :
  is_terminal s = true ->
  log_view (deliver w s) = log_view w ++ [final_line s]
  /\ status_label (deliver w s) = final_status s
  /\ progress_value (deliver w s) = progress_value w
  /\ start_btn_enabled (deliver w s) = true
  /\ thread (deliver w s) = None.
Proof. destruct s; simpl; intros H; try discriminate; auto. Qed.

(** X17.  A job's log: [on_start] clears the log, each [log] signal
    appends its text, [progress] signals append nothing, and the terminal
    signal appends one last line, the completion text for [finished] and the
    tagged message for [error].  Nothing of an earlier job remains. *)
Theorem job_log_view
    (isdir : str -> bool) (w : t) (pre : list signal) (s : signal) :
  valid_input isdir w ->
  Forall (fun x => is_terminal x = false) pre ->
  is_terminal s = true ->
  log_view (window_after (on_start isdir w) pre) = log_lines pre
  /\ log_view (window_after (on_start isdir w) (pre ++ [s]))
     = log_lines pre ++ [final_line s].
Proof.
  intros Hv Hpre Hs. rewrite window_after_snoc.
  destruct (deliver_terminal_view (window_after (on_start isdir w) pre) s Hs) as (E & _).
  destruct (window_after_nonterminal (on_start isdir w) pre Hpre) as (_ & _ & _ & E' & _).
  rewrite E, E', (on_start_valid isdir w Hv). simpl. auto.
Qed.

Lemma job_log_view_witness :
  log_view (window_after (on_start isdir0 window0)
              ([log s_collecting; progress 50 []] ++ [error (lit "Video unavailable")]))
  = log_lines [log s_collecting; progress 50 []]
      ++ [final_line (error (lit "Video unavailable"))].
Proof.
  apply (job_log_view isdir0 window0 [log s_collecting; progress 50 []]
           (error (lit "Video unavailable"))).
  - split; [vm_compute; discriminate|]. split; [vm_compute; discriminate | reflexivity].
  - repeat constructor.
  - reflexivity.
Defined.

(** X18.  A job's display: while the job runs, the status line shows the
    last [progress] signal (the start text before the first), with the
    separator [ - ] only before a non-empty annotation, and the bar shows the
    percentage of the last [progress] signal whose percentage lies in the
    bar's range 0..100 (0 before the first): a percentage outside the range
    leaves the bar where it was, so the bar always stays within 0..100, and
    it shows the last percentage whenever that lies in the range.  The
    terminal slot replaces the status text and leaves the bar as it is:
    [on_finished] does not set it to 100. *)
Theorem job_display
    (isdir : str -> bool) (w : t) (pre : list signal) (s : signal) :
  valid_input isdir w ->
  Forall (fun x => is_terminal x = false) pre ->
  is_terminal s = true ->
  let w1 := on_start isdir w in
  progress_value (window_after w1 pre) = bar_after 0 pre
  /\ status_label (window_after w1 pre) = status_after s_starting pre
  /\ progress_value (window_after w1 (pre ++ [s])) = bar_after 0 pre
  /\ status_label (window_after w1 (pre ++ [s])) = final_status s
  /\ 0 <= bar_after 0 pre <= 100
  /\ (forall p a, last_progress pre = Some (p, a) -> 0 <= p <= 100 ->
                  bar_after 0 pre = p).
Proof.
  intros Hv Hpre Hs w1.
  destruct (window_after_nonterminal w1 pre Hpre) as (_ & _ & _ & _ & E1 & E2).
  assert (E0 : progress_value w1 = 0 /\ status_label w1 = s_starting).
  { unfold w1. rewrite (on_start_valid isdir w Hv). split; reflexivity. }
  destruct E0 as [E0 E0']. rewrite E0 in E1. rewrite E0' in E2.
  split; [exact E1|]. split; [exact E2|].
  rewrite window_after_snoc.
  destruct (deliver_terminal_view (window_after w1 pre) s Hs) as (_ & H2 & H3 & _).
  rewrite H2, H3, E1.
  split; [reflexivity|]. split; [reflexivity|].
  split; [apply bar_after_range; lia|].
  intros p a. apply bar_after_last.
Qed.

Lemma job_display_witness :
  progress_value (window_after (on_start isdir0 window0)
                    ([log s_collecting; progress 50 []; progress 200 []]
                       ++ [error (lit "Video unavailable")]))
  = 50
  /\ status_label (window_after (on_start isdir0 window0)
                     ([log s_collecting; progress 50 []; progress 200 []]
                        ++ [error (lit "Video unavailable")]))
     = s_error.
Proof.
  destruct (job_display isdir0 window0 [log s_collecting; progress 50 []; progress 200 []]
              (error (lit "Video unavailable"))) as (_ & _ & H2 & H3 & _).
  - split; [vm_compute; discriminate|]. split; [vm_compute; discriminate | reflexivity].
  - repeat constructor.
  - reflexivity.
  - split; [exact H2 | exact H3].
Defined.

Lemma window_after_inputs (w : t) (tr : list signal) :
  url_edit (window_after w tr) = url_edit w
  /\ path_edit (window_after w tr) = path_edit w
  /\ ffmpeg_available (window_after w tr) = ffmpeg_available w
  /\ dialogs (window_after w tr) = dialogs w.
Proof.
  unfold window_after. revert w.
  induction tr as [|s tr IH]; intros w; simpl; [auto|].
  destruct (IH (deliver w s)) as (H1 & H2 & H3 & H4).
  rewrite H1, H2, H3, H4. destruct s; auto.
Qed.

(** X19.  The slots of the worker's signals never change the URL field,
    the folder field or the ffmpeg flag and never show a dialog, however
    many signals arrive; [on_progress] leaves the log alone and [append_log]
    leaves the bar and the status line alone. *)
Theorem slots_keep_inputs (w : t) (tr : list signal) :
  url_edit (window_after w tr) = url_edit w
  /\ path_edit (window_after w tr) = path_edit w
  /\ ffmpeg_available (window_after w tr) = ffmpeg_available w
  /\ dialogs (window_after w tr) = dialogs w
  /\ (forall p a, log_view (on_progress p a w) = log_view w)
  /\ (forall text, progress_value (append_log text w) = progress_value w
                   /\ status_label (append_log text w) = status_label w).
Proof.
  destruct (window_after_inputs w tr) as (H1 & H2 & H3 & H4).
  repeat (split; [assumption|]). split; [reflexivity|]. intros text. now split.
Qed.

(** ** Browsing for the folder *)



(** ** A whole job: the click, the run, and the slots *)

Lemma run_emitted rt yt_dlp self :
  exists tr,
    tr = (with_block yt_dlp (build_opts rt self) self).1
    /\ Forall (fun s => is_terminal s = false) tr
    /\ run rt yt_dlp self
       = match (with_block yt_dlp (build_opts rt self) self).2 with
         | None => {| emitted := tr ++ [finished]; escaped := None |}
         | Some e =>
             if is_Exception (exn_class e)
             then {| emitted := tr ++ [error (exn_str e)]; escaped := None |}
             else {| emitted := tr; escaped := Some e |}
         end.
Proof.
  pose proof (with_block_no_terminal rt yt_dlp self) as H.
  unfold run. destruct (with_block _ _ _) as [tr o]. simpl in *.
  exists tr. split; [reflexivity|]. split; [now apply count_terminal_none|].
  destruct o; reflexivity.
Qed.

(** X21.  A whole job.  For valid input and an engine whose call ends
    normally or with an instance of [Exception], after [on_start], the
    worker's [run] and the slots for every emitted signal in emission order,
    the window is ready again: the button is enabled, thread and worker are
    released, and the two input fields are as the user left them.  The status
    line and the last log line say completion when the call ended normally
    and give the error, with [str(e)], when it raised [e]. *)
Theorem session_ends_ready
    (rt : runtime) (isdir : str -> bool) (yt_dlp : engine) (w : t) :
  valid_input isdir w ->
  (forall e, (with_block yt_dlp (build_opts rt (job_of w)) (job_of w)).2 = Some e ->
             is_Exception (exn_class e) = true) ->
  let w1 := on_start isdir w in
  let wf := window_after w1 (emitted (run rt yt_dlp (job_of w))) in
  worker w1 = Some (job_of w)
  /\ start_btn_enabled wf = true /\ thread wf = None /\ worker wf = None
  /\ url_edit wf = url_edit w /\ path_edit wf = path_edit w
  /\ match (with_block yt_dlp (build_opts rt (job_of w)) (job_of w)).2 with
     | None => status_label wf = s_done /\ last (log_view wf) = Some s_done
     | Some e => status_label wf = s_error
                 /\ last (log_view wf) = Some (s_error_tag ++ exn_str e)
     end.
Proof.
  intros Hv Hexc w1 wf.
  assert (E1 : w1 = {| url_edit := url_edit w; path_edit := path_edit w;
                       start_btn_enabled := false; progress_value := 0;
                       status_label := s_starting; log_view := [];
                       thread := Some {| running := true |};
                       worker := Some (job_of w);
                       ffmpeg_available := ffmpeg_available w;
                       dialogs := dialogs w |})
    by apply (on_start_valid isdir w Hv).
  split; [now rewrite E1|].
  destruct (window_after_inputs w1 (emitted (run rt yt_dlp (job_of w))))
    as (K1 & K2 & _ & _).
  fold wf in K1, K2.
  destruct (run_emitted rt yt_dlp (job_of w)) as (tr & _ & Hnt & Hrun).
  destruct (window_after_nonterminal w1 tr Hnt) as (_ & I2 & _).
  assert (Hend : forall s, is_terminal s = true ->
                   emitted (run rt yt_dlp (job_of w)) = tr ++ [s] ->
                   start_btn_enabled wf = true /\ thread wf = None /\ worker wf = None
                   /\ status_label wf = final_status s
                   /\ last (log_view wf) = Some (final_line s)).
  { intros s Hs Es. unfold wf. rewrite Es, window_after_snoc.
    destruct (deliver_terminal (window_after w1 tr) s {| running := true |} Hs)
      as (A1 & A2 & A3); [now rewrite I2, E1|].
    destruct (deliver_terminal_view (window_after w1 tr) s Hs) as (B1 & B2 & _).
    rewrite B1, last_snoc. auto. }
  destruct (with_block yt_dlp (build_opts rt (job_of w)) (job_of w)).2 as [e|] eqn:Eo.
  - rewrite (Hexc e eq_refl) in Hrun.
    destruct (Hend (error (exn_str e)) eq_refl) as (A1 & A2 & A3 & A4 & A5);
      [now rewrite Hrun|].
    rewrite E1 in K1, K2. simpl in K1, K2. auto 10.
  - destruct (Hend finished eq_refl) as (A1 & A2 & A3 & A4 & A5); [now rewrite Hrun|].
    rewrite E1 in K1, K2. simpl in K1, K2. auto 10.
Qed.

Lemma session_ends_ready_witness :
  let wf := window_after (on_start isdir0 window0)
              (emitted (run rt0 (engine_raising exn_download) (job_of window0))) in
  start_btn_enabled wf = true /\ thread wf = None
  /\ status_label wf = s_error
  /\ last (log_view wf) = Some (s_error_tag ++ lit "Video unavailable").
Proof.
  destruct (session_ends_ready rt0 isdir0 (engine_raising exn_download) window0)
    as (_ & H1 & H2 & _ & _ & _ & H3).
  - split; [vm_compute; discriminate|]. split; [vm_compute; discriminate | reflexivity].
  - intros e He. vm_compute in He. injection He as <-. reflexivity.
  - simpl. split; [exact H1|]. split; [exact H2|]. exact H3.
Defined.

(** X22.  When the engine call ends with an exception that is not an
    instance of [Exception], the exception leaves [run], and after the slots
    of every emitted signal the start button is still disabled with thread
    and worker held: no slot ran that enables it, and the status line shows
    neither the completion nor the error text. *)
Theorem escaped_exception_leaves_window_busy
    (rt : runtime) (isdir : str -> bool) (yt_dlp : engine) (w : t) (e : exn) :
  valid_input isdir w ->
  (with_block yt_dlp (build_opts rt (job_of w)) (job_of w)).2 = Some e ->
  is_Exception (exn_class e) = false ->
  let wf := window_after (on_start isdir w) (emitted (run rt yt_dlp (job_of w))) in
  escaped (run rt yt_dlp (job_of w)) = Some e
  /\ start_btn_enabled wf = false
  /\ thread wf = Some {| running := true |}
  /\ worker wf = Some (job_of w)
  /\ status_label wf <> s_done /\ status_label wf <> s_error.
Proof.
  intros Hv Ho He wf.
  destruct (run_emitted rt yt_dlp (job_of w)) as (tr & _ & Hnt & Hrun).
  rewrite Ho, He in Hrun.
  destruct (window_after_nonterminal (on_start isdir w) tr Hnt)
    as (I1 & I2 & I3 & _ & _ & I5).
  unfold wf. rewrite Hrun. cbn [emitted escaped].
  rewrite I1, I2, I3, I5. unfold status_after.
  rewrite (on_start_valid isdir w Hv).
  repeat (split; [reflexivity|]).
  destruct (last_progress tr) as [[p a]|]; cbn; split; discriminate.
Qed.

Lemma escaped_exception_leaves_window_busy_witness :
  let wf := window_after (on_start isdir0 window0)
              (emitted (run rt0 (engine_raising exn_exit) (job_of window0))) in
  escaped (run rt0 (engine_raising exn_exit) (job_of window0)) = Some exn_exit
  /\ start_btn_enabled wf = false.
Proof.
  destruct (escaped_exception_leaves_window_busy rt0 isdir0 (engine_raising exn_exit)
              window0 exn_exit) as (H1 & H2 & _).
  - split; [vm_compute; discriminate|]. split; [vm_compute; discriminate | reflexivity].
  - reflexivity.
  - reflexivity.
  - split; [exact H1 | exact H2].
Defined.

(** ** What the hook reads *)

(** X23.  The progress hook reads seven keys of the payload: [status],
    [downloaded_bytes], [total_bytes], [total_bytes_estimate], [info_dict],
    [speed] and [eta].  Two payloads that agree on them give the same
    signal and the same result, whatever else they contain. *)
Theorem hook_reads_only_its_keys (rt : runtime) (d d' : gmap str value) :
  (forall k, In k hook_keys -> dict_get d k = dict_get d' k) ->
  _progress_hook rt d = _progress_hook rt d'.
Proof.
  intros H.
  assert (E1 : dict_get d "status" = dict_get d' "status")
    by (apply H; simpl; tauto).
  assert (E2 : dict_get d "downloaded_bytes" = dict_get d' "downloaded_bytes")
    by (apply H; simpl; tauto).
  assert (E3 : dict_get d "total_bytes" = dict_get d' "total_bytes")
    by (apply H; simpl; tauto).
  assert (E4 : dict_get d "total_bytes_estimate" = dict_get d' "total_bytes_estimate")
    by (apply H; simpl; tauto).
  assert (E5 : dict_get d "info_dict" = dict_get d' "info_dict")
    by (apply H; simpl; tauto).
  assert (E6 : dict_get d "speed" = dict_get d' "speed")
    by (apply H; simpl; tauto).
  assert (E7 : dict_get d "eta" = dict_get d' "eta")
    by (apply H; simpl; tauto).
  unfold _progress_hook, percent_of, desc_of, prefix_of, speed_of, eta_of.
  now rewrite E1, E2, E3, E4, E5, E6, E7.
Qed.

Lemma hook_reads_only_its_keys_witness :
  _progress_hook rt0 (<[lit "filename" := VStr (lit "a.mp4")]> d_half)
  = _progress_hook rt0 d_half.
Proof.
  apply (hook_reads_only_its_keys rt0
           (<[lit "filename" := VStr (lit "a.mp4")]> d_half) d_half).
  intros k Hk. simpl in Hk.
  destruct Hk as [<- | [<- | [<- | [<- | [<- | [<- | [<- | []]]]]]]];
    vm_compute; reflexivity.
Defined.
